(** * A two-phase digital-circuit simulation kernel

    Shallow embedding of [Nodes.h], [Nodes.cpp] and the example [main]:
    the arena [CircuitData], the terminals, the typed wires, the four
    example node kinds, the two evaluation phases and the example program.

    Conventions of the embedding.
    - [uint32_t] values ([nodeID_t], [edgeID_t], ROM words and the ROM
      position) are binary naturals [N]; every place where the C++ code
      narrows to 32 bits is written [to_uint32].
    - A [std::vector<std::shared_ptr<X>>] is a [list (option X)]: [None] is
      the null pointer.  Every object is created by one [make_shared] and
      stored in exactly one slot, so a pointer to an object is the index of
      its slot.
    - A call either returns ([Ok]), throws the one exception the code can
      throw ([Throw out_of_range], from [std::vector::at]), or runs into
      behaviour the C++ standard leaves undefined ([Undefined]).
    - [std::cout] is the list of the lines written so far. *)

From stdpp Require Import base option list.
From Stdlib Require Import NArith Lia.

Open Scope N_scope.

(** ** Machine integers *)

Definition uint32_t := N.
Definition to_uint32 (n : N) : uint32_t := n mod 2 ^ 32.

Definition nodeID_t := uint32_t.
Definition edgeID_t := uint32_t.

Definition nullNode_t : nodeID_t := to_uint32 0.
Definition nullEdge_t : edgeID_t := to_uint32 0.

(** ** Outcomes of a call *)

Inductive exn := out_of_range.

Inductive ub :=
| NullDeref      (* [*p] or [p->f] on a null [shared_ptr] *)
| BadCast        (* [static_pointer_cast] to a type the object does not have *)
| ArrayOOB       (* [std::array::operator[]] past the end *)
| DivByZero.     (* [% 0] *)

Inductive outcome (A : Type) :=
| Ok (a : A)
| Throw (e : exn)
| Undefined (u : ub).
Arguments Ok {A} a.
Arguments Throw {A} e.
Arguments Undefined {A} u.

(** ** Wires *)

Inductive data_t := T_bool | T_uint32.

Definition cpp_type (T : data_t) : Type :=
  match T with T_bool => bool | T_uint32 => uint32_t end.

(** Value initialisation [DATA_T{}]. *)
Definition value_init (T : data_t) : cpp_type T :=
  match T with T_bool => false | T_uint32 => 0 end.

Record WireNode (DATA_T : Type) := mkWireNode {
  m_value : DATA_T;
  m_in : nodeID_t;
  m_out : nodeID_t
}.
Arguments mkWireNode {DATA_T} _ _ _.
Arguments m_value {DATA_T} _.
Arguments m_in {DATA_T} _.
Arguments m_out {DATA_T} _.

(** The objects a [shared_ptr<Connection>] of the arena points to: the two
    instantiations of [WireNode] the node kinds use. *)
Inductive Connection :=
| Wire_bool (w : WireNode bool)
| Wire_uint32 (w : WireNode uint32_t).

Definition value_type (c : Connection) : data_t :=
  match c with Wire_bool _ => T_bool | Wire_uint32 _ => T_uint32 end.

(** [std::make_shared<WireNode<DATA_T>>()]: the default member
    initialisers [m_value{}], [m_in{nullNode_t}], [m_out{nullNode_t}]. *)
Definition make_shared_wire (T : data_t) : Connection :=
  match T with
  | T_bool => Wire_bool (mkWireNode (value_init T_bool) nullNode_t nullNode_t)
  | T_uint32 => Wire_uint32 (mkWireNode (value_init T_uint32) nullNode_t nullNode_t)
  end.

(** [std::static_pointer_cast<WireNode<DATA_T>>] followed by the
    dereference: unchecked in C++, undefined when the object is a wire of
    the other type. *)
Definition static_cast_wire (T : data_t) (c : Connection)
  : outcome (WireNode (cpp_type T)) :=
  match T return outcome (WireNode (cpp_type T)) with
  | T_bool => match c with Wire_bool w => Ok w | _ => Undefined BadCast end
  | T_uint32 => match c with Wire_uint32 w => Ok w | _ => Undefined BadCast end
  end.

Definition upcast_wire (T : data_t) : WireNode (cpp_type T) -> Connection :=
  match T return WireNode (cpp_type T) -> Connection with
  | T_bool => Wire_bool
  | T_uint32 => Wire_uint32
  end.

Definition wire_in (c : Connection) : nodeID_t :=
  match c with Wire_bool w => m_in w | Wire_uint32 w => m_in w end.
Definition wire_out (c : Connection) : nodeID_t :=
  match c with Wire_bool w => m_out w | Wire_uint32 w => m_out w end.
Definition set_wire_in (p : nodeID_t) (c : Connection) : Connection :=
  match c with
  | Wire_bool w => Wire_bool (mkWireNode (m_value w) p (m_out w))
  | Wire_uint32 w => Wire_uint32 (mkWireNode (m_value w) p (m_out w))
  end.
Definition set_wire_out (p : nodeID_t) (c : Connection) : Connection :=
  match c with
  | Wire_bool w => Wire_bool (mkWireNode (m_value w) (m_in w) p)
  | Wire_uint32 w => Wire_uint32 (mkWireNode (m_value w) (m_in w) p)
  end.

(** What [operator<<] writes for the value on a wire: a [uint32_t] in
    decimal, a [bool] as 1 or 0; one line of [cout] per value. *)
Definition shown (T : data_t) : cpp_type T -> N :=
  match T return cpp_type T -> N with
  | T_bool => fun b : bool => if b then 1 else 0
  | T_uint32 => fun n => n
  end.

(** ** Terminals *)

Record NodeTerminal := mkNodeTerminal {
  m_parentID : nodeID_t;
  m_id : edgeID_t
}.

(** The default member initialisers of [NodeTerminal]. *)
Definition NodeTerminal_init : NodeTerminal := mkNodeTerminal nullNode_t nullEdge_t.

Definition set_m_id (id : edgeID_t) (t : NodeTerminal) : NodeTerminal :=
  mkNodeTerminal (m_parentID t) id.

(** ** Node kinds *)

Module Constant.
Record t := mk { m_state : bool; m_output : NodeTerminal }.
Definition init : t := mk false NodeTerminal_init.
End Constant.

Module ANDGate.
Record t := mk {
  m_inA : NodeTerminal;
  m_inB : NodeTerminal;
  m_output : NodeTerminal;
  m_outVal : bool
}.
Definition init : t := mk NodeTerminal_init NodeTerminal_init NodeTerminal_init false.
Definition set_m_outVal (v : bool) (g : t) : t :=
  mk (m_inA g) (m_inB g) (m_output g) v.
End ANDGate.

Module ROM.
(** [ROM<SIZE>]: the template argument is the length of the table. *)
Record t := mk {
  m_data : list uint32_t;
  m_pc : uint32_t;
  m_output : NodeTerminal
}.
Definition SIZE (r : t) : N := N.of_nat (length (m_data r)).
(** The constructor [ROM(std::array<uint32_t, SIZE>&& data)]. *)
Definition init (data : list uint32_t) : t := mk data 0 NodeTerminal_init.
Definition set_m_pc (pc : uint32_t) (r : t) : t :=
  mk (m_data r) pc (m_output r).
Definition jmp (addr : uint32_t) (r : t) : t := set_m_pc addr r.
End ROM.

Module Printer.
(** [Printer<DATA_T>]. *)
Record t := mk { DATA_T : data_t; m_input : NodeTerminal }.
Definition init (T : data_t) : t := mk T NodeTerminal_init.
End Printer.

Inductive Node :=
| Node_Constant (c : Constant.t)
| Node_ANDGate (g : ANDGate.t)
| Node_ROM (r : ROM.t)
| Node_Printer (p : Printer.t).

(** The dynamic type of a node object. *)
Inductive node_kind :=
| K_Constant
| K_ANDGate
| K_ROM (size : N)
| K_Printer (T : data_t).

Definition kind_of (n : Node) : node_kind :=
  match n with
  | Node_Constant _ => K_Constant
  | Node_ANDGate _ => K_ANDGate
  | Node_ROM r => K_ROM (ROM.SIZE r)
  | Node_Printer p => K_Printer (Printer.DATA_T p)
  end.

(** ** The arena *)

Record CircuitData := mkCircuitData {
  m_edges : list (option Connection);
  m_nodes : list (option Node)
}.

(** [CircuitData data;]: each vector starts with one null pointer. *)
Definition CircuitData_init : CircuitData := mkCircuitData [None] [None].

Definition set_m_edges (es : list (option Connection)) (d : CircuitData) : CircuitData :=
  mkCircuitData es (m_nodes d).
Definition set_m_nodes (ns : list (option Node)) (d : CircuitData) : CircuitData :=
  mkCircuitData (m_edges d) ns.

(** [std::vector::at]: bounds-checked element access. *)
Definition at_ {A} (v : list A) (i : N) : outcome A :=
  match v !! N.to_nat i with
  | Some x => Ok x
  | None => Throw out_of_range
  end.

(** [CircuitData::add<NODE_T>(args...)]: the node is the object
    [make_shared<NODE_T>(args...)] built by the caller's arguments. *)
Definition add (node : Node) (d : CircuitData) : nodeID_t * CircuitData :=
  let id := to_uint32 (N.of_nat (length (m_nodes d))) in
  (id, set_m_nodes (m_nodes d ++ [Some node]) d).

(** A [std::shared_ptr<NODE_T>]: the static pointee type and the slot of
    the object pointed to ([None] for the null pointer). *)
Record shared_ptr := mk_shared_ptr {
  element_type : node_kind;
  target : option nat
}.

(** [CircuitData::get<NODE_T>(id)]: [at] then an unchecked
    [static_pointer_cast]. *)
Definition get (NODE_T : node_kind) (id : nodeID_t) (d : CircuitData)
  : outcome shared_ptr :=
  match at_ (m_nodes d) id with
  | Ok (Some _) => Ok (mk_shared_ptr NODE_T (Some (N.to_nat id)))
  | Ok None => Ok (mk_shared_ptr NODE_T None)
  | Throw e => Throw e
  | Undefined u => Undefined u
  end.

(** The pointer is well typed when the object it points to has the
    pointer's static type. *)
Definition well_typed_ptr (p : shared_ptr) (d : CircuitData) : Prop :=
  match target p with
  | None => True
  | Some slot =>
      match m_nodes d !! slot with
      | Some (Some n) => kind_of n = element_type p
      | _ => False
      end
  end.

(** ** Sequencing of fallible calls *)

Definition bind {A B} (m : outcome A) (k : A -> outcome B) : outcome B :=
  match m with
  | Ok a => k a
  | Throw e => Throw e
  | Undefined u => Undefined u
  end.

Notation "x <- m ;; k" := (bind m (fun x => k))
  (at level 100, m at next level, right associativity).

(** ** Terminal resolution *)

(** [NodeTerminal<WireNode<DATA_T>>::get(rData)].  The source returns the
    result of the pointer cast where a reference is declared; the embedding
    is the dereference every caller relies on ([.m_value] is read or
    written on the result). *)
Definition NodeTerminal_get (T : data_t) (t : NodeTerminal) (d : CircuitData)
  : outcome (WireNode (cpp_type T)) :=
  p <- at_ (m_edges d) (m_id t) ;;
  match p with
  | Some c => static_cast_wire T c
  | None => Undefined NullDeref
  end.

(** [t.get(rData).m_value = v]: assignment through the reference that
    [get] returns. *)
Definition NodeTerminal_assign (T : data_t) (t : NodeTerminal) (v : cpp_type T)
    (d : CircuitData) : outcome CircuitData :=
  w <- NodeTerminal_get T t d ;;
  Ok (set_m_edges
        (<[N.to_nat (m_id t) := Some (upcast_wire T (mkWireNode v (m_in w) (m_out w)))]>
           (m_edges d)) d).

(** ** The two phases of each node kind

    The program state a phase can touch: the arena passed as [rData] and
    [std::cout].  A method takes the object it is called on and returns it
    as the call leaves it. *)

Record World := mkWorld {
  rData : CircuitData;
  cout : list N
}.

Definition set_rData (d : CircuitData) (w : World) : World := mkWorld d (cout w).
Definition print (line : N) (w : World) : World := mkWorld (rData w) (cout w ++ [line]).

Definition Constant_process (this : Constant.t) (w : World)
  : outcome (Constant.t * World) :=
  Ok (this, w).

Definition Constant_propagate (this : Constant.t) (w : World)
  : outcome (Constant.t * World) :=
  d <- NodeTerminal_assign T_bool (Constant.m_output this) (Constant.m_state this) (rData w) ;;
  Ok (this, set_rData d w).

(** [m_outVal = m_inA.get(rData).m_value && m_inB.get(rData).m_value]:
    [&&] evaluates its right operand only when the left one is true. *)
Definition ANDGate_process (this : ANDGate.t) (w : World)
  : outcome (ANDGate.t * World) :=
  a <- NodeTerminal_get T_bool (ANDGate.m_inA this) (rData w) ;;
  if m_value a then
    b <- NodeTerminal_get T_bool (ANDGate.m_inB this) (rData w) ;;
    Ok (ANDGate.set_m_outVal (m_value b) this, w)
  else
    Ok (ANDGate.set_m_outVal false this, w).

Definition ANDGate_propagate (this : ANDGate.t) (w : World)
  : outcome (ANDGate.t * World) :=
  d <- NodeTerminal_assign T_bool (ANDGate.m_output this) (ANDGate.m_outVal this) (rData w) ;;
  Ok (this, set_rData d w).

Definition ROM_process (this : ROM.t) (w : World) : outcome (ROM.t * World) :=
  Ok (this, w).

(** [std::array::operator[]]: no bounds check. *)
Definition array_index (a : list uint32_t) (i : N) : outcome uint32_t :=
  match a !! N.to_nat i with
  | Some x => Ok x
  | None => Undefined ArrayOOB
  end.

(** [m_output.get(rData).m_value = m_data[m_pc]; (++m_pc) %= SIZE;]
    The right operand of the assignment is evaluated first.  [++m_pc] is a
    32-bit increment; the remainder is taken in [size_t] and narrowed back
    to [uint32_t]. *)
Definition ROM_propagate (this : ROM.t) (w : World) : outcome (ROM.t * World) :=
  v <- array_index (ROM.m_data this) (ROM.m_pc this) ;;
  d <- NodeTerminal_assign T_uint32 (ROM.m_output this) v (rData w) ;;
  let pc := to_uint32 (ROM.m_pc this + 1) in
  if ROM.SIZE this =? 0 then Undefined DivByZero
  else Ok (ROM.set_m_pc (to_uint32 (pc mod ROM.SIZE this)) this, set_rData d w).

(** [std::cout << m_input.get(rData).m_value << "\n"]. *)
Definition Printer_process (this : Printer.t) (w : World)
  : outcome (Printer.t * World) :=
  x <- NodeTerminal_get (Printer.DATA_T this) (Printer.m_input this) (rData w) ;;
  Ok (this, print (shown (Printer.DATA_T this) (m_value x)) w).

Definition Printer_propagate (this : Printer.t) (w : World)
  : outcome (Printer.t * World) :=
  Ok (this, w).

(** The virtual calls [node->process(rData)] and [node->propagate(rData)]:
    the method of the object's dynamic type runs on the object. *)
Definition dispatched {K} (inj : K -> Node) (r : outcome (K * World))
  : outcome (Node * World) :=
  r' <- r ;; Ok (inj r'.1, r'.2).

Definition Node_process (n : Node) (w : World) : outcome (Node * World) :=
  match n with
  | Node_Constant c => dispatched Node_Constant (Constant_process c w)
  | Node_ANDGate g => dispatched Node_ANDGate (ANDGate_process g w)
  | Node_ROM r => dispatched Node_ROM (ROM_process r w)
  | Node_Printer p => dispatched Node_Printer (Printer_process p w)
  end.

Definition Node_propagate (n : Node) (w : World) : outcome (Node * World) :=
  match n with
  | Node_Constant c => dispatched Node_Constant (Constant_propagate c w)
  | Node_ANDGate g => dispatched Node_ANDGate (ANDGate_propagate g w)
  | Node_ROM r => dispatched Node_ROM (ROM_propagate r w)
  | Node_Printer p => dispatched Node_Printer (Printer_propagate p w)
  end.

(** ** The driver, [Nodes.cpp] *)

(** The node object in slot [i] is left as the call made it. *)
Definition store_node (i : nat) (n : Node) (w : World) : World :=
  set_rData (set_m_nodes (<[i := Some n]> (m_nodes (rData w))) (rData w)) w.

(** One iteration of [for (auto& node : rData.m_nodes)] with the body
    [if (node) { node->method(rData); }]. *)
Definition visit (method : Node -> World -> outcome (Node * World)) (i : nat) (w : World)
  : outcome World :=
  match m_nodes (rData w) !! i with
  | Some (Some n) => r <- method n w ;; Ok (store_node i r.1 r.2)
  | _ => Ok w
  end.

Fixpoint for_each (body : nat -> World -> outcome World) (slots : list nat) (w : World)
  : outcome World :=
  match slots with
  | [] => Ok w
  | i :: rest => w' <- body i w ;; for_each body rest w'
  end.

Definition all_slots (w : World) : list nat := seq 0 (length (m_nodes (rData w))).

Definition process_all (w : World) : outcome World :=
  for_each (visit Node_process) (all_slots w) w.

Definition propagate_all (w : World) : outcome World :=
  for_each (visit Node_propagate) (all_slots w) w.

(** The body of the clock loop of [main]: one tick. *)
Definition tick (w : World) : outcome World :=
  w' <- process_all w ;; propagate_all w'.

Fixpoint run_ticks (clk : nat) (w : World) : outcome World :=
  match clk with
  | O => Ok w
  | S clk' => w' <- tick w ;; run_ticks clk' w'
  end.

(** ** Connecting two terminals *)

(** The terminal members of the node kinds. *)
Inductive member := F_m_output | F_m_inA | F_m_inB | F_m_input.

(** Each terminal member with the value type of its [WireNode]. *)
Definition Node_terminal (n : Node) (f : member) : option (data_t * NodeTerminal) :=
  match n, f with
  | Node_Constant c, F_m_output => Some (T_bool, Constant.m_output c)
  | Node_ANDGate g, F_m_inA => Some (T_bool, ANDGate.m_inA g)
  | Node_ANDGate g, F_m_inB => Some (T_bool, ANDGate.m_inB g)
  | Node_ANDGate g, F_m_output => Some (T_bool, ANDGate.m_output g)
  | Node_ROM r, F_m_output => Some (T_uint32, ROM.m_output r)
  | Node_Printer p, F_m_input => Some (Printer.DATA_T p, Printer.m_input p)
  | _, _ => None
  end.

Definition Node_set_terminal (f : member) (t : NodeTerminal) (n : Node) : Node :=
  match n, f with
  | Node_Constant c, F_m_output => Node_Constant (Constant.mk (Constant.m_state c) t)
  | Node_ANDGate g, F_m_inA =>
      Node_ANDGate (ANDGate.mk t (ANDGate.m_inB g) (ANDGate.m_output g) (ANDGate.m_outVal g))
  | Node_ANDGate g, F_m_inB =>
      Node_ANDGate (ANDGate.mk (ANDGate.m_inA g) t (ANDGate.m_output g) (ANDGate.m_outVal g))
  | Node_ANDGate g, F_m_output =>
      Node_ANDGate (ANDGate.mk (ANDGate.m_inA g) (ANDGate.m_inB g) t (ANDGate.m_outVal g))
  | Node_ROM r, F_m_output => Node_ROM (ROM.mk (ROM.m_data r) (ROM.m_pc r) t)
  | Node_Printer p, F_m_input => Node_Printer (Printer.mk (Printer.DATA_T p) t)
  | _, _ => n
  end.

(** A C++ reference [NodeTerminal<WireNode<DATA_T>>&] to a member of the
    node object in slot [owner]. *)
Record TermRef := mkTermRef {
  owner : nat;
  member_of : member
}.

#[global] Instance member_eq_dec : EqDecision member.
Proof. solve_decision. Defined.

#[global] Instance TermRef_eq_dec : EqDecision TermRef.
Proof. solve_decision. Defined.

Definition data_t_eqb (T1 T2 : data_t) : bool :=
  match T1, T2 with
  | T_bool, T_bool | T_uint32, T_uint32 => true
  | _, _ => false
  end.

(** Reading through the reference.  A reference whose static type
    [NodeTerminal<WireNode<T>>] is not the type of the member it names can
    only come from a pointer of the wrong type. *)
Definition deref (T : data_t) (r : TermRef) (d : CircuitData) : outcome NodeTerminal :=
  match m_nodes d !! owner r with
  | Some (Some n) =>
      match Node_terminal n (member_of r) with
      | Some (T', t) => if data_t_eqb T' T then Ok t else Undefined BadCast
      | None => Undefined BadCast
      end
  | _ => Undefined NullDeref
  end.

(** [r.m_id = id]. *)
Definition assign_m_id (T : data_t) (r : TermRef) (id : edgeID_t) (d : CircuitData)
  : outcome CircuitData :=
  t <- deref T r d ;;
  Ok (set_m_nodes
        (alter (fmap (Node_set_terminal (member_of r) (set_m_id id t))) (owner r) (m_nodes d))
        d).

(** [SysCircuit::connect<TYPE_T>(rData, a, b)], with [TYPE_T] the wire
    type [WireNode<T>].  [connection] points to the object just appended,
    which sits at the old size of [m_edges]; [id] is that size narrowed to
    [edgeID_t]. *)
Definition connect (T : data_t) (a b : TermRef) (rData : CircuitData)
  : outcome CircuitData :=
  let id := to_uint32 (N.of_nat (length (m_edges rData))) in
  let connection := length (m_edges rData) in
  let rData := set_m_edges (m_edges rData ++ [Some (make_shared_wire T)]) rData in
  rData <- assign_m_id T a id rData ;;
  rData <- assign_m_id T b id rData ;;
  ta <- deref T a rData ;;
  let rData :=
    set_m_edges (alter (fmap (set_wire_in (m_parentID ta))) connection (m_edges rData)) rData in
  tb <- deref T b rData ;;
  Ok (set_m_edges (alter (fmap (set_wire_out (m_parentID tb))) connection (m_edges rData)) rData).

(** ** The example program *)

(** [p->f] on a [shared_ptr]. *)
Definition arrow (p : shared_ptr) (f : member) : outcome TermRef :=
  match target p with
  | Some slot => Ok (mkTermRef slot f)
  | None => Undefined NullDeref
  end.

Definition romData : list uint32_t :=
  [0; 1; 2; 3; 4; 5; 6; 7; 8; 9; 10; 11; 12; 13; 14; 15].

(** The arena of [main] as the clock loop finds it.
    ([data.m_nodes.reserve(5)] changes capacity only.) *)
Definition main_setup : outcome CircuitData :=
  let data := CircuitData_init in
  let (printer_id, data) := add (Node_Printer (Printer.init T_uint32)) data in
  printer <- get (K_Printer T_uint32) printer_id data ;;
  let (rom_id, data) := add (Node_ROM (ROM.init romData)) data in
  rom <- get (K_ROM 16) rom_id data ;;
  a <- arrow rom F_m_output ;;
  b <- arrow printer F_m_input ;;
  connect T_uint32 a b data.

(** [main] with the bound of the clock loop as a parameter. *)
Definition main_ticks (ticks : nat) : outcome World :=
  data <- main_setup ;;
  run_ticks ticks (mkWorld data []).

(** [main]: [for (size_t clk = 0; clk < 36; clk++)]. *)
Definition main : outcome World := main_ticks 36.

(** ** The operations an external driver has

    What the program using the kernel can do to an arena: allocate a node,
    connect two terminals, send a ROM to an address, and run either
    phase. *)

(** [rom->jmp(addr)] through a [shared_ptr<ROM<SIZE>>] to the node in
    slot [slot]. *)
Definition jmp_at (slot : nat) (addr : uint32_t) (d : CircuitData) : outcome CircuitData :=
  match m_nodes d !! slot with
  | Some (Some (Node_ROM r)) =>
      Ok (set_m_nodes (<[slot := Some (Node_ROM (ROM.jmp addr r))]> (m_nodes d)) d)
  | Some (Some _) => Undefined BadCast
  | _ => Undefined NullDeref
  end.

Inductive op :=
| Op_add (node : Node)
| Op_connect (T : data_t) (a b : TermRef)
| Op_jmp (slot : nat) (addr : uint32_t)
| Op_process_all
| Op_propagate_all.

Definition step (o : op) (w : World) : outcome World :=
  match o with
  | Op_add node => Ok (set_rData (add node (rData w)).2 w)
  | Op_connect T a b => d <- connect T a b (rData w) ;; Ok (set_rData d w)
  | Op_jmp slot addr => d <- jmp_at slot addr (rData w) ;; Ok (set_rData d w)
  | Op_process_all => process_all w
  | Op_propagate_all => propagate_all w
  end.

Fixpoint run (ops : list op) (w : World) : outcome World :=
  match ops with
  | [] => Ok w
  | o :: rest => w' <- step o w ;; run rest w'
  end.

(** The program state before anything is allocated. *)
Definition World_init : World := mkWorld CircuitData_init [].

Definition writes_wires (o : op) : bool :=
  match o with Op_propagate_all => true | _ => false end.

(** [k] consecutive propagate calls on one ROM. *)
Fixpoint ROM_propagate_n (k : nat) (this : ROM.t) (w : World) : outcome (ROM.t * World) :=
  match k with
  | O => Ok (this, w)
  | S k' => r <- ROM_propagate this w ;; ROM_propagate_n k' r.1 r.2
  end.

(** ** Vocabulary of the statements *)

(** What identifies a wire apart from the value it carries. *)
Definition wire_frame (c : Connection) : data_t * nodeID_t * nodeID_t :=
  (value_type c, wire_in c, wire_out c).

Definition wire_frames (es : list (option Connection))
  : list (option (data_t * nodeID_t * nodeID_t)) :=
  fmap (M:=list) (fmap (M:=option) wire_frame) es.

(** The dynamic type in each node slot. *)
Definition node_kinds (d : CircuitData) : list (option node_kind) :=
  fmap (M:=list) (fmap (M:=option) kind_of) (m_nodes d).

(** The call ends in a checked, reportable error: an exception. *)
Definition raises {A} (o : outcome A) : Prop := exists e, o = Throw e.

(** Some terminal member of the node has never been connected. *)
Definition has_unconnected_terminal (n : Node) : Prop :=
  exists f T t, Node_terminal n f = Some (T, t) /\ m_id t = nullEdge_t.

(** The lines the sink of [main] has written after [ticks] ticks. *)
Definition sink_observes (ticks : nat) (lines : list N) : Prop :=
  exists w, main_ticks ticks = Ok w /\ cout w = lines.

(** The line a node writes to [cout] when its process phase runs against
    the wires of [d]: the value on the input wire of a printer, nothing
    for the other kinds. *)
Definition line_of (d : CircuitData) (slot : option Node) : list N :=
  match slot with
  | Some (Node_Printer p) =>
      match NodeTerminal_get (Printer.DATA_T p) (Printer.m_input p) d with
      | Ok x => [shown (Printer.DATA_T p) (m_value x)]
      | _ => []
      end
  | _ => []
  end.

(** The lines of all nodes, in arena order, against the wires of [d]. *)
Definition lines_of (d : CircuitData) : list N :=
  flat_map (line_of d) (m_nodes d).

(** ** Concrete arenas *)

(** The arena of [main] when the clock loop starts. *)
Definition main_data : CircuitData :=
  mkCircuitData
    [None; Some (Wire_uint32 (mkWireNode 0 0 0))]
    [None;
     Some (Node_Printer (Printer.mk T_uint32 (mkNodeTerminal 0 1)));
     Some (Node_ROM (ROM.mk romData 0 (mkNodeTerminal 0 1)))].

Definition main_world : World := mkWorld main_data [].

(** An AND gate in slot 1 whose output wire (wire 1) is also its first
    input, and whose second input (wire 2) is driven by the constant in
    slot 2.  Both wires carry true; the constant has been switched to
    false since the last tick. *)
Definition feedback_gate : ANDGate.t :=
  ANDGate.mk (mkNodeTerminal 1 1) (mkNodeTerminal 1 2) (mkNodeTerminal 1 1) false.

Definition feedback_world : World :=
  mkWorld
    (mkCircuitData
       [None; Some (Wire_bool (mkWireNode true 1 1)); Some (Wire_bool (mkWireNode true 2 1))]
       [None;
        Some (Node_ANDGate feedback_gate);
        Some (Node_Constant (Constant.mk false (mkNodeTerminal 2 2)))])
    [].

(** The arena of [main] after the two nodes are allocated, before the
    connect. *)
Definition main_nodes : CircuitData :=
  (add (Node_ROM (ROM.init romData))
     (add (Node_Printer (Printer.init T_uint32)) CircuitData_init).2).2.

(** An AND gate in slot 1: first input on wire 1 (carrying false), output
    on wire 2, second input never connected. *)
Definition half_wired_gate : ANDGate.t :=
  ANDGate.mk (mkNodeTerminal 1 1) NodeTerminal_init (mkNodeTerminal 1 2) false.

Definition half_wired_world : World :=
  mkWorld
    (mkCircuitData
       [None; Some (Wire_bool (mkWireNode false 0 1)); Some (Wire_bool (mkWireNode true 1 0))]
       [None; Some (Node_ANDGate half_wired_gate)])
    [].

(** The arena of [main] with the ROM at position [pc], the value [v] on
    the wire and [lines] written so far. *)
Definition main_state (pc v : N) (lines : list N) : World :=
  mkWorld
    (mkCircuitData
       [None; Some (Wire_uint32 (mkWireNode v 0 0))]
       [None;
        Some (Node_Printer (Printer.mk T_uint32 (mkNodeTerminal 0 1)));
        Some (Node_ROM (ROM.mk romData pc (mkNodeTerminal 0 1)))])
    lines.

(** The line the sink writes in tick number [k] (counted from 0): the
    initial value of the wire in the first tick, then the table one tick
    late. *)
Definition sink_line (k : nat) : N :=
  match k with
  | O => 0
  | S k' => N.of_nat k' mod 16
  end.

(** The state of [main] after [k] ticks. *)
Definition main_after (k : nat) : World :=
  main_state (N.of_nat k mod 16) (sink_line k) (sink_line <$> seq 0 k).

(** ** Vocabulary of the further properties *)

(** The terminal a node writes through in its propagate phase. *)
Definition output_terminal (n : Node) : option NodeTerminal :=
  match n with
  | Node_Constant c => Some (Constant.m_output c)
  | Node_ANDGate g => Some (ANDGate.m_output g)
  | Node_ROM r => Some (ROM.m_output r)
  | Node_Printer _ => None
  end.

(** The value type of the wire a node drives. *)
Definition output_type (n : Node) : data_t :=
  match n with Node_ROM _ => T_uint32 | _ => T_bool end.

(** The node writes wire slot [i] in its propagate phase. *)
Definition drives (i : nat) (n : Node) : Prop :=
  exists t, output_terminal n = Some t /\ N.to_nat (m_id t) = i.

(** The wire object the node's propagate leaves where it found [c]: the
    value the node holds, between the endpoints [c] had. *)
Definition driven (n : Node) (c : Connection) : Connection :=
  match n, c with
  | Node_Constant k, Wire_bool x =>
      Wire_bool (mkWireNode (Constant.m_state k) (m_in x) (m_out x))
  | Node_ANDGate g, Wire_bool x =>
      Wire_bool (mkWireNode (ANDGate.m_outVal g) (m_in x) (m_out x))
  | Node_ROM r, Wire_uint32 x =>
      Wire_uint32
        (mkWireNode (default 0 (ROM.m_data r !! N.to_nat (ROM.m_pc r))) (m_in x) (m_out x))
  | _, _ => c
  end.

(** The content of wire slot [i] after the propagate of the node in one
    node slot, given the content before it. *)
Definition drive (i : nat) (content : option (option Connection)) (slot : option Node)
  : option (option Connection) :=
  match slot with
  | Some n =>
      match output_terminal n with
      | Some t =>
          if decide (N.to_nat (m_id t) = i)
          then fmap (M:=option) (fmap (M:=option) (driven n)) content
          else content
      | None => content
      end
  | None => content
  end.

(** The node as its propagate leaves it: a ROM has stepped, the other
    kinds are as they were. *)
Definition stepped (n : Node) : Node :=
  match n with
  | Node_ROM r =>
      Node_ROM (ROM.set_m_pc (to_uint32 (to_uint32 (ROM.m_pc r + 1) mod ROM.SIZE r)) r)
  | _ => n
  end.

(** The terminal names a wire slot holding a wire of value type [T]. *)
Definition resolves (T : data_t) (t : NodeTerminal) (es : list (option Connection)) : Prop :=
  exists c, es !! N.to_nat (m_id t) = Some (Some c) /\ value_type c = T.

(** Every terminal of the node resolves at its type, and a ROM's position
    is inside its table. *)
Definition Node_ready (es : list (option Connection)) (n : Node) : Prop :=
  match n with
  | Node_Constant c => resolves T_bool (Constant.m_output c) es
  | Node_ANDGate g =>
      resolves T_bool (ANDGate.m_inA g) es /\
      resolves T_bool (ANDGate.m_inB g) es /\
      resolves T_bool (ANDGate.m_output g) es
  | Node_ROM r => resolves T_uint32 (ROM.m_output r) es /\ ROM.m_pc r < ROM.SIZE r
  | Node_Printer p => resolves (Printer.DATA_T p) (Printer.m_input p) es
  end.

Definition ready (d : CircuitData) : Prop :=
  forall j n, m_nodes d !! j = Some (Some n) -> Node_ready (m_edges d) n.

(** A node as its constructor leaves it, as far as terminals go: none is
    attached. *)
Definition fresh_node (n : Node) : Prop :=
  forall f T t, Node_terminal n f = Some (T, t) -> m_id t = nullEdge_t.

(** The allocations of the sequence pass freshly constructed nodes. *)
Definition fresh_adds (ops : list op) : Prop :=
  forall node, In (Op_add node) ops -> fresh_node node.

(** Every terminal in the arena is unattached or names a wire of its own
    value type. *)
Definition terminals_ok (d : CircuitData) : Prop :=
  forall T r t, deref T r d = Ok t ->
    m_id t = nullEdge_t \/ resolves T t (m_edges d).

(** The operations of [main] before its clock loop. *)
Definition main_ops : list op :=
  [Op_add (Node_Printer (Printer.init T_uint32));
   Op_add (Node_ROM (ROM.init romData));
   Op_connect T_uint32 (mkTermRef 2 F_m_output) (mkTermRef 1 F_m_input)].

(** The node slot holds a node whose output terminal names wire slot
    [i]. *)
Definition is_driver (i : nat) (slot : option Node) : bool :=
  match slot with
  | Some n =>
      match output_terminal n with
      | Some t => bool_decide (N.to_nat (m_id t) = i)
      | None => false
      end
  | None => false
  end.

(** The node slots driving wire slot [i], in arena order. *)
Definition drivers (i : nat) (slots : list (option Node)) : list (option Node) :=
  filter (fun slot => is_driver i slot = true) slots.

(** The node as its process leaves it, against the wires of [d]: an AND
    gate holds the conjunction of its inputs, the other kinds are as they
    were. *)
Definition processed (d : CircuitData) (n : Node) : Node :=
  match n with
  | Node_ANDGate g =>
      match NodeTerminal_get T_bool (ANDGate.m_inA g) d with
      | Ok a =>
          if m_value a then
            match NodeTerminal_get T_bool (ANDGate.m_inB g) d with
            | Ok b => Node_ANDGate (ANDGate.set_m_outVal (m_value b) g)
            | _ => n
            end
          else Node_ANDGate (ANDGate.set_m_outVal false g)
      | _ => n
      end
  | _ => n
  end.

(** The arena of [feedback_world] with the constant moved to the front of
    the node collection. *)
Definition feedback_world_rotated : World :=
  mkWorld
    (mkCircuitData
       (m_edges (rData feedback_world))
       [Some (Node_Constant (Constant.mk false (mkNodeTerminal 2 2)));
        None;
        Some (Node_ANDGate feedback_gate)])
    [].

(** The node slot holds a printer. *)
Definition is_Printer (slot : option Node) : bool :=
  match slot with Some (Node_Printer _) => true | _ => false end.

(** The number of printers in the arena. *)
Definition printers (d : CircuitData) : nat :=
  length (filter (fun slot => is_Printer slot = true) (m_nodes d)).

(** Two constants holding true (slots 1 and 2) drive wires 1 and 2, the
    inputs of the AND gate in slot 3, whose output wire 3 feeds the
    printer in slot 4; every wire still holds its initial value. *)
Definition and_world : World :=
  mkWorld
    (mkCircuitData
       [None;
        Some (Wire_bool (mkWireNode false 0 0));
        Some (Wire_bool (mkWireNode false 0 0));
        Some (Wire_bool (mkWireNode false 0 0))]
       [None;
        Some (Node_Constant (Constant.mk true (mkNodeTerminal 0 1)));
        Some (Node_Constant (Constant.mk true (mkNodeTerminal 0 2)));
        Some (Node_ANDGate
                (ANDGate.mk (mkNodeTerminal 0 1) (mkNodeTerminal 0 2) (mkNodeTerminal 0 3) false));
        Some (Node_Printer (Printer.mk T_bool (mkNodeTerminal 0 3)))])
    [].

(** ** Vocabulary of the owner identities *)

(** Every terminal of the node holds the owner identity its default
    member initialiser gives it, [m_parentID{nullNode_t}]. *)
Definition default_parent (n : Node) : Prop :=
  forall f T t, Node_terminal n f = Some (T, t) -> m_parentID t = nullNode_t.

(** Every terminal in the arena holds the null owner identity. *)
Definition parents_null (d : CircuitData) : Prop :=
  forall T r t, deref T r d = Ok t -> m_parentID t = nullNode_t.

(** The node with the attachment of every terminal erased: what a node
    is apart from the wire identities its terminals hold. *)
Definition detach (t : NodeTerminal) : NodeTerminal :=
  mkNodeTerminal (m_parentID t) nullEdge_t.

Definition unwired (n : Node) : Node :=
  match n with
  | Node_Constant c =>
      Node_Constant (Constant.mk (Constant.m_state c) (detach (Constant.m_output c)))
  | Node_ANDGate g =>
      Node_ANDGate (ANDGate.mk (detach (ANDGate.m_inA g)) (detach (ANDGate.m_inB g))
                      (detach (ANDGate.m_output g)) (ANDGate.m_outVal g))
  | Node_ROM r =>
      Node_ROM (ROM.mk (ROM.m_data r) (ROM.m_pc r) (detach (ROM.m_output r)))
  | Node_Printer p =>
      Node_Printer (Printer.mk (Printer.DATA_T p) (detach (Printer.m_input p)))
  end.

(** * Properties *)

(** ** Inversion of sequenced calls *)

Lemma bind_Ok {A B} (m : outcome A) (k : A -> outcome B) (b : B) :
  bind m k = Ok b -> exists a, m = Ok a /\ k a = Ok b.
Proof. destruct m as [a| |]; simpl; intros H; [eauto | discriminate..]. Qed.

Lemma bind_Throw {A B} (m : outcome A) (k : A -> outcome B) (e : exn) :
  bind m k = Throw e -> m = Throw e \/ exists a, m = Ok a /\ k a = Throw e.
Proof. destruct m as [a| |]; simpl; intros H; [right; eauto | left; congruence | discriminate]. Qed.

Ltac inv_bind H :=
  let a := fresh "a" in
  let Ha := fresh "Hcall" in
  apply bind_Ok in H; destruct H as (a & Ha & H).

Lemma at_Ok {A} (v : list A) (i : N) (x : A) :
  at_ v i = Ok x <-> v !! N.to_nat i = Some x.
Proof. unfold at_. destruct (v !! N.to_nat i); split; congruence. Qed.

Lemma at_Throw {A} (v : list A) (i : N) (e : exn) :
  at_ v i = Throw e <-> (length v <= N.to_nat i)%nat.
Proof.
  unfold at_. destruct (v !! N.to_nat i) eqn:E; split; try discriminate.
  - intros Hle. apply lookup_ge_None_2 in Hle. congruence.
  - intros _. by apply lookup_ge_None_1.
  - by destruct e.
Qed.

(** ** Terminal resolution *)

Lemma static_cast_wire_Ok T c x :
  static_cast_wire T c = Ok x <-> c = upcast_wire T x.
Proof.
  destruct T, c; simpl; split; intros H; try discriminate; congruence.
Qed.

Lemma static_cast_wire_type T c :
  static_cast_wire T c = Undefined BadCast <-> value_type c <> T.
Proof. destruct T, c; simpl; split; intros H; congruence. Qed.

(** Resolution looks at the wires only. *)
Lemma NodeTerminal_get_edges T t d1 d2 :
  m_edges d1 = m_edges d2 -> NodeTerminal_get T t d1 = NodeTerminal_get T t d2.
Proof. unfold NodeTerminal_get. by intros ->. Qed.

Lemma NodeTerminal_get_Ok T t d x :
  NodeTerminal_get T t d = Ok x <->
  m_edges d !! N.to_nat (m_id t) = Some (Some (upcast_wire T x)).
Proof.
  unfold NodeTerminal_get, at_.
  destruct (m_edges d !! N.to_nat (m_id t)) as [[c|]|]; simpl.
  - rewrite static_cast_wire_Ok. split; congruence.
  - split; discriminate.
  - split; discriminate.
Qed.

Lemma NodeTerminal_get_Throw T t d e :
  NodeTerminal_get T t d = Throw e <->
  (length (m_edges d) <= N.to_nat (m_id t))%nat.
Proof.
  unfold NodeTerminal_get. split.
  - intros H. apply bind_Throw in H as [H | (p & _ & H)].
    + by apply at_Throw in H.
    + destruct p as [c|]; [|discriminate]. destruct T, c; discriminate.
  - intros H. apply (at_Throw _ _ e) in H. by rewrite H.
Qed.

Lemma NodeTerminal_assign_Ok T t v d d' :
  NodeTerminal_assign T t v d = Ok d' ->
  exists x, NodeTerminal_get T t d = Ok x /\
    m_nodes d' = m_nodes d /\
    m_edges d' =
      <[N.to_nat (m_id t) := Some (upcast_wire T (mkWireNode v (m_in x) (m_out x)))]>
        (m_edges d).
Proof.
  unfold NodeTerminal_assign. intros H. inv_bind H. injection H as <-. eauto.
Qed.

Lemma NodeTerminal_assign_get T t v d d' :
  NodeTerminal_assign T t v d = Ok d' ->
  exists x, NodeTerminal_get T t d = Ok x /\
    NodeTerminal_get T t d' = Ok (mkWireNode v (m_in x) (m_out x)).
Proof.
  intros H. apply NodeTerminal_assign_Ok in H as (x & Hx & _ & He).
  exists x. split; [done|]. apply NodeTerminal_get_Ok. rewrite He.
  apply list_lookup_insert_eq. apply NodeTerminal_get_Ok in Hx.
  by apply lookup_lt_Some in Hx.
Qed.

(** ** One phase of one node *)

Lemma dispatched_Ok {K} (inj : K -> Node) (r : outcome (K * World)) x :
  dispatched inj r = Ok x -> exists k w, r = Ok (k, w) /\ x = (inj k, w).
Proof.
  unfold dispatched. intros H. inv_bind H. destruct a as [k w].
  injection H as <-. eauto.
Qed.

Lemma wire_frames_length es : length (wire_frames es) = length es.
Proof. unfold wire_frames. by rewrite length_fmap. Qed.

Lemma wire_frames_insert es i c c' :
  es !! i = Some (Some c) -> wire_frame c' = wire_frame c ->
  wire_frames (<[i := Some c']> es) = wire_frames es.
Proof.
  intros Hi Hf. unfold wire_frames. rewrite list_fmap_insert.
  apply list_insert_id. rewrite list_lookup_fmap, Hi. simpl. by rewrite Hf.
Qed.

Lemma NodeTerminal_assign_frames T t v d d' :
  NodeTerminal_assign T t v d = Ok d' ->
  m_nodes d' = m_nodes d /\ wire_frames (m_edges d') = wire_frames (m_edges d).
Proof.
  intros H. apply NodeTerminal_assign_Ok in H as (x & Hx & Hn & He).
  split; [done|]. rewrite He. apply NodeTerminal_get_Ok in Hx.
  eapply wire_frames_insert; [exact Hx|]. by destruct T.
Qed.

(** The process phase of every node kind returns the arena it was given. *)
Lemma Node_process_Ok n w r :
  Node_process n w = Ok r -> rData r.2 = rData w /\ kind_of r.1 = kind_of n.
Proof.
  destruct n as [c|g|r0|p]; intros H;
    apply dispatched_Ok in H as (k & w' & H & ->); simpl.
  - injection H as <- <-. done.
  - unfold ANDGate_process in H. inv_bind H.
    destruct (m_value a); [inv_bind H|]; injection H as <- <-; done.
  - injection H as <- <-. done.
  - unfold Printer_process in H. inv_bind H. injection H as <- <-. done.
Qed.

Lemma Node_propagate_Ok n w r :
  Node_propagate n w = Ok r ->
  m_nodes (rData r.2) = m_nodes (rData w) /\
  wire_frames (m_edges (rData r.2)) = wire_frames (m_edges (rData w)) /\
  cout r.2 = cout w /\
  kind_of r.1 = kind_of n.
Proof.
  destruct n as [c|g|r0|p]; intros H;
    apply dispatched_Ok in H as (k & w' & H & ->); simpl.
  - unfold Constant_propagate in H. inv_bind H. injection H as <- <-.
    apply NodeTerminal_assign_frames in Hcall as [? ?]. done.
  - unfold ANDGate_propagate in H. inv_bind H. injection H as <- <-.
    apply NodeTerminal_assign_frames in Hcall as [? ?]. done.
  - unfold ROM_propagate in H. inv_bind H. inv_bind H.
    destruct (ROM.SIZE r0 =? 0); [discriminate|]. injection H as <- <-.
    apply NodeTerminal_assign_frames in Hcall0 as [? ?]. done.
  - injection H as <- <-. done.
Qed.

(** ** One phase over the arena *)

Lemma store_node_nodes i n w :
  m_nodes (rData (store_node i n w)) = <[i := Some n]> (m_nodes (rData w)).
Proof. done. Qed.

Lemma store_node_edges i n w :
  m_edges (rData (store_node i n w)) = m_edges (rData w).
Proof. done. Qed.

Lemma store_node_cout i n w : cout (store_node i n w) = cout w.
Proof. done. Qed.

Section phase.
Variable method : Node -> World -> outcome (Node * World).
Variable Inv : World -> Prop.

Hypothesis method_nodes : forall n w r,
  method n w = Ok r -> m_nodes (rData r.2) = m_nodes (rData w).
Hypothesis method_Inv : forall n w r i,
  Inv w -> method n w = Ok r -> Inv (store_node i r.1 r.2).

(** Every node of a visited slot has had [method] run on it exactly
    once, in a state satisfying the invariant, and is stored as that call
    left it; no other slot changes. *)
Lemma for_each_visit slots : forall w w',
  NoDup slots -> Inv w ->
  for_each (visit method) slots w = Ok w' ->
  Inv w' /\
  length (m_nodes (rData w')) = length (m_nodes (rData w)) /\
  (forall j, j ∉ slots -> m_nodes (rData w') !! j = m_nodes (rData w) !! j) /\
  (forall j, m_nodes (rData w) !! j = Some None ->
             m_nodes (rData w') !! j = Some None) /\
  (forall j n, j ∈ slots -> m_nodes (rData w) !! j = Some (Some n) ->
     exists wj r, Inv wj /\ method n wj = Ok r /\
                  m_nodes (rData w') !! j = Some (Some r.1)).
Proof.
  induction slots as [|i rest IH]; intros w w' Hnd HI H; simpl in H.
  - injection H as <-. repeat split; try done. intros j n Hj. by apply elem_of_nil in Hj.
  - apply NoDup_cons in Hnd as [Hi Hnd]. inv_bind H. rename a into w1.
    destruct (IH w1 w' Hnd) as (HI' & Hlen & Hout & Hnull & Hin); [|done|].
    { unfold visit in Hcall.
      destruct (m_nodes (rData w) !! i) as [[n|]|]; [|congruence..].
      inv_bind Hcall. injection Hcall as <-. eauto. }
    unfold visit in Hcall.
    destruct (m_nodes (rData w) !! i) as [[n|]|] eqn:Ei.
    + inv_bind Hcall. rename a into r. injection Hcall as <-.
      pose proof (method_nodes _ _ _ Hcall0) as Hn.
      rewrite store_node_nodes, Hn in *. rewrite length_insert in Hlen.
      split; [done|]. split; [done|]. split; [|split].
      * intros j Hj. apply not_elem_of_cons in Hj as [Hji Hj].
        rewrite (Hout j Hj). by apply list_lookup_insert_ne.
      * intros j Hj. apply Hnull. rewrite list_lookup_insert_ne; [done|].
        intros ->. congruence.
      * intros j m Hj Hm. destruct (decide (j = i)) as [->|Hne].
        -- exists w, r. rewrite (Hout i Hi). rewrite list_lookup_insert_eq.
           ++ split; [done|]. split; congruence.
           ++ by apply lookup_lt_Some in Ei.
        -- apply elem_of_cons in Hj as [?|Hj]; [done|].
           apply Hin; [done|]. by rewrite list_lookup_insert_ne.
    + injection Hcall as <-. split; [done|]. split; [done|]. split; [|split].
      * intros j Hj. apply not_elem_of_cons in Hj as [_ Hj]. by apply Hout.
      * done.
      * intros j m Hj Hm. apply elem_of_cons in Hj as [->|Hj]; [congruence|].
        by apply Hin.
    + injection Hcall as <-. split; [done|]. split; [done|]. split; [|split].
      * intros j Hj. apply not_elem_of_cons in Hj as [_ Hj]. by apply Hout.
      * done.
      * intros j m Hj Hm. apply elem_of_cons in Hj as [->|Hj]; [congruence|].
        by apply Hin.
Qed.

Lemma phase_all w w' :
  Inv w ->
  for_each (visit method) (all_slots w) w = Ok w' ->
  Inv w' /\
  length (m_nodes (rData w')) = length (m_nodes (rData w)) /\
  (forall j, m_nodes (rData w) !! j = None -> m_nodes (rData w') !! j = None) /\
  (forall j, m_nodes (rData w) !! j = Some None ->
             m_nodes (rData w') !! j = Some None) /\
  (forall j n, m_nodes (rData w) !! j = Some (Some n) ->
     exists wj r, Inv wj /\ method n wj = Ok r /\
                  m_nodes (rData w') !! j = Some (Some r.1)).
Proof.
  intros HI H. apply for_each_visit in H as (HI' & Hlen & Hout & Hnull & Hin);
    [|apply NoDup_seq|done].
  split; [done|]. split; [done|]. split; [|split; [done|]].
  - intros j Hj. apply lookup_ge_None. rewrite Hlen. by apply lookup_ge_None.
  - intros j n Hj. apply Hin; [|done]. apply elem_of_seq.
    apply lookup_lt_Some in Hj. unfold all_slots. lia.
Qed.
End phase.

(** The node a process call leaves depends on the wires only. *)
Lemma Node_process_wires n w1 w2 r1 :
  m_edges (rData w1) = m_edges (rData w2) ->
  Node_process n w1 = Ok r1 ->
  exists r2, Node_process n w2 = Ok r2 /\ r2.1 = r1.1.
Proof.
  intros He. destruct n as [c|g|r0|p]; unfold Node_process, dispatched.
  - cbn. intros H. injection H as <-. eexists. split; [reflexivity|done].
  - unfold ANDGate_process.
    rewrite (NodeTerminal_get_edges _ (ANDGate.m_inA g) _ _ He).
    rewrite (NodeTerminal_get_edges _ (ANDGate.m_inB g) _ _ He).
    destruct (NodeTerminal_get T_bool (ANDGate.m_inA g) (rData w2)) as [a| |];
      simpl; [|discriminate..].
    destruct a as [[|] ia oa]; simpl.
    + destruct (NodeTerminal_get T_bool (ANDGate.m_inB g) (rData w2)) as [b| |];
        simpl; [|discriminate..].
      cbn. intros H. injection H as <-. eexists. split; [reflexivity|done].
    + cbn. intros H. injection H as <-. eexists. split; [reflexivity|done].
  - cbn. intros H. injection H as <-. eexists. split; [reflexivity|done].
  - unfold Printer_process.
    rewrite (NodeTerminal_get_edges _ (Printer.m_input p) _ _ He).
    destruct (NodeTerminal_get _ (Printer.m_input p) (rData w2)) as [x| |];
      simpl; [|discriminate..].
    cbn. intros H. injection H as <-. eexists. split; [reflexivity|done].
Qed.

Lemma process_all_spec w w' :
  process_all w = Ok w' ->
  m_edges (rData w') = m_edges (rData w) /\
  length (m_nodes (rData w')) = length (m_nodes (rData w)) /\
  (forall j, m_nodes (rData w) !! j = Some None ->
             m_nodes (rData w') !! j = Some None) /\
  (forall j n, m_nodes (rData w) !! j = Some (Some n) ->
     exists r, Node_process n w = Ok r /\
               m_nodes (rData w') !! j = Some (Some r.1)).
Proof.
  intros H. unfold process_all in H.
  apply (phase_all Node_process
           (fun wj => m_edges (rData wj) = m_edges (rData w))) in H.
  - destruct H as (He & Hlen & _ & Hnull & Hin).
    split; [done|]. split; [done|]. split; [done|].
    intros j n Hj. destruct (Hin j n Hj) as (wj & r & Hwj & Hr & Hj').
    destruct (Node_process_wires _ _ w _ Hwj Hr) as (r2 & Hr2 & Heq).
    exists r2. split; [done|]. by rewrite Heq.
  - intros n w0 r Hr. apply Node_process_Ok in Hr as [-> _]. done.
  - intros n w0 r i HI Hr. apply Node_process_Ok in Hr as [Hd _].
    rewrite store_node_edges, Hd. done.
  - done.
Qed.

Lemma propagate_all_spec w w' :
  propagate_all w = Ok w' ->
  wire_frames (m_edges (rData w')) = wire_frames (m_edges (rData w)) /\
  cout w' = cout w /\
  length (m_nodes (rData w')) = length (m_nodes (rData w)) /\
  (forall j, m_nodes (rData w) !! j = Some None ->
             m_nodes (rData w') !! j = Some None) /\
  (forall j n, m_nodes (rData w) !! j = Some (Some n) ->
     exists wj r, Node_propagate n wj = Ok r /\
                  m_nodes (rData w') !! j = Some (Some r.1)).
Proof.
  intros H. unfold propagate_all in H.
  apply (phase_all Node_propagate
           (fun wj => wire_frames (m_edges (rData wj)) = wire_frames (m_edges (rData w))
                      /\ cout wj = cout w)) in H.
  - destruct H as ([Hf Hc] & Hlen & _ & Hnull & Hin).
    split; [done|]. split; [done|]. split; [done|]. split; [done|].
    intros j n Hj. destruct (Hin j n Hj) as (wj & r & _ & Hr & Hj'). eauto.
  - intros n w0 r Hr. by apply Node_propagate_Ok in Hr as (? & _).
  - intros n w0 r i [HI1 HI2] Hr. apply Node_propagate_Ok in Hr as (_ & Hf & Hc & _).
    rewrite store_node_edges, store_node_cout. split; congruence.
  - done.
Qed.

(** A gate's propagate leaves the gate as it is. *)
Lemma ANDGate_propagate_this g w r :
  Node_propagate (Node_ANDGate g) w = Ok r -> r.1 = Node_ANDGate g.
Proof.
  intros H. apply dispatched_Ok in H as (k & w' & H & ->).
  unfold ANDGate_propagate in H. inv_bind H. by injection H as <- <-.
Qed.

Lemma ANDGate_process_value g w a b :
  NodeTerminal_get T_bool (ANDGate.m_inA g) (rData w) = Ok a ->
  NodeTerminal_get T_bool (ANDGate.m_inB g) (rData w) = Ok b ->
  Node_process (Node_ANDGate g) w =
    Ok (Node_ANDGate (ANDGate.set_m_outVal (m_value a && m_value b) g), w).
Proof.
  intros Ha Hb. unfold Node_process, ANDGate_process, dispatched. rewrite Ha.
  destruct a as [[|] ia oa]; simpl; [by rewrite Hb|done].
Qed.

(** ** References to terminals *)

Lemma Node_terminal_set_eq n f T t t' :
  Node_terminal n f = Some (T, t) ->
  Node_terminal (Node_set_terminal f t' n) f = Some (T, t').
Proof. destruct n, f; simpl; intros H; try discriminate; by injection H as <- <-. Qed.

Lemma Node_terminal_set_None n f t' :
  Node_terminal n f = None -> Node_set_terminal f t' n = n.
Proof. destruct n, f; simpl; intros H; try discriminate; done. Qed.

Lemma Node_terminal_set_ne n f f' t' :
  f <> f' -> Node_terminal (Node_set_terminal f t' n) f' = Node_terminal n f'.
Proof. destruct n, f, f'; simpl; intros H; done. Qed.

Lemma kind_of_set_terminal n f t' : kind_of (Node_set_terminal f t' n) = kind_of n.
Proof. destruct n, f; done. Qed.

Lemma deref_nodes T r d1 d2 :
  m_nodes d1 = m_nodes d2 -> deref T r d1 = deref T r d2.
Proof. unfold deref. by intros ->. Qed.

(** Reading a reference after a terminal member of slot [i] was assigned. *)
Lemma deref_alter T r ns es i f t' :
  deref T r (mkCircuitData es (alter (fmap (Node_set_terminal f t')) i ns)) =
  match deref T r (mkCircuitData es ns) with
  | Ok t => Ok (if decide (r = mkTermRef i f) then t' else t)
  | o => o
  end.
Proof.
  destruct r as [j g]. unfold deref. simpl. rewrite list_lookup_alter.
  destruct (decide (i = j)) as [->|Hne].
  - destruct (ns !! j) as [[n|]|]; simpl; [|done..].
    destruct (decide (f = g)) as [->|Hfg].
    + destruct (Node_terminal n g) as [[T' t]|] eqn:E.
      * rewrite (Node_terminal_set_eq _ _ _ _ t' E).
        destruct (data_t_eqb T' T); [|done]. by rewrite decide_True.
      * by rewrite (Node_terminal_set_None _ _ t' E), E.
    + rewrite (Node_terminal_set_ne _ _ _ _ Hfg).
      destruct (Node_terminal n g) as [[T' t]|]; [|done].
      destruct (data_t_eqb T' T); [|done]. rewrite decide_False; [done|congruence].
  - destruct (ns !! j) as [[n|]|]; [|done..].
    destruct (Node_terminal n g) as [[T' t]|]; [|done].
    destruct (data_t_eqb T' T); [|done]. rewrite decide_False; [done|congruence].
Qed.

Lemma node_kinds_alter ns es i f t' :
  node_kinds (mkCircuitData es (alter (fmap (Node_set_terminal f t')) i ns)) =
  node_kinds (mkCircuitData es ns).
Proof.
  unfold node_kinds. simpl. apply list_eq. intros j.
  rewrite !list_lookup_fmap, list_lookup_alter.
  destruct (decide (i = j)) as [->|]; [|done].
  destruct (ns !! j) as [[n|]|]; simpl; [|done..].
  by rewrite kind_of_set_terminal.
Qed.

Lemma alter_snoc {A} (f : A -> A) (l : list A) (x : A) :
  alter f (length l) (l ++ [x]) = l ++ [f x].
Proof. induction l as [|y l IH]; [done|]. cbn. f_equal. exact IH. Qed.

(** ** What connect does, whatever the terminals were attached to *)

Lemma connect_spec T a b d ta tb :
  deref T a d = Ok ta -> deref T b d = Ok tb ->
  exists d',
    connect T a b d = Ok d' /\
    m_edges d' = m_edges d ++
      [Some (set_wire_out (m_parentID tb)
               (set_wire_in (m_parentID ta) (make_shared_wire T)))] /\
    deref T a d' = Ok (set_m_id (to_uint32 (N.of_nat (length (m_edges d)))) ta) /\
    deref T b d' = Ok (set_m_id (to_uint32 (N.of_nat (length (m_edges d)))) tb) /\
    node_kinds d' = node_kinds d /\
    length (m_nodes d') = length (m_nodes d) /\
    (forall T' r, r <> a -> r <> b -> deref T' r d' = deref T' r d).
Proof.
  intros Ha Hb. destruct d as [es ns].
  unfold connect, assign_m_id, set_m_edges, set_m_nodes. simpl.
  set (id := to_uint32 (N.of_nat (length es))).
  set (es0 := es ++ [Some (make_shared_wire T)]).
  rewrite (deref_nodes T a (mkCircuitData es0 ns) (mkCircuitData es ns) eq_refl), Ha.
  simpl. rewrite deref_alter.
  rewrite (deref_nodes T b (mkCircuitData es0 ns) (mkCircuitData es ns) eq_refl), Hb.
  simpl.
  set (tb1 := if decide (b = mkTermRef (owner a) (member_of a)) then set_m_id id ta else tb).
  assert (Hpb : m_parentID tb1 = m_parentID tb).
  { unfold tb1. destruct (decide _) as [->|]; [|done].
    destruct a as [ia fa]. simpl in *. congruence. }
  assert (Hsb : set_m_id id tb1 = set_m_id id tb).
  { unfold set_m_id. by rewrite Hpb. }
  rewrite Hsb.
  set (ns2 := alter _ (owner b) (alter _ (owner a) ns)).
  assert (Ha2 : forall es', deref T a (mkCircuitData es' ns2) = Ok (set_m_id id ta)).
  { intros es'. unfold ns2. rewrite !deref_alter.
    rewrite (deref_nodes T a (mkCircuitData es' ns) (mkCircuitData es ns) eq_refl), Ha.
    f_equal. destruct (decide (a = mkTermRef (owner b) (member_of b))) as [Hab|_].
    - assert (a = b) as Heq by (by destruct b).
      rewrite Heq in Ha. congruence.
    - destruct (decide (a = mkTermRef (owner a) (member_of a))) as [_|Hn]; [done|].
      destruct Hn. by destruct a. }
  assert (Hb2 : forall es', deref T b (mkCircuitData es' ns2) = Ok (set_m_id id tb)).
  { intros es'. unfold ns2. rewrite !deref_alter.
    rewrite (deref_nodes T b (mkCircuitData es' ns) (mkCircuitData es ns) eq_refl), Hb.
    f_equal.
    destruct (decide (b = mkTermRef (owner b) (member_of b))) as [_|Hn]; [done|].
    destruct Hn. by destruct b. }
  rewrite Ha2. simpl. rewrite Hb2. simpl.
  eexists. split; [reflexivity|]. simpl.
  split.
  { unfold es0. by rewrite !alter_snoc. }
  split; [apply Ha2|]. split; [apply Hb2|]. split.
  { unfold ns2. by rewrite !node_kinds_alter. }
  split.
  { unfold ns2. by rewrite !length_alter. }
  intros T' r Hra Hrb. unfold ns2. rewrite !deref_alter.
  match goal with
  | |- context [deref T' r (mkCircuitData ?es' ns)] =>
      rewrite (deref_nodes T' r (mkCircuitData es' ns) (mkCircuitData es ns) eq_refl)
  end.
  destruct (deref T' r (mkCircuitData es ns)); [|done..].
  destruct a, b. simpl. by rewrite !decide_False by done.
Qed.

(** A connect that returns was given two references to terminals of the
    wire's value type. *)
Lemma connect_Ok T a b d d' :
  connect T a b d = Ok d' ->
  exists ta tb, deref T a d = Ok ta /\ deref T b d = Ok tb.
Proof.
  destruct d as [es ns].
  unfold connect, assign_m_id, set_m_edges, set_m_nodes. simpl. intros H.
  inv_bind H. inv_bind Hcall. rename a1 into ta. injection Hcall as <-.
  inv_bind H. inv_bind Hcall. simpl in Hcall1. rewrite deref_alter in Hcall1.
  set (es0 := es ++ [Some (make_shared_wire T)]) in *.
  rewrite (deref_nodes T b (mkCircuitData es0 ns) (mkCircuitData es ns) eq_refl) in Hcall1.
  rewrite (deref_nodes T a (mkCircuitData es0 ns) (mkCircuitData es ns) eq_refl) in Hcall0.
  destruct (deref T b (mkCircuitData es ns)) as [tb| |]; [|discriminate..].
  eauto.
Qed.

(** ** What the process phase writes to [cout] *)

Lemma line_of_edges d1 d2 slot :
  m_edges d1 = m_edges d2 -> line_of d1 slot = line_of d2 slot.
Proof.
  intros He. destruct slot as [[| | |p]|]; simpl; try done.
  by rewrite (NodeTerminal_get_edges _ _ _ _ He).
Qed.

Lemma Node_process_cout n w r :
  Node_process n w = Ok r -> cout r.2 = cout w ++ line_of (rData w) (Some n).
Proof.
  destruct n as [c|g|r0|p]; intros H;
    apply dispatched_Ok in H as (k & w' & H & ->); simpl.
  - injection H as <- <-. by rewrite app_nil_r.
  - unfold ANDGate_process in H. inv_bind H.
    destruct (m_value a); [inv_bind H|]; injection H as <- <-; by rewrite app_nil_r.
  - injection H as <- <-. by rewrite app_nil_r.
  - unfold Printer_process in H. inv_bind H. injection H as <- <-.
    by rewrite Hcall.
Qed.

Lemma process_from_cout (d : CircuitData) (m : nat) : forall (k : nat) (w w' : World),
  m_edges (rData w) = m_edges d ->
  (forall j, (k <= j)%nat -> m_nodes (rData w) !! j = m_nodes d !! j) ->
  for_each (visit Node_process) (seq k m) w = Ok w' ->
  cout w' = cout w ++ flat_map (line_of d) (take m (drop k (m_nodes d))).
Proof.
  induction m as [|m IH]; intros k w w' He Hn H; simpl in H.
  - injection H as <-. by rewrite take_0, app_nil_r.
  - inv_bind H. rename a into w1. unfold visit in Hcall.
    rewrite (Hn k) in Hcall by done.
    destruct (m_nodes d !! k) as [slot|] eqn:Ek.
    + rewrite (drop_S _ _ _ Ek). simpl.
      assert (Hstep : m_edges (rData w1) = m_edges d /\
                      (forall j, (S k <= j)%nat -> m_nodes (rData w1) !! j = m_nodes d !! j) /\
                      cout w1 = cout w ++ line_of d slot).
      { destruct slot as [n|].
        - inv_bind Hcall. rename a into r. injection Hcall as <-.
          pose proof (Node_process_Ok _ _ _ Hcall0) as [Hd _].
          pose proof (Node_process_cout _ _ _ Hcall0) as Hc.
          rewrite store_node_edges, store_node_nodes, store_node_cout, Hd.
          split; [done|]. split.
          + intros j Hj. rewrite list_lookup_insert_ne by lia. apply Hn. lia.
          + rewrite Hc. f_equal. by apply line_of_edges.
        - injection Hcall as <-. split; [done|]. split.
          + intros j Hj. apply Hn. lia.
          + simpl. by rewrite app_nil_r. }
      destruct Hstep as (He1 & Hn1 & Hc1).
      rewrite (IH (S k) w1 w' He1 Hn1 H), Hc1. by rewrite <- app_assoc.
    + injection Hcall as <-. apply lookup_ge_None_1 in Ek.
      rewrite drop_ge by done.
      rewrite (IH (S k) w w' He); [|intros j Hj; apply Hn; lia|done].
      rewrite drop_ge by lia. by rewrite !take_nil.
Qed.

Lemma process_all_cout w w' :
  process_all w = Ok w' -> cout w' = cout w ++ lines_of (rData w).
Proof.
  intros H. unfold process_all, all_slots in H.
  apply (process_from_cout (rData w)) in H; [|done..].
  rewrite H. unfold lines_of. by rewrite drop_0, firstn_all.
Qed.

(** * The claims *)

(** ** Phase ordering *)

(** C1. One tick is the process phase over the whole arena followed by the
    propagate phase over the whole arena.  The process phase writes no
    wire, so every node, whatever its slot and whatever it is connected to
    (itself included), is processed against the wires as they were before
    the tick: the node stored when the propagate phase begins is the one
    [process] computes from the pre-tick state, an AND gate ends the tick
    holding the conjunction of the pre-tick values of its input wires, and
    the lines the sinks wrote are the pre-tick values of their input
    wires. *)
Theorem tick_one_tick_delay (w w' : World) (Htick : tick w = Ok w') :
  exists w1,
    process_all w = Ok w1 /\ propagate_all w1 = Ok w' /\
    m_edges (rData w1) = m_edges (rData w) /\
    (forall j n, m_nodes (rData w) !! j = Some (Some n) ->
       exists r1 wk r2,
         Node_process n w = Ok r1 /\
         m_nodes (rData w1) !! j = Some (Some r1.1) /\
         Node_propagate r1.1 wk = Ok r2 /\
         m_nodes (rData w') !! j = Some (Some r2.1)) /\
    (forall j g a b,
       m_nodes (rData w) !! j = Some (Some (Node_ANDGate g)) ->
       NodeTerminal_get T_bool (ANDGate.m_inA g) (rData w) = Ok a ->
       NodeTerminal_get T_bool (ANDGate.m_inB g) (rData w) = Ok b ->
       m_nodes (rData w') !! j =
         Some (Some (Node_ANDGate (ANDGate.set_m_outVal (m_value a && m_value b) g)))) /\
    cout w' = cout w ++ lines_of (rData w).
Proof.
  unfold tick in Htick. inv_bind Htick. rename a into w1. exists w1.
  pose proof (process_all_spec _ _ Hcall) as (He & _ & _ & Hproc).
  pose proof (propagate_all_spec _ _ Htick) as (_ & Hc & _ & _ & Hprop).
  assert (Hboth : forall j n, m_nodes (rData w) !! j = Some (Some n) ->
    exists r1 wk r2, Node_process n w = Ok r1 /\
      m_nodes (rData w1) !! j = Some (Some r1.1) /\
      Node_propagate r1.1 wk = Ok r2 /\
      m_nodes (rData w') !! j = Some (Some r2.1)).
  { intros j n Hj. destruct (Hproc j n Hj) as (r1 & Hr1 & Hj1).
    destruct (Hprop j _ Hj1) as (wk & r2 & Hr2 & Hj2). by exists r1, wk, r2. }
  repeat split; try done.
  - intros j g a b Hj Ha Hb. destruct (Hboth j _ Hj) as (r1 & wk & r2 & Hr1 & _ & Hr2 & ->).
    rewrite (ANDGate_process_value g w a b Ha Hb) in Hr1. injection Hr1 as <-.
    simpl in Hr2. apply ANDGate_propagate_this in Hr2. by rewrite Hr2.
  - rewrite Hc. by apply process_all_cout.
Qed.

(** The gate fed back onto itself: it ends the tick with [true], the
    conjunction of the two wires before the tick, although the constant
    drives the second wire to [false] in this very tick. *)
Lemma tick_one_tick_delay_witness :
  exists w', tick feedback_world = Ok w' /\
    m_nodes (rData w') !! 1%nat =
      Some (Some (Node_ANDGate (ANDGate.set_m_outVal true feedback_gate))) /\
    m_edges (rData w') !! 2%nat = Some (Some (Wire_bool (mkWireNode false 2 1))).
Proof.
  destruct (tick feedback_world) as [w'| |] eqn:E; [|discriminate E..].
  exists w'. split; [reflexivity|].
  destruct (tick_one_tick_delay feedback_world w' E) as (_ & _ & _ & _ & _ & Hgate & _).
  split.
  - exact (Hgate 1%nat feedback_gate (mkWireNode true 1 1) (mkWireNode true 2 1)
             eq_refl eq_refl eq_refl).
  - vm_compute in E. injection E as <-. reflexivity.
Defined.

(** ** The process phase writes no wire *)

(** C7. Whatever the kind of the node and the state of the arena, a
    process call that returns leaves [m_edges] exactly as it was, and so
    does the process phase over all nodes. *)
Theorem process_writes_no_wire (n : Node) (w w1 : World) (r : Node * World) :
  (Node_process n w = Ok r -> m_edges (rData r.2) = m_edges (rData w)) /\
  (process_all w = Ok w1 -> m_edges (rData w1) = m_edges (rData w)).
Proof.
  split.
  - intros H. by apply Node_process_Ok in H as [-> _].
  - intros H. by apply process_all_spec in H as [-> _].
Qed.

Lemma process_writes_no_wire_witness :
  exists r w1,
    Node_process (Node_ANDGate feedback_gate) feedback_world = Ok r /\
    process_all feedback_world = Ok w1 /\
    m_edges (rData r.2) = m_edges (rData feedback_world) /\
    m_edges (rData w1) = m_edges (rData feedback_world).
Proof.
  destruct (Node_process (Node_ANDGate feedback_gate) feedback_world) as [r| |] eqn:E1;
    [|discriminate E1..].
  destruct (process_all feedback_world) as [w1| |] eqn:E2; [|discriminate E2..].
  exists r, w1. split; [reflexivity|]. split; [reflexivity|].
  destruct (process_writes_no_wire (Node_ANDGate feedback_gate) feedback_world w1 r)
    as [H1 H2].
  split; [exact (H1 E1) | exact (H2 E2)].
Defined.

(** ** The sequential memory *)

Lemma to_uint32_small n : n < 2 ^ 32 -> to_uint32 n = n.
Proof. intros H. unfold to_uint32. by apply N.mod_small. Qed.

(** The 32-bit increment followed by the remainder is the successor
    modulo the table length, for every table a 32-bit position can
    address. *)
Lemma ROM_next_pc (pc size : N) :
  size <= 2 ^ 32 -> pc < size ->
  to_uint32 (to_uint32 (pc + 1) mod size) = (pc + 1) mod size.
Proof.
  intros Hs Hp. assert (size <> 0) as Hne by lia.
  destruct (N.eq_dec (pc + 1) (2 ^ 32)) as [E|E].
  - assert (size = pc + 1) as -> by lia.
    rewrite E. by vm_compute.
  - rewrite (to_uint32_small (pc + 1)) by lia.
    apply to_uint32_small.
    pose proof (N.mod_upper_bound (pc + 1) size Hne). lia.
Qed.

Lemma ROM_propagate_spec (r : ROM.t) (w : World) (x : WireNode (cpp_type T_uint32)) :
  ROM.SIZE r <= 2 ^ 32 ->
  ROM.m_pc r < ROM.SIZE r ->
  NodeTerminal_get T_uint32 (ROM.m_output r) (rData w) = Ok x ->
  exists v w1,
    ROM.m_data r !! N.to_nat (ROM.m_pc r) = Some v /\
    ROM_propagate r w = Ok (ROM.set_m_pc ((ROM.m_pc r + 1) mod ROM.SIZE r) r, w1) /\
    NodeTerminal_get T_uint32 (ROM.m_output r) (rData w1)
      = Ok (mkWireNode v (m_in x) (m_out x)).
Proof.
  intros Hs Hp Hx. unfold ROM_propagate, array_index.
  destruct (ROM.m_data r !! N.to_nat (ROM.m_pc r)) as [v|] eqn:Ev.
  2:{ exfalso. apply lookup_ge_None_1 in Ev. unfold ROM.SIZE in Hp.
      change (@length (cpp_type T_uint32)) with (@length N) in Ev.
      change (@length uint32_t) with (@length N) in Hp. lia. }
  simpl.
  destruct (NodeTerminal_assign T_uint32 (ROM.m_output r) v (rData w)) as [d| |] eqn:Ed.
  - apply NodeTerminal_assign_get in Ed as (x' & Hx' & Hd).
    rewrite Hx in Hx'. injection Hx' as <-. simpl.
    destruct (N.eqb_spec (ROM.SIZE r) 0) as [E0|_]; [lia|].
    rewrite ROM_next_pc by done. exists v. eexists. split; [done|]. split; [reflexivity|].
    exact Hd.
  - unfold NodeTerminal_assign in Ed. rewrite Hx in Ed. discriminate.
  - unfold NodeTerminal_assign in Ed. rewrite Hx in Ed. discriminate.
Qed.

Lemma ROM_propagate_n_spec (k : nat) : forall (r : ROM.t) (w : World) x,
  ROM.SIZE r <= 2 ^ 32 ->
  ROM.m_pc r < ROM.SIZE r ->
  NodeTerminal_get T_uint32 (ROM.m_output r) (rData w) = Ok x ->
  exists wk xk,
    ROM_propagate_n k r w
      = Ok (ROM.set_m_pc ((ROM.m_pc r + N.of_nat k) mod ROM.SIZE r) r, wk) /\
    NodeTerminal_get T_uint32 (ROM.m_output r) (rData wk) = Ok xk.
Proof.
  induction k as [|k IH]; intros r w x Hs Hp Hx.
  - exists w, x. split; [|done]. simpl. rewrite N.add_0_r, N.mod_small by done.
    by destruct r.
  - destruct (ROM_propagate_spec r w x Hs Hp Hx) as (v & w1 & _ & Hr & Hx1).
    set (r1 := ROM.set_m_pc ((ROM.m_pc r + 1) mod ROM.SIZE r) r) in *.
    assert (ROM.SIZE r <> 0) as Hne by lia.
    destruct (IH r1 w1 (mkWireNode v (m_in x) (m_out x)) Hs) as (wk & xk & Hk & Hxk).
    + simpl. by apply N.mod_upper_bound.
    + exact Hx1.
    + exists wk, xk. split; [|exact Hxk]. simpl. rewrite Hr. simpl.
      rewrite Hk. unfold r1. simpl. f_equal. f_equal. unfold ROM.set_m_pc. simpl.
      f_equal. change (ROM.SIZE (ROM.mk (ROM.m_data r) _ (ROM.m_output r)))
        with (ROM.SIZE r).
      rewrite N.Div0.add_mod_idemp_l. f_equal. lia.
Qed.

(** C2. For a table of length N (at most 2^32 entries, what a 32-bit
    position can address), a position p < N and an output terminal that
    resolves to a wire: a propagate call writes the table value at p to
    the output wire and leaves the position at (p + 1) mod N; N calls in a
    row bring the ROM back to position p, and the call after them writes
    the first value again. *)
Theorem ROM_sequencing_wraparound (r : ROM.t) (w : World) (x : WireNode (cpp_type T_uint32))
    (Hsize : ROM.SIZE r <= 2 ^ 32)
    (Hpc : ROM.m_pc r < ROM.SIZE r)
    (Hout : NodeTerminal_get T_uint32 (ROM.m_output r) (rData w) = Ok x) :
  exists v,
    ROM.m_data r !! N.to_nat (ROM.m_pc r) = Some v /\
    (exists w1,
       ROM_propagate r w = Ok (ROM.set_m_pc ((ROM.m_pc r + 1) mod ROM.SIZE r) r, w1) /\
       NodeTerminal_get T_uint32 (ROM.m_output r) (rData w1)
         = Ok (mkWireNode v (m_in x) (m_out x))) /\
    (exists wN,
       ROM_propagate_n (length (ROM.m_data r)) r w = Ok (r, wN) /\
       exists r' w' x',
         ROM_propagate r wN = Ok (r', w') /\
         NodeTerminal_get T_uint32 (ROM.m_output r) (rData w') = Ok x' /\
         m_value x' = v).
Proof.
  destruct (ROM_propagate_spec r w x Hsize Hpc Hout) as (v & w1 & Hv & Hr & Hx1).
  exists v. split; [done|]. split; [by exists w1|].
  destruct (ROM_propagate_n_spec (length (ROM.m_data r)) r w x Hsize Hpc Hout)
    as (wN & xN & HN & HxN).
  exists wN. split.
  - rewrite HN. f_equal. f_equal. fold (ROM.SIZE r).
    rewrite <- (N.mul_1_l (ROM.SIZE r)) at 1. rewrite N.Div0.mod_add.
    rewrite N.mod_small by done. by destruct r.
  - destruct (ROM_propagate_spec r wN xN Hsize Hpc HxN) as (v' & w' & Hv' & Hr' & Hx').
    rewrite Hv in Hv'. injection Hv' as <-.
    eexists _, w', _. split; [exact Hr'|]. split; [exact Hx'|done].
Qed.

(** The ROM of [main]: sixteen calls from position 0. *)
Lemma ROM_sequencing_wraparound_witness :
  let rom := ROM.mk romData 0 (mkNodeTerminal 0 1) in
  exists wN,
    ROM_propagate_n 16 rom main_world = Ok (rom, wN) /\
    exists r' w' x',
      ROM_propagate rom wN = Ok (r', w') /\
      NodeTerminal_get T_uint32 (ROM.m_output rom) (rData w') = Ok x' /\
      m_value x' = 0.
Proof.
  intros rom.
  assert (Hsize : ROM.SIZE rom <= 2 ^ 32) by (vm_compute; discriminate).
  assert (Hpc : ROM.m_pc rom < ROM.SIZE rom) by reflexivity.
  destruct (ROM_sequencing_wraparound rom main_world (mkWireNode 0 0 0) Hsize Hpc eq_refl)
    as (v & Hv & _ & HN).
  injection Hv as <-. exact HN.
Defined.

(** ** The example program *)

Lemma main_setup_data : main_setup = Ok main_data.
Proof. reflexivity. Qed.

(** One tick of [main]: the sink writes the value on the wire, the ROM
    drives the table value at its position onto the wire and steps. *)
Lemma main_tick (pc v : N) (lines : list N) :
  pc < 16 ->
  tick (main_state pc v lines) = Ok (main_state ((pc + 1) mod 16) pc (lines ++ [v])).
Proof.
  intros Hpc.
  assert (Hcases : In pc [0; 1; 2; 3; 4; 5; 6; 7; 8; 9; 10; 11; 12; 13; 14; 15]).
  { assert (pc = N.of_nat (N.to_nat pc)) as -> by lia.
    assert (N.to_nat pc < 16)%nat as Hlt by lia.
    revert Hlt. generalize (N.to_nat pc). intros k Hk.
    do 16 (destruct k as [|k]; [simpl; tauto|]). lia. }
  simpl in Hcases.
  repeat (destruct Hcases as [<-|Hcases]; [reflexivity|]). destruct Hcases.
Qed.

Lemma main_after_tick (k : nat) : tick (main_after k) = Ok (main_after (S k)).
Proof.
  unfold main_after. rewrite main_tick by (apply N.mod_upper_bound; lia).
  f_equal. f_equal.
  - rewrite N.Div0.add_mod_idemp_l. f_equal. lia.
  - rewrite seq_S, fmap_app. done.
Qed.

Lemma main_run (n : nat) : forall k,
  run_ticks n (main_after k) = Ok (main_after (k + n)).
Proof.
  induction n as [|n IH]; intros k; simpl.
  - by rewrite Nat.add_0_r.
  - rewrite main_after_tick. simpl. rewrite IH. f_equal. f_equal. lia.
Qed.

Lemma main_ticks_lines (ticks : nat) :
  main_ticks ticks = Ok (main_after ticks).
Proof.
  unfold main_ticks. rewrite main_setup_data. simpl.
  apply (main_run ticks 0%nat).
Qed.

(** C3, as stated, fails.  The sink does not start with the table: after
    20 ticks its lines are not 0..15,0,1,2,3, and after 36 ticks they are
    not 0..15 twice followed by 0,1,2,3. *)
Lemma main_sink_sequence_counterexample :
  ~ sink_observes 20 [0; 1; 2; 3; 4; 5; 6; 7; 8; 9; 10; 11; 12; 13; 14; 15; 0; 1; 2; 3] /\
  ~ sink_observes 36
      [0; 1; 2; 3; 4; 5; 6; 7; 8; 9; 10; 11; 12; 13; 14; 15;
       0; 1; 2; 3; 4; 5; 6; 7; 8; 9; 10; 11; 12; 13; 14; 15; 0; 1; 2; 3].
Proof.
  split; intros (w & Hw & Hc); vm_compute in Hw; injection Hw as <-; discriminate Hc.
Qed.

(** C3, amended.  The sink's first line is the initial value 0 of the
    wire, and the table follows one tick late: 20 ticks give
    0,0,1,...,15,0,1,2 and 36 ticks give 0, then 0..15 twice, then 0,1,2.
    For any number of ticks, line [k] is 0 for [k = 0] and
    [(k - 1) mod 16] after that. *)
Theorem main_sink_sequence :
  sink_observes 20 [0; 0; 1; 2; 3; 4; 5; 6; 7; 8; 9; 10; 11; 12; 13; 14; 15; 0; 1; 2] /\
  sink_observes 36
    [0; 0; 1; 2; 3; 4; 5; 6; 7; 8; 9; 10; 11; 12; 13; 14; 15;
     0; 1; 2; 3; 4; 5; 6; 7; 8; 9; 10; 11; 12; 13; 14; 15; 0; 1; 2] /\
  forall ticks, sink_observes ticks (sink_line <$> seq 0 ticks).
Proof.
  assert (Hall : forall ticks, sink_observes ticks (sink_line <$> seq 0 ticks)).
  { intros ticks. exists (main_after ticks). split; [apply main_ticks_lines|done]. }
  split; [exact (Hall 20%nat)|]. split; [exact (Hall 36%nat)|exact Hall].
Qed.

(** ** Unconnected terminals *)

(** C4, as stated, fails.  The gate with an unconnected second input is
    evaluated without any error: [&&] never resolves the second input when
    the first is false, the gate computes false and drives it onto its
    output wire.  And where an unconnected terminal is resolved (a printer
    that was never connected, in the fresh arena), the outcome is not a
    raised error but the dereference of a null pointer. *)
Lemma dangling_terminal_counterexample :
  has_unconnected_terminal (Node_ANDGate half_wired_gate) /\
  (exists r1 r2,
     Node_process (Node_ANDGate half_wired_gate) half_wired_world = Ok r1 /\
     Node_propagate r1.1 r1.2 = Ok r2 /\
     m_edges (rData r2.2) !! 2%nat = Some (Some (Wire_bool (mkWireNode false 1 0)))) /\
  has_unconnected_terminal (Node_Printer (Printer.init T_uint32)) /\
  ~ raises (Node_process (Node_Printer (Printer.init T_uint32)) World_init) /\
  Node_process (Node_Printer (Printer.init T_uint32)) World_init = Undefined NullDeref.
Proof.
  split.
  { exists F_m_inB, T_bool, NodeTerminal_init. split; reflexivity. }
  split.
  { eexists _, _. split; [reflexivity|]. split; reflexivity. }
  split.
  { exists F_m_input, T_uint32, NodeTerminal_init. split; reflexivity. }
  split; [|reflexivity].
  intros [e He]. discriminate He.
Qed.

Lemma dispatched_Throw {K} (inj : K -> Node) (r : outcome (K * World)) e :
  dispatched inj r = Throw e -> r = Throw e.
Proof. destruct r as [[k w]| |]; simpl; intros H; [discriminate|congruence|discriminate]. Qed.

Lemma NodeTerminal_assign_Throw T t v d e :
  NodeTerminal_assign T t v d = Throw e ->
  (length (m_edges d) <= N.to_nat (m_id t))%nat.
Proof.
  unfold NodeTerminal_assign. intros H.
  apply bind_Throw in H as [H | (x & _ & H)]; [|discriminate].
  by apply NodeTerminal_get_Throw in H.
Qed.

Lemma NodeTerminal_get_null T t d :
  m_id t = nullEdge_t ->
  m_edges d !! 0%nat = Some None ->
  NodeTerminal_get T t d = Undefined NullDeref.
Proof.
  intros Hid H0. unfold NodeTerminal_get, at_. rewrite Hid.
  change (N.to_nat nullEdge_t) with 0%nat. by rewrite H0.
Qed.

(** C4, amended.  In an arena whose wire slot 0 is the reserved null
    element, resolving a terminal whose wire identity is null raises
    nothing: the lookup is in range and the null pointer it finds is
    dereferenced unchecked, for a read and for a write alike.  The phases
    that resolve no terminal always return.  The only error a phase can
    raise is [out_of_range], and only when a terminal of the node holds a
    wire identity that is not below the size of the wire collection. *)
Theorem unconnected_terminal_unchecked (n : Node) (w : World)
    (Hnull : m_edges (rData w) !! 0%nat = Some None) :
  (forall T t, m_id t = nullEdge_t ->
     NodeTerminal_get T t (rData w) = Undefined NullDeref /\
     forall v, NodeTerminal_assign T t v (rData w) = Undefined NullDeref) /\
  (forall c, Node_process (Node_Constant c) w = Ok (Node_Constant c, w)) /\
  (forall r, Node_process (Node_ROM r) w = Ok (Node_ROM r, w)) /\
  (forall p, Node_propagate (Node_Printer p) w = Ok (Node_Printer p, w)) /\
  (forall e, Node_process n w = Throw e \/ Node_propagate n w = Throw e ->
     e = out_of_range /\
     exists f T t, Node_terminal n f = Some (T, t) /\
       (length (m_edges (rData w)) <= N.to_nat (m_id t))%nat).
Proof.
  split.
  { intros T t Hid. pose proof (NodeTerminal_get_null T t _ Hid Hnull) as Hg.
    split; [done|]. intros v. unfold NodeTerminal_assign. by rewrite Hg. }
  split; [done|]. split; [done|]. split; [done|].
  intros e He. split; [by destruct e|].
  destruct He as [He|He]; destruct n as [c|g|r|p];
    apply dispatched_Throw in He; try discriminate He.
  - unfold ANDGate_process in He.
    apply bind_Throw in He as [He | (a & _ & He)].
    + apply NodeTerminal_get_Throw in He. by exists F_m_inA, T_bool, (ANDGate.m_inA g).
    + destruct (m_value a); [|discriminate].
      apply bind_Throw in He as [He | (b & _ & He)]; [|discriminate].
      apply NodeTerminal_get_Throw in He. by exists F_m_inB, T_bool, (ANDGate.m_inB g).
  - unfold Printer_process in He.
    apply bind_Throw in He as [He | (a & _ & He)]; [|discriminate].
    apply NodeTerminal_get_Throw in He.
    by exists F_m_input, (Printer.DATA_T p), (Printer.m_input p).
  - unfold Constant_propagate in He.
    apply bind_Throw in He as [He | (a & _ & He)]; [|discriminate].
    apply NodeTerminal_assign_Throw in He. by exists F_m_output, T_bool, (Constant.m_output c).
  - unfold ANDGate_propagate in He.
    apply bind_Throw in He as [He | (a & _ & He)]; [|discriminate].
    apply NodeTerminal_assign_Throw in He. by exists F_m_output, T_bool, (ANDGate.m_output g).
  - unfold ROM_propagate in He.
    apply bind_Throw in He as [He | (v & _ & He)].
    + unfold array_index in He. destruct (ROM.m_data r !! _); discriminate.
    + apply bind_Throw in He as [He | (d & _ & He)].
      * apply NodeTerminal_assign_Throw in He.
        by exists F_m_output, T_uint32, (ROM.m_output r).
      * destruct (ROM.SIZE r =? 0); discriminate.
Qed.

(** The never-connected printer in the fresh arena, and a printer whose
    terminal names wire 7 of an arena with one wire slot. *)
Lemma unconnected_terminal_unchecked_witness :
  NodeTerminal_get T_uint32 NodeTerminal_init (rData World_init) = Undefined NullDeref /\
  exists f T t,
    Node_terminal (Node_Printer (Printer.mk T_uint32 (mkNodeTerminal 0 7))) f = Some (T, t) /\
    (length (m_edges (rData World_init)) <= N.to_nat (m_id t))%nat.
Proof.
  destruct (unconnected_terminal_unchecked
              (Node_Printer (Printer.mk T_uint32 (mkNodeTerminal 0 7))) World_init eq_refl)
    as (Hget & _ & _ & _ & Hthrow).
  split.
  - exact (proj1 (Hget T_uint32 NodeTerminal_init eq_refl)).
  - exact (proj2 (Hthrow out_of_range (or_introl eq_refl))).
Defined.

(** ** Connect *)

Lemma deref_not_Throw T r d e : deref T r d <> Throw e.
Proof.
  unfold deref. destruct (m_nodes d !! owner r) as [[n|]|]; try discriminate.
  destruct (Node_terminal n (member_of r)) as [[T' t]|]; try discriminate.
  destruct (data_t_eqb T' T); discriminate.
Qed.

Lemma connect_not_Throw T a b d e : connect T a b d <> Throw e.
Proof.
  unfold connect, assign_m_id. intros H.
  repeat match type of H with
  | bind _ _ = Throw _ =>
      apply bind_Throw in H as [H | (? & _ & H)]
  end;
  try discriminate H; by apply deref_not_Throw in H.
Qed.

Lemma connected_wire_cast T p q :
  static_cast_wire T (set_wire_out q (set_wire_in p (make_shared_wire T)))
  = Ok (mkWireNode (value_init T) p q).
Proof. by destruct T. Qed.

(** C5, as stated, fails.  In the arena of [main] both terminals are
    attached to wire 1; connecting them again raises nothing, allocates
    wire 2 and rebinds both terminals to it, leaving wire 1 behind. *)
Lemma connect_rebinds_counterexample :
  let a := mkTermRef 2 F_m_output in
  let b := mkTermRef 1 F_m_input in
  deref T_uint32 a main_data = Ok (mkNodeTerminal 0 1) /\
  deref T_uint32 b main_data = Ok (mkNodeTerminal 0 1) /\
  ~ raises (connect T_uint32 a b main_data) /\
  exists d',
    connect T_uint32 a b main_data = Ok d' /\
    deref T_uint32 a d' = Ok (mkNodeTerminal 0 2) /\
    deref T_uint32 b d' = Ok (mkNodeTerminal 0 2) /\
    m_edges d' = [None; Some (Wire_uint32 (mkWireNode 0 0 0));
                  Some (Wire_uint32 (mkWireNode 0 0 0))].
Proof.
  intros a b. split; [reflexivity|]. split; [reflexivity|]. split.
  - intros [e He]. discriminate He.
  - eexists. split; [reflexivity|]. split; [reflexivity|]. split; reflexivity.
Qed.

(** C5, amended.  Connect has no precondition on the terminals'
    attachment and never raises an error: given two references to
    terminals of the wire's value type, whatever wire identities they
    hold, it returns, appends one wire after the existing ones (which all
    stay) and overwrites both terminals' wire identity with the new one;
    the terminals' owner identities are kept. *)
Theorem connect_rebinds (T : data_t) (a b : TermRef) (d : CircuitData) (ta tb : NodeTerminal)
    (Ha : deref T a d = Ok ta) (Hb : deref T b d = Ok tb) :
  (forall e, connect T a b d <> Throw e) /\
  exists d' c,
    connect T a b d = Ok d' /\
    m_edges d' = m_edges d ++ [Some c] /\
    deref T a d' = Ok (set_m_id (to_uint32 (N.of_nat (length (m_edges d)))) ta) /\
    deref T b d' = Ok (set_m_id (to_uint32 (N.of_nat (length (m_edges d)))) tb).
Proof.
  split; [intros e; apply connect_not_Throw|].
  destruct (connect_spec T a b d ta tb Ha Hb) as (d' & Hc & He & Ha' & Hb' & _).
  exists d'. eexists. split; [done|]. split; [exact He|]. done.
Qed.

Lemma connect_rebinds_witness :
  exists d' c,
    connect T_uint32 (mkTermRef 2 F_m_output) (mkTermRef 1 F_m_input) main_data = Ok d' /\
    m_edges d' = m_edges main_data ++ [Some c] /\
    deref T_uint32 (mkTermRef 2 F_m_output) d' = Ok (mkNodeTerminal 0 2) /\
    deref T_uint32 (mkTermRef 1 F_m_input) d' = Ok (mkNodeTerminal 0 2).
Proof.
  exact (proj2 (connect_rebinds T_uint32 (mkTermRef 2 F_m_output) (mkTermRef 1 F_m_input)
                  main_data (mkNodeTerminal 0 1) (mkNodeTerminal 0 1) eq_refl eq_refl)).
Defined.

(** What connect does establish for two unattached terminals of one
    value type, in an arena whose wire count fits the 32-bit identity (the
    part of C6 the code keeps): connect returns; the wire
    collection grows by exactly one wire, of that value type, found at the
    identity equal to the old wire count; both terminals hold that
    identity afterwards and resolve to that one wire; and the wire's
    producer and consumer are the owner identities the two terminals
    hold ([m_parentID]). *)
Theorem connect_joins_terminals (T : data_t) (a b : TermRef) (d : CircuitData)
    (ta tb : NodeTerminal)
    (Hfit : N.of_nat (length (m_edges d)) < 2 ^ 32)
    (Ha : deref T a d = Ok ta) (Hb : deref T b d = Ok tb)
    (Hua : m_id ta = nullEdge_t) (Hub : m_id tb = nullEdge_t) :
  exists d' c ta' tb',
    connect T a b d = Ok d' /\
    m_edges d' = m_edges d ++ [Some c] /\
    value_type c = T /\
    at_ (m_edges d') (N.of_nat (length (m_edges d))) = Ok (Some c) /\
    deref T a d' = Ok ta' /\ deref T b d' = Ok tb' /\
    m_id ta' = N.of_nat (length (m_edges d)) /\
    m_id tb' = N.of_nat (length (m_edges d)) /\
    m_parentID ta' = m_parentID ta /\ m_parentID tb' = m_parentID tb /\
    (exists x, NodeTerminal_get T ta' d' = Ok x /\ NodeTerminal_get T tb' d' = Ok x /\
               upcast_wire T x = c) /\
    wire_in c = m_parentID ta /\ wire_out c = m_parentID tb.
Proof.
  destruct (connect_spec T a b d ta tb Ha Hb) as (d' & Hc & He & Ha' & Hb' & _).
  rewrite (to_uint32_small _ Hfit) in Ha', Hb'.
  set (c := set_wire_out (m_parentID tb) (set_wire_in (m_parentID ta) (make_shared_wire T))) in *.
  assert (Hat : m_edges d' !! N.to_nat (N.of_nat (length (m_edges d))) = Some (Some c)).
  { rewrite Nat2N.id, He. by apply list_lookup_middle. }
  assert (Hx : static_cast_wire T c
               = Ok (mkWireNode (value_init T) (m_parentID ta) (m_parentID tb))).
  { apply connected_wire_cast. }
  exists d', c, (set_m_id (N.of_nat (length (m_edges d))) ta),
    (set_m_id (N.of_nat (length (m_edges d))) tb).
  split; [done|]. split; [done|]. split; [by destruct T|].
  split; [by apply at_Ok|].
  split; [done|]. split; [done|]. split; [done|]. split; [done|].
  split; [done|]. split; [done|]. split.
  - exists (mkWireNode (value_init T) (m_parentID ta) (m_parentID tb)).
    apply static_cast_wire_Ok in Hx.
    split; [|split]; [apply NodeTerminal_get_Ok; simpl; by rewrite Hat, Hx..|by rewrite Hx].
  - by destruct T.
Qed.

(** The connect of [main]: the ROM's output and the printer's input, both
    unattached, in the arena holding the two nodes. *)
Lemma connect_joins_terminals_witness :
  exists d' c ta' tb',
    connect T_uint32 (mkTermRef 2 F_m_output) (mkTermRef 1 F_m_input) main_nodes = Ok d' /\
    m_edges d' = [None; Some c] /\
    value_type c = T_uint32 /\
    deref T_uint32 (mkTermRef 2 F_m_output) d' = Ok ta' /\
    deref T_uint32 (mkTermRef 1 F_m_input) d' = Ok tb' /\
    m_id ta' = 1 /\ m_id tb' = 1.
Proof.
  assert (Hfit : N.of_nat (length (m_edges main_nodes)) < 2 ^ 32) by reflexivity.
  destruct (connect_joins_terminals T_uint32 (mkTermRef 2 F_m_output) (mkTermRef 1 F_m_input)
              main_nodes NodeTerminal_init NodeTerminal_init Hfit
              eq_refl eq_refl eq_refl eq_refl)
    as (d' & c & ta' & tb' & H1 & H2 & H3 & _ & H5 & H6 & H7 & H8 & _).
  exists d', c, ta', tb'. repeat split; assumption.
Defined.

(** ** The arena only grows *)

Lemma node_kinds_lookup d j :
  node_kinds d !! j = fmap (M:=option) (fmap (M:=option) kind_of) (m_nodes d !! j).
Proof. unfold node_kinds. by rewrite list_lookup_fmap. Qed.

Lemma node_kinds_length d : length (node_kinds d) = length (m_nodes d).
Proof. unfold node_kinds. by rewrite length_fmap. Qed.

(** A phase leaves every slot with a node of the same dynamic type. *)
Lemma node_kinds_phase d d' :
  length (m_nodes d') = length (m_nodes d) ->
  (forall j, m_nodes d !! j = Some None -> m_nodes d' !! j = Some None) ->
  (forall j n, m_nodes d !! j = Some (Some n) ->
     exists n', m_nodes d' !! j = Some (Some n') /\ kind_of n' = kind_of n) ->
  node_kinds d' = node_kinds d.
Proof.
  intros Hlen Hnull Hsome. apply list_eq. intros j. rewrite !node_kinds_lookup.
  destruct (m_nodes d !! j) as [[n|]|] eqn:E.
  - destruct (Hsome j n E) as (n' & -> & Hk). simpl. by rewrite Hk.
  - by rewrite (Hnull j E).
  - apply lookup_ge_None_1 in E. rewrite <- Hlen in E.
    by rewrite (lookup_ge_None_2 _ _ E).
Qed.

Lemma process_all_kinds w w' :
  process_all w = Ok w' -> node_kinds (rData w') = node_kinds (rData w).
Proof.
  intros H. apply process_all_spec in H as (_ & Hlen & Hnull & Hin).
  apply node_kinds_phase; [done..|].
  intros j n Hj. destruct (Hin j n Hj) as (r & Hr & Hj').
  exists r.1. split; [done|]. by apply Node_process_Ok in Hr as [_ ?].
Qed.

Lemma propagate_all_kinds w w' :
  propagate_all w = Ok w' -> node_kinds (rData w') = node_kinds (rData w).
Proof.
  intros H. apply propagate_all_spec in H as (_ & _ & Hlen & Hnull & Hin).
  apply node_kinds_phase; [done..|].
  intros j n Hj. destruct (Hin j n Hj) as (wj & r & Hr & Hj').
  exists r.1. split; [done|]. by apply Node_propagate_Ok in Hr as (_ & _ & _ & ?).
Qed.

Lemma jmp_at_Ok slot addr d d' :
  jmp_at slot addr d = Ok d' ->
  m_edges d' = m_edges d /\ node_kinds d' = node_kinds d.
Proof.
  unfold jmp_at. destruct (m_nodes d !! slot) as [[[c|g|r|p]|]|] eqn:E; try discriminate.
  intros H. injection H as <-. split; [done|].
  unfold node_kinds. simpl. rewrite list_fmap_insert. apply list_insert_id.
  by rewrite list_lookup_fmap, E.
Qed.

Lemma connect_grows T a b d d' :
  connect T a b d = Ok d' ->
  node_kinds d' = node_kinds d /\
  exists c, m_edges d' = m_edges d ++ [Some c] /\
            static_cast_wire T c
              = Ok (mkWireNode (value_init T) (wire_in c) (wire_out c)).
Proof.
  intros H. destruct (connect_Ok _ _ _ _ _ H) as (ta & tb & Ha & Hb).
  destruct (connect_spec T a b d ta tb Ha Hb) as (d'' & Hc & He & _ & _ & Hk & _).
  rewrite H in Hc. injection Hc as <-. split; [done|].
  eexists. split; [exact He|]. by destruct T.
Qed.

(** Each operation keeps every node slot (with its dynamic type) and every
    wire slot (with its value type and endpoints) in place, and may only
    append. *)
Lemma step_grows o w w' :
  step o w = Ok w' ->
  node_kinds (rData w) `prefix_of` node_kinds (rData w') /\
  wire_frames (m_edges (rData w)) `prefix_of` wire_frames (m_edges (rData w')).
Proof.
  destruct o as [node|T a b|slot addr| |]; simpl; intros H.
  - injection H as <-. simpl. split; [|done].
    unfold node_kinds. simpl. rewrite fmap_app. by eexists.
  - inv_bind H. injection H as <-. simpl.
    apply connect_grows in Hcall as (-> & c & -> & _). split; [done|].
    unfold wire_frames. rewrite fmap_app. by eexists.
  - inv_bind H. injection H as <-. simpl.
    apply jmp_at_Ok in Hcall as (-> & ->). done.
  - rewrite (process_all_kinds _ _ H).
    apply process_all_spec in H as (-> & _). done.
  - rewrite (propagate_all_kinds _ _ H).
    apply propagate_all_spec in H as (-> & _). done.
Qed.

Lemma run_grows ops : forall w w',
  run ops w = Ok w' ->
  node_kinds (rData w) `prefix_of` node_kinds (rData w') /\
  wire_frames (m_edges (rData w)) `prefix_of` wire_frames (m_edges (rData w')).
Proof.
  induction ops as [|o ops IH]; intros w w' H; simpl in H.
  - injection H as <-. done.
  - inv_bind H. apply step_grows in Hcall as [Hn He].
    apply IH in H as [Hn' He']. split; etrans; done.
Qed.

(** Operations other than the propagate phase leave every existing wire
    as it is, value included. *)
Lemma step_keeps_wires o w w' :
  writes_wires o = false ->
  step o w = Ok w' ->
  m_edges (rData w) `prefix_of` m_edges (rData w').
Proof.
  destruct o as [node|T a b|slot addr| |]; simpl; intros Hw H; try discriminate Hw.
  - injection H as <-. done.
  - inv_bind H. injection H as <-. simpl.
    apply connect_grows in Hcall as (_ & c & -> & _). by eexists.
  - inv_bind H. injection H as <-. simpl.
    apply jmp_at_Ok in Hcall as (-> & _). done.
  - apply process_all_spec in H as (-> & _). done.
Qed.

Lemma run_keeps_wires ops : forall w w',
  forallb (fun o => negb (writes_wires o)) ops = true ->
  run ops w = Ok w' ->
  m_edges (rData w) `prefix_of` m_edges (rData w').
Proof.
  induction ops as [|o ops IH]; intros w w' Hops H; simpl in *.
  - injection H as <-. done.
  - apply andb_prop in Hops as [Ho Hops]. apply negb_true_iff in Ho.
    inv_bind H. etrans; [by eapply step_keeps_wires|by apply IH].
Qed.

Lemma prefix_of_fmap_lookup {A B} (f : A -> B) (l1 l2 : list A) i x :
  f <$> l1 `prefix_of` f <$> l2 ->
  l1 !! i = Some x ->
  exists y, l2 !! i = Some y /\ f y = f x.
Proof.
  intros Hp Hx.
  assert (Hf : (f <$> l2) !! i = Some (f x)).
  { eapply prefix_lookup_Some; [|exact Hp]. by rewrite list_lookup_fmap, Hx. }
  rewrite list_lookup_fmap in Hf.
  destruct (l2 !! i) as [y|]; [|discriminate]. injection Hf as Hf. eauto.
Qed.

(** C8. Let [w] be any state reached from the fresh arena and [w'] any
    state reached from [w], by allocations, connects, jumps and phases.
    Slot 0 of both collections of [w] is the null element.  The slots of
    [w] are a prefix of those of [w']: nothing is removed or reordered, the
    counts do not decrease, and every identity that names an element in
    [w] names in [w'] an element of the same dynamic type (for a wire: of
    the same value type and endpoints).  While the count fits the 32-bit
    identity, an allocation returns the count as identity, which is at
    least 1, appends the element there and leaves the rest alone. *)
Theorem arena_append_only (ops1 ops2 : list op) (w w' : World)
    (Hreach : run ops1 World_init = Ok w) (Hlater : run ops2 w = Ok w') :
  m_nodes (rData w) !! 0%nat = Some None /\
  m_edges (rData w) !! 0%nat = Some None /\
  node_kinds (rData w) `prefix_of` node_kinds (rData w') /\
  wire_frames (m_edges (rData w)) `prefix_of` wire_frames (m_edges (rData w')) /\
  (length (m_nodes (rData w)) <= length (m_nodes (rData w')))%nat /\
  (length (m_edges (rData w)) <= length (m_edges (rData w')))%nat /\
  (forall id n, at_ (m_nodes (rData w)) id = Ok (Some n) ->
     exists n', at_ (m_nodes (rData w')) id = Ok (Some n') /\ kind_of n' = kind_of n) /\
  (forall id c, at_ (m_edges (rData w)) id = Ok (Some c) ->
     exists c', at_ (m_edges (rData w')) id = Ok (Some c') /\ wire_frame c' = wire_frame c) /\
  (forall node, N.of_nat (length (m_nodes (rData w))) < 2 ^ 32 ->
     (add node (rData w)).1 = N.of_nat (length (m_nodes (rData w))) /\
     1 <= (add node (rData w)).1 /\
     m_nodes (add node (rData w)).2 = m_nodes (rData w) ++ [Some node] /\
     m_edges (add node (rData w)).2 = m_edges (rData w) /\
     at_ (m_nodes (add node (rData w)).2) (add node (rData w)).1 = Ok (Some node)) /\
  (forall T a b d', N.of_nat (length (m_edges (rData w))) < 2 ^ 32 ->
     connect T a b (rData w) = Ok d' ->
     1 <= N.of_nat (length (m_edges (rData w))) /\
     m_nodes d' !! 0%nat = Some None /\
     length (m_nodes d') = length (m_nodes (rData w)) /\
     exists c, m_edges d' = m_edges (rData w) ++ [Some c] /\
               at_ (m_edges d') (N.of_nat (length (m_edges (rData w)))) = Ok (Some c)).
Proof.
  pose proof (run_grows _ _ _ Hreach) as [Hn0 He0].
  pose proof (run_grows _ _ _ Hlater) as [Hn He].
  assert (Hnull_n : m_nodes (rData w) !! 0%nat = Some None).
  { destruct (prefix_of_fmap_lookup (fmap (M:=option) kind_of) _ _ 0%nat None Hn0 eq_refl)
      as ([n|] & Hy & Hf); [simpl in Hf; discriminate Hf|done]. }
  assert (Hnull_e : m_edges (rData w) !! 0%nat = Some None).
  { destruct (prefix_of_fmap_lookup (fmap (M:=option) wire_frame) _ _ 0%nat None He0 eq_refl)
      as ([n|] & Hy & Hf); [simpl in Hf; discriminate Hf|done]. }
  split; [done|]. split; [done|]. split; [done|]. split; [done|].
  split. { apply prefix_length in Hn. by rewrite !node_kinds_length in Hn. }
  split. { apply prefix_length in He. by rewrite !wire_frames_length in He. }
  split.
  { intros id n Hid. apply at_Ok in Hid.
    destruct (prefix_of_fmap_lookup _ _ _ _ _ Hn Hid) as ([n'|] & Hy & Hf); [|discriminate].
    exists n'. split; [by apply at_Ok|]. by injection Hf. }
  split.
  { intros id c Hid. apply at_Ok in Hid.
    destruct (prefix_of_fmap_lookup _ _ _ _ _ He Hid) as ([c'|] & Hy & Hf); [|discriminate].
    exists c'. split; [by apply at_Ok|]. simpl in Hf. congruence. }
  split.
  { intros node Hfit. unfold add. simpl. rewrite (to_uint32_small _ Hfit).
    split; [done|]. split.
    - apply lookup_lt_Some in Hnull_n. lia.
    - split; [done|]. split; [done|]. apply at_Ok. rewrite Nat2N.id.
      by apply list_lookup_middle. }
  intros T a b d' Hfit Hc. split.
  { apply lookup_lt_Some in Hnull_e. lia. }
  destruct (connect_Ok _ _ _ _ _ Hc) as (ta & tb & Ha & Hb).
  destruct (connect_spec T a b _ ta tb Ha Hb) as (d'' & Hc' & He' & _ & _ & Hk & Hlen & _).
  rewrite Hc in Hc'. injection Hc' as <-.
  split.
  { assert (Hk0 : node_kinds d' !! 0%nat = Some None).
    { by rewrite Hk, node_kinds_lookup, Hnull_n. }
    rewrite node_kinds_lookup in Hk0.
    destruct (m_nodes d' !! 0%nat) as [[n|]|]; done. }
  split; [done|].
  eexists. split; [exact He'|]. apply at_Ok. rewrite Nat2N.id, He'.
  by apply list_lookup_middle.
Qed.

(** The program of [main]: the state after the two allocations and the
    connect, and the state 36 ticks later. *)
Lemma arena_append_only_witness :
  let ops1 := [Op_add (Node_Printer (Printer.init T_uint32));
               Op_add (Node_ROM (ROM.init romData));
               Op_connect T_uint32 (mkTermRef 2 F_m_output) (mkTermRef 1 F_m_input)] in
  let ops2 := concat (replicate 36 [Op_process_all; Op_propagate_all]) in
  run ops1 World_init = Ok main_world /\
  run ops2 main_world = Ok (main_after 36) /\
  (length (m_nodes (rData main_world)) <= length (m_nodes (rData (main_after 36))))%nat /\
  (add (Node_Constant Constant.init) (rData main_world)).1 = 3.
Proof.
  intros ops1 ops2.
  assert (H1 : run ops1 World_init = Ok main_world) by reflexivity.
  assert (H2 : run ops2 main_world = Ok (main_after 36)) by (vm_compute; reflexivity).
  split; [exact H1|]. split; [exact H2|].
  destruct (arena_append_only ops1 ops2 main_world (main_after 36) H1 H2)
    as (_ & _ & _ & _ & Hlen & _ & _ & _ & Hadd & _).
  split; [exact Hlen|].
  exact (proj1 (Hadd (Node_Constant Constant.init) eq_refl)).
Defined.

(** ** Lookups *)

(** C9, as stated, fails.  In the arena of [main], identity 1 names the
    printer, yet [get<ROM<16>>(1)] returns a ROM pointer to it; and the
    null identity 0, which names no allocated element, is not rejected:
    [get] returns a null pointer, and resolving a terminal that holds it
    raises nothing. *)
Lemma lookup_unchecked_counterexample :
  (exists p, get (K_ROM 16) 1 main_data = Ok p /\
             target p = Some 1%nat /\ ~ well_typed_ptr p main_data) /\
  get (K_ROM 16) 0 main_data = Ok (mk_shared_ptr (K_ROM 16) None) /\
  ~ raises (get (K_ROM 16) 0 main_data) /\
  ~ raises (NodeTerminal_get T_uint32 (mkNodeTerminal 0 0) main_data).
Proof.
  split.
  { eexists. split; [reflexivity|]. split; [reflexivity|].
    unfold well_typed_ptr. simpl. discriminate. }
  split; [reflexivity|].
  split; intros [e He]; discriminate He.
Qed.

Lemma get_Ok_slot K id d n :
  at_ (m_nodes d) id = Ok (Some n) ->
  get K id d = Ok (mk_shared_ptr K (Some (N.to_nat id))).
Proof. unfold get. by intros ->. Qed.

(** C9, amended.  The one check of a lookup is the bounds check of
    [std::vector::at]: an identity not below the size of the collection
    makes [get] and terminal resolution throw [out_of_range]; every
    identity below the size is accepted, the null identity included.  The
    element found is cast to the type the caller names without a check:
    the pointer [get] returns has the named type whatever the element is,
    so it is well typed exactly when the named type is the element's own,
    and a wire resolved at the other value type is undefined behaviour. *)
Theorem lookup_bounds_checked_only (d : CircuitData) :
  (forall K id, N.of_nat (length (m_nodes d)) <= id -> get K id d = Throw out_of_range) /\
  (forall T t, N.of_nat (length (m_edges d)) <= m_id t ->
     NodeTerminal_get T t d = Throw out_of_range) /\
  (forall K id, id < N.of_nat (length (m_nodes d)) ->
     exists p, get K id d = Ok p /\ element_type p = K) /\
  (forall K id n, at_ (m_nodes d) id = Ok (Some n) ->
     exists p, get K id d = Ok p /\ target p = Some (N.to_nat id) /\
               (well_typed_ptr p d <-> K = kind_of n)) /\
  (forall T t c, at_ (m_edges d) (m_id t) = Ok (Some c) ->
     (value_type c = T ->
        exists x, NodeTerminal_get T t d = Ok x /\ upcast_wire T x = c) /\
     (value_type c <> T -> NodeTerminal_get T t d = Undefined BadCast)).
Proof.
  split.
  { intros K id Hid. unfold get.
    assert (Hat : at_ (m_nodes d) id = Throw out_of_range) by (apply at_Throw; lia).
    by rewrite Hat. }
  split.
  { intros T t Hid. apply NodeTerminal_get_Throw. lia. }
  split.
  { intros K id Hid. unfold get, at_.
    destruct (m_nodes d !! N.to_nat id) as [[n|]|] eqn:E.
    - by eexists.
    - by eexists.
    - apply lookup_ge_None_1 in E. lia. }
  split.
  { intros K id n Hat. rewrite (get_Ok_slot K id d n Hat). eexists.
    split; [reflexivity|]. split; [reflexivity|].
    apply at_Ok in Hat. unfold well_typed_ptr. simpl. rewrite Hat. split; congruence. }
  intros T t c Hat. unfold NodeTerminal_get. rewrite Hat. simpl. split.
  - intros <-. destruct c as [x|x]; exists x; done.
  - intros Hne. by apply static_cast_wire_type.
Qed.

(** Identity 3 in the arena of [main], which has three node slots; and
    identity 2, the ROM, asked for as a ROM and as a printer. *)
Lemma lookup_bounds_checked_only_witness :
  get (K_Printer T_uint32) 3 main_data = Throw out_of_range /\
  (exists p, get (K_ROM 16) 2 main_data = Ok p /\ well_typed_ptr p main_data) /\
  (exists p, get (K_Printer T_uint32) 2 main_data = Ok p /\ ~ well_typed_ptr p main_data).
Proof.
  destruct (lookup_bounds_checked_only main_data) as (Hout & _ & _ & Hcast & _).
  split.
  - apply Hout. vm_compute. discriminate.
  - split.
    + destruct (Hcast (K_ROM 16) 2 (Node_ROM (ROM.mk romData 0 (mkNodeTerminal 0 1))) eq_refl)
        as (p & Hp & _ & Hwt).
      exists p. split; [exact Hp|]. apply Hwt. reflexivity.
    + destruct (Hcast (K_Printer T_uint32) 2
                  (Node_ROM (ROM.mk romData 0 (mkNodeTerminal 0 1))) eq_refl)
        as (p & Hp & _ & Hwt).
      exists p. split; [exact Hp|]. intros H. apply Hwt in H. discriminate H.
Defined.

(** ** The initial value of a wire *)

(** C10. The wire a connect creates (in an arena whose wire count fits
    the 32-bit identity) holds the value-initialised value of its type:
    false for [bool], 0 for [uint32_t].  It keeps that value through any
    further allocations, connects, jumps and process phases, that is,
    until a propagate phase runs.  In the process phase of the first tick,
    every node is processed against wires among which this one still
    holds the initial value: any terminal attached to it resolves to that
    value, and a printer attached to it writes that value. *)
Theorem wire_initial_value (T : data_t) (a b : TermRef) (d d' : CircuitData)
    (lines : list N) (ops : list op) (w w' : World)
    (Hfit : N.of_nat (length (m_edges d)) < 2 ^ 32)
    (Hconnect : connect T a b d = Ok d')
    (Hops : forallb (fun o => negb (writes_wires o)) ops = true)
    (Hrun : run ops (mkWorld d' lines) = Ok w)
    (Htick : process_all w = Ok w') :
  value_init T_bool = false /\ value_init T_uint32 = 0 /\
  (exists ta tb, deref T a d' = Ok ta /\ deref T b d' = Ok tb /\
     m_id ta = N.of_nat (length (m_edges d)) /\ m_id tb = N.of_nat (length (m_edges d))) /\
  (forall t, m_id t = N.of_nat (length (m_edges d)) ->
     (exists x, NodeTerminal_get T t d' = Ok x /\ m_value x = value_init T) /\
     (exists x, NodeTerminal_get T t (rData w) = Ok x /\ m_value x = value_init T) /\
     (exists x, NodeTerminal_get T t (rData w') = Ok x /\ m_value x = value_init T)) /\
  (forall j n, m_nodes (rData w) !! j = Some (Some n) ->
     exists r, Node_process n w = Ok r /\ m_nodes (rData w') !! j = Some (Some r.1)) /\
  (forall p, Printer.DATA_T p = T ->
     m_id (Printer.m_input p) = N.of_nat (length (m_edges d)) ->
     line_of (rData w) (Some (Node_Printer p)) = [shown T (value_init T)]) /\
  cout w' = cout w ++ lines_of (rData w).
Proof.
  split; [done|]. split; [done|].
  destruct (connect_Ok _ _ _ _ _ Hconnect) as (ta & tb & Ha & Hb).
  destruct (connect_spec T a b d ta tb Ha Hb) as (d'' & Hc & He & Ha' & Hb' & _).
  rewrite Hconnect in Hc. injection Hc as <-.
  rewrite (to_uint32_small _ Hfit) in Ha', Hb'.
  set (c := set_wire_out (m_parentID tb) (set_wire_in (m_parentID ta) (make_shared_wire T))) in *.
  pose proof (connected_wire_cast T (m_parentID ta) (m_parentID tb)) as Hcast. fold c in Hcast.
  apply static_cast_wire_Ok in Hcast.
  assert (H0 : m_edges d' !! length (m_edges d) = Some (Some c)).
  { rewrite He. by apply list_lookup_middle. }
  pose proof (run_keeps_wires _ _ _ Hops Hrun) as Hpre. simpl in Hpre.
  assert (H1 : m_edges (rData w) !! length (m_edges d) = Some (Some c)).
  { eapply prefix_lookup_Some; [exact H0|exact Hpre]. }
  pose proof (process_all_spec _ _ Htick) as (Hsame & _ & _ & Hproc).
  assert (Hget : forall t d0, m_id t = N.of_nat (length (m_edges d)) ->
            m_edges d0 !! length (m_edges d) = Some (Some c) ->
            exists x, NodeTerminal_get T t d0 = Ok x /\ m_value x = value_init T).
  { intros t d0 Hid Hd0. eexists. split.
    - apply NodeTerminal_get_Ok. rewrite Hid, Nat2N.id, Hd0, Hcast. reflexivity.
    - reflexivity. }
  split.
  { eexists _, _. split; [exact Ha'|]. split; [exact Hb'|]. done. }
  split.
  { intros t Hid. split; [by apply Hget|]. split; [by apply Hget|].
    apply Hget; [done|]. by rewrite Hsame. }
  split; [exact Hproc|].
  split.
  { intros p HT Hid. simpl. destruct (Hget (Printer.m_input p) (rData w) Hid H1) as (x & Hx & Hv).
    rewrite HT, Hx, Hv. reflexivity. }
  by apply process_all_cout.
Qed.

(** The connect of [main] and the process phase of its first tick: the
    sink writes 0, the initial value of the wire. *)
Lemma wire_initial_value_witness :
  exists w',
    process_all main_world = Ok w' /\
    cout w' = [0] /\
    line_of main_data (Some (Node_Printer (Printer.mk T_uint32 (mkNodeTerminal 0 1)))) = [0].
Proof.
  destruct (process_all main_world) as [w'| |] eqn:E; [|discriminate E..].
  exists w'. split; [reflexivity|].
  assert (Hfit : N.of_nat (length (m_edges main_nodes)) < 2 ^ 32) by reflexivity.
  destruct (wire_initial_value T_uint32 (mkTermRef 2 F_m_output) (mkTermRef 1 F_m_input)
              main_nodes main_data [] [] main_world w' Hfit eq_refl eq_refl eq_refl E)
    as (_ & _ & _ & _ & _ & Hline & Hcout).
  split.
  - exact Hcout.
  - exact (Hline (Printer.mk T_uint32 (mkNodeTerminal 0 1)) eq_refl eq_refl).
Defined.

(** * Further properties *)

(** ** What the propagate phase does to the wires and to the nodes *)

Lemma NodeTerminal_assign_lookup T t v d d' i :
  NodeTerminal_assign T t v d = Ok d' ->
  exists x, m_edges d !! N.to_nat (m_id t) = Some (Some (upcast_wire T x)) /\
    m_edges d' !! i =
      if decide (N.to_nat (m_id t) = i)
      then Some (Some (upcast_wire T (mkWireNode v (m_in x) (m_out x))))
      else m_edges d !! i.
Proof.
  intros H. apply NodeTerminal_assign_Ok in H as (x & Hx & _ & He).
  apply NodeTerminal_get_Ok in Hx. exists x. split; [done|]. rewrite He.
  destruct (decide (N.to_nat (m_id t) = i)) as [<-|Hne].
  - apply list_lookup_insert_eq. by apply lookup_lt_Some in Hx.
  - by apply list_lookup_insert_ne.
Qed.

Lemma Node_propagate_wire n w r i :
  Node_propagate n w = Ok r ->
  m_edges (rData r.2) !! i = drive i (m_edges (rData w) !! i) (Some n).
Proof.
  destruct n as [c|g|r0|p]; intros H;
    apply dispatched_Ok in H as (k & w' & H & ->); simpl.
  - unfold Constant_propagate in H. inv_bind H. injection H as <- <-. simpl.
    apply (NodeTerminal_assign_lookup _ _ _ _ _ i) in Hcall as (x & Hx & ->).
    destruct (decide _) as [<-|]; [|done]. by rewrite Hx.
  - unfold ANDGate_propagate in H. inv_bind H. injection H as <- <-. simpl.
    apply (NodeTerminal_assign_lookup _ _ _ _ _ i) in Hcall as (x & Hx & ->).
    destruct (decide _) as [<-|]; [|done]. by rewrite Hx.
  - unfold ROM_propagate in H. inv_bind H. inv_bind H.
    destruct (ROM.SIZE r0 =? 0); [discriminate|]. injection H as <- <-. simpl.
    apply (NodeTerminal_assign_lookup _ _ _ _ _ i) in Hcall0 as (x & Hx & ->).
    destruct (decide _) as [<-|]; [|done]. rewrite Hx. simpl.
    unfold array_index in Hcall.
    destruct (ROM.m_data r0 !! N.to_nat (ROM.m_pc r0)) as [v|]; [|discriminate].
    by injection Hcall as <-.
  - by injection H as <- <-.
Qed.

Lemma Node_propagate_stepped n w r :
  Node_propagate n w = Ok r -> r.1 = stepped n.
Proof.
  destruct n as [c|g|r0|p]; intros H;
    apply dispatched_Ok in H as (k & w' & H & ->); simpl.
  - unfold Constant_propagate in H. inv_bind H. by injection H as <- <-.
  - unfold ANDGate_propagate in H. inv_bind H. by injection H as <- <-.
  - unfold ROM_propagate in H. inv_bind H. inv_bind H.
    destruct (ROM.SIZE r0 =? 0); [discriminate|]. by injection H as <- <-.
  - by injection H as <- <-.
Qed.

(** The propagate loop from slot [k] on, against the nodes [d] had when
    the phase began. *)
Lemma propagate_from_wires (d : CircuitData) (i : nat) (m : nat) :
  forall (k : nat) (w w' : World),
  (forall j, (k <= j)%nat -> m_nodes (rData w) !! j = m_nodes d !! j) ->
  for_each (visit Node_propagate) (seq k m) w = Ok w' ->
  m_edges (rData w') !! i =
    foldl (drive i) (m_edges (rData w) !! i) (take m (drop k (m_nodes d))).
Proof.
  induction m as [|m IH]; intros k w w' Hn H; simpl in H.
  - injection H as <-. by rewrite take_0.
  - inv_bind H. rename a into w1. unfold visit in Hcall.
    rewrite (Hn k) in Hcall by done.
    destruct (m_nodes d !! k) as [slot|] eqn:Ek.
    + rewrite (drop_S _ _ _ Ek). simpl.
      assert (Hstep :
        (forall j, (S k <= j)%nat -> m_nodes (rData w1) !! j = m_nodes d !! j) /\
        m_edges (rData w1) !! i = drive i (m_edges (rData w) !! i) slot).
      { destruct slot as [n|].
        - inv_bind Hcall. rename a into r. injection Hcall as <-.
          pose proof (Node_propagate_Ok _ _ _ Hcall0) as (Hns & _).
          rewrite store_node_edges, store_node_nodes, Hns. split.
          + intros j Hj. rewrite list_lookup_insert_ne by lia. apply Hn. lia.
          + by apply Node_propagate_wire.
        - injection Hcall as <-. split; [|done]. intros j Hj. apply Hn. lia. }
      destruct Hstep as (Hn1 & He1).
      by rewrite (IH (S k) w1 w' Hn1 H), He1.
    + injection Hcall as <-. apply lookup_ge_None_1 in Ek.
      rewrite drop_ge by done.
      rewrite (IH (S k) w w'); [|intros j Hj; apply Hn; lia|done].
      rewrite drop_ge by lia. by rewrite !take_nil.
Qed.

Lemma propagate_all_wires_fold w w' i :
  propagate_all w = Ok w' ->
  m_edges (rData w') !! i = foldl (drive i) (m_edges (rData w) !! i) (m_nodes (rData w)).
Proof.
  intros H. unfold propagate_all, all_slots in H.
  apply (propagate_from_wires (rData w) i) in H; [|done].
  by rewrite H, drop_0, firstn_all.
Qed.

Lemma propagate_all_nodes w w' :
  propagate_all w = Ok w' ->
  m_nodes (rData w') = fmap (M:=list) (fmap (M:=option) stepped) (m_nodes (rData w)).
Proof.
  intros H. apply propagate_all_spec in H as (_ & _ & Hlen & Hnull & Hin).
  apply list_eq. intros j. rewrite list_lookup_fmap.
  destruct (m_nodes (rData w) !! j) as [[n|]|] eqn:E; simpl.
  - destruct (Hin j n E) as (wj & r & Hr & ->).
    by rewrite (Node_propagate_stepped _ _ _ Hr).
  - by apply Hnull.
  - apply lookup_ge_None. rewrite Hlen. by apply lookup_ge_None.
Qed.

Lemma foldl_drive_undriven i (slots : list (option Node)) : forall content,
  (forall n, Some n ∈ slots -> ~ drives i n) ->
  foldl (drive i) content slots = content.
Proof.
  induction slots as [|slot slots IH]; intros content Hno; simpl; [done|].
  rewrite IH.
  - destruct slot as [n|]; [|done]. simpl.
    destruct (output_terminal n) as [t|] eqn:Et; [|done].
    destruct (decide _) as [Hi|]; [|done].
    destruct (Hno n); [by left|]. by exists t.
  - intros n Hn. apply Hno. by right.
Qed.

Lemma elem_of_take_drop {A} (l : list A) (j : nat) (x : A) :
  (x ∈ take j l \/ x ∈ drop (S j) l) ->
  exists j', j' <> j /\ l !! j' = Some x.
Proof.
  intros [H|H].
  - apply list_elem_of_lookup in H as (j' & Hj').
    pose proof (lookup_lt_Some _ _ _ Hj') as Hlt. rewrite length_take in Hlt.
    exists j'. split; [lia|]. rewrite lookup_take_lt in Hj' by lia. done.
  - apply list_elem_of_lookup in H as (j' & Hj'). rewrite lookup_drop in Hj'.
    exists (S j + j')%nat. split; [lia|done].
Qed.

Lemma resolves_frames T t es es' :
  wire_frames es = wire_frames es' -> resolves T t es -> resolves T t es'.
Proof.
  intros Hf (c & Hc & HT).
  assert (Hl : wire_frames es' !! N.to_nat (m_id t) = Some (Some (wire_frame c))).
  { rewrite <- Hf. unfold wire_frames. by rewrite list_lookup_fmap, Hc. }
  unfold wire_frames in Hl. rewrite list_lookup_fmap in Hl.
  destruct (es' !! N.to_nat (m_id t)) as [[c'|]|] eqn:E; try discriminate.
  exists c'. split; [done|]. simpl in Hl. unfold wire_frame in Hl. congruence.
Qed.

Lemma resolves_get T t d :
  resolves T t (m_edges d) <-> exists x, NodeTerminal_get T t d = Ok x.
Proof.
  split.
  - intros (c & Hc & <-). unfold NodeTerminal_get, at_. rewrite Hc. simpl.
    destruct c as [x|x]; by exists x.
  - intros (x & Hx). apply NodeTerminal_get_Ok in Hx. eexists. split; [exact Hx|].
    by destruct T.
Qed.

Lemma NodeTerminal_assign_resolves T t v d d' :
  NodeTerminal_assign T t v d = Ok d' -> resolves T t (m_edges d).
Proof.
  intros H. apply NodeTerminal_assign_Ok in H as (x & Hx & _). apply resolves_get. eauto.
Qed.

Lemma Node_propagate_resolves n w r t :
  Node_propagate n w = Ok r ->
  output_terminal n = Some t ->
  resolves (output_type n) t (m_edges (rData w)) /\
  (forall r0, n = Node_ROM r0 -> is_Some (ROM.m_data r0 !! N.to_nat (ROM.m_pc r0))).
Proof.
  destruct n as [c|g|r0|p]; intros H Ht; injection Ht as <- || discriminate Ht;
    apply dispatched_Ok in H as (k & w' & H & _); simpl.
  - unfold Constant_propagate in H. inv_bind H.
    split; [by eapply NodeTerminal_assign_resolves|]. discriminate.
  - unfold ANDGate_propagate in H. inv_bind H.
    split; [by eapply NodeTerminal_assign_resolves|]. discriminate.
  - unfold ROM_propagate in H. inv_bind H. inv_bind H.
    split; [by eapply NodeTerminal_assign_resolves|].
    intros ? [= <-]. unfold array_index in Hcall.
    destruct (ROM.m_data r0 !! N.to_nat (ROM.m_pc r0)); [by eexists|discriminate].
Qed.

Lemma Node_process_output n w r :
  Node_process n w = Ok r -> output_terminal r.1 = output_terminal n.
Proof.
  destruct n as [c|g|r0|p]; intros H;
    apply dispatched_Ok in H as (k & w' & H & ->); simpl.
  - by injection H as <- <-.
  - unfold ANDGate_process in H. inv_bind H.
    destruct (m_value a); [inv_bind H|]; by injection H as <- <-.
  - by injection H as <- <-.
  - unfold Printer_process in H. inv_bind H. by injection H as <- <-.
Qed.

(** The propagate phase, keeping for each node the state in which its
    propagate ran: one with the wire types and endpoints of the start. *)
Lemma propagate_all_calls w w' :
  propagate_all w = Ok w' ->
  forall j n, m_nodes (rData w) !! j = Some (Some n) ->
    exists wj r,
      wire_frames (m_edges (rData wj)) = wire_frames (m_edges (rData w)) /\
      Node_propagate n wj = Ok r.
Proof.
  intros H. unfold propagate_all in H.
  apply (phase_all Node_propagate
           (fun wj => wire_frames (m_edges (rData wj)) = wire_frames (m_edges (rData w)))) in H.
  - destruct H as (_ & _ & _ & _ & Hin). intros j n Hj.
    destruct (Hin j n Hj) as (wj & r & Hwj & Hr & _). eauto.
  - intros n w0 r Hr. by apply Node_propagate_Ok in Hr as (? & _).
  - intros n w0 r i HI Hr. apply Node_propagate_Ok in Hr as (_ & Hf & _).
    rewrite store_node_edges. congruence.
  - done.
Qed.

(** The slots after the process phase, read backwards. *)
Lemma process_all_slot w w1 j n1 :
  process_all w = Ok w1 ->
  m_nodes (rData w1) !! j = Some (Some n1) ->
  exists n r, m_nodes (rData w) !! j = Some (Some n) /\
              Node_process n w = Ok r /\ r.1 = n1.
Proof.
  intros H Hj. apply process_all_spec in H as (_ & Hlen & Hnull & Hin).
  destruct (m_nodes (rData w) !! j) as [[n|]|] eqn:E.
  - destruct (Hin j n E) as (r & Hr & Hj'). exists n, r.
    split; [done|]. split; [done|]. congruence.
  - rewrite (Hnull j E) in Hj. discriminate.
  - apply lookup_ge_None_1 in E. rewrite <- Hlen in E.
    apply lookup_ge_None_2 in E. congruence.
Qed.

(** The wire slot a sole driver writes, after the propagate phase. *)
Lemma propagate_all_sole_driver w w' i j n :
  propagate_all w = Ok w' ->
  m_nodes (rData w) !! j = Some (Some n) ->
  drives i n ->
  (forall j' n', j' <> j -> m_nodes (rData w) !! j' = Some (Some n') -> ~ drives i n') ->
  exists c, m_edges (rData w) !! i = Some (Some c) /\
            value_type c = output_type n /\
            m_edges (rData w') !! i = Some (Some (driven n c)).
Proof.
  intros H Hj (t & Ht & Hi) Hsole.
  destruct (propagate_all_calls _ _ H j n Hj) as (wj & r & Hf & Hr).
  destruct (Node_propagate_resolves _ _ _ _ Hr Ht) as [Hres _].
  apply (resolves_frames _ _ _ _ Hf) in Hres as (c & Hc & HT). rewrite Hi in Hc.
  exists c. split; [done|]. split; [done|].
  rewrite (propagate_all_wires_fold _ _ i H).
  rewrite <- (take_drop_middle _ _ _ Hj), foldl_app. simpl.
  rewrite (foldl_drive_undriven i (take j _)).
  2:{ intros n' Hn'. destruct (elem_of_take_drop _ j _ (or_introl Hn')) as (j' & Hne & Hj').
      by apply (Hsole j' n'). }
  rewrite foldl_drive_undriven.
  2:{ intros n' Hn'. destruct (elem_of_take_drop _ j _ (or_intror Hn')) as (j' & Hne & Hj').
      by apply (Hsole j' n'). }
  rewrite Ht. rewrite decide_True by done. by rewrite Hc.
Qed.

(** X1. The propagate phase, when it returns, has done exactly this: the
    content of every wire slot is the content it had, passed through the
    writes of the nodes in arena order (a node writes the slot its output
    terminal names, with the value it held when the phase began, between
    the endpoints the wire had); every ROM has stepped and no other node
    has changed; nothing was written to [cout]; the number of wire slots
    is the same. *)
Theorem propagate_all_effect (w w' : World) (Hphase : propagate_all w = Ok w') :
  (forall i, m_edges (rData w') !! i
             = foldl (drive i) (m_edges (rData w) !! i) (m_nodes (rData w))) /\
  m_nodes (rData w') = fmap (M:=list) (fmap (M:=option) stepped) (m_nodes (rData w)) /\
  cout w' = cout w /\
  length (m_edges (rData w')) = length (m_edges (rData w)).
Proof.
  split; [intros i; by apply propagate_all_wires_fold|].
  split; [by apply propagate_all_nodes|].
  apply propagate_all_spec in Hphase as (Hf & Hc & _).
  split; [done|]. by rewrite <- !wire_frames_length, Hf.
Qed.

(** The propagate phase of [main]'s first tick: the ROM drives table
    entry 0 onto wire 1 and steps to position 1. *)
Lemma propagate_all_effect_witness :
  exists w',
    propagate_all main_world = Ok w' /\
    m_edges (rData w') !! 1%nat = Some (Some (Wire_uint32 (mkWireNode 0 0 0))) /\
    m_nodes (rData w') !! 2%nat
      = Some (Some (Node_ROM (ROM.mk romData 1 (mkNodeTerminal 0 1)))).
Proof.
  destruct (propagate_all main_world) as [w'| |] eqn:E; [|discriminate E..].
  exists w'. split; [reflexivity|].
  destruct (propagate_all_effect main_world w' E) as (Hw & Hn & _).
  split.
  - exact (Hw 1%nat).
  - rewrite Hn. reflexivity.
Defined.

(** X2. A wire slot that no node's output terminal names is left by a
    whole tick exactly as it was: wires are written by their drivers
    only. *)
Theorem tick_undriven_wire (w w' : World) (i : nat)
    (Htick : tick w = Ok w')
    (Hnone : forall j n, m_nodes (rData w) !! j = Some (Some n) -> ~ drives i n) :
  m_edges (rData w') !! i = m_edges (rData w) !! i.
Proof.
  unfold tick in Htick. inv_bind Htick. rename a into w1.
  rewrite (propagate_all_wires_fold _ _ i Htick).
  pose proof (process_all_spec _ _ Hcall) as (He & _).
  rewrite foldl_drive_undriven; [by rewrite He|].
  intros n1 Hn1. apply list_elem_of_lookup in Hn1 as (j & Hj).
  destruct (process_all_slot _ _ _ _ Hcall Hj) as (n & r & Hn & Hr & <-).
  intros (t & Ht & Hi). rewrite (Node_process_output _ _ _ Hr) in Ht.
  apply (Hnone j n Hn). by exists t.
Qed.

(** The half-wired gate drives wire 2; wire 1, its input, has no driver
    and keeps its value through the tick. *)
Lemma tick_undriven_wire_witness :
  exists w',
    tick half_wired_world = Ok w' /\
    m_edges (rData w') !! 1%nat = Some (Some (Wire_bool (mkWireNode false 0 1))).
Proof.
  destruct (tick half_wired_world) as [w'| |] eqn:E; [|discriminate E..].
  exists w'. split; [reflexivity|].
  apply (tick_undriven_wire half_wired_world w' 1%nat E).
  intros j n Hj (t & Ht & Hi).
  destruct j as [|[|j]]; [discriminate Hj| |destruct j; discriminate Hj].
  injection Hj as <-. injection Ht as <-. discriminate Hi.
Defined.

(** The wire slot a sole driver writes, after a whole tick. *)
Lemma tick_sole_driver_wire (w w' : World) (j : nat) (n : Node) (t : NodeTerminal) :
  tick w = Ok w' ->
  m_nodes (rData w) !! j = Some (Some n) ->
  output_terminal n = Some t ->
  (forall j' n', j' <> j -> m_nodes (rData w) !! j' = Some (Some n') ->
     ~ drives (N.to_nat (m_id t)) n') ->
  exists c r1,
    m_edges (rData w) !! N.to_nat (m_id t) = Some (Some c) /\
    value_type c = output_type n /\
    Node_process n w = Ok r1 /\
    m_edges (rData w') !! N.to_nat (m_id t) = Some (Some (driven r1.1 c)) /\
    (forall r0, r1.1 = Node_ROM r0 -> is_Some (ROM.m_data r0 !! N.to_nat (ROM.m_pc r0))).
Proof.
  intros Htick Hj Ht Hsole.
  unfold tick in Htick. inv_bind Htick. rename a into w1.
  pose proof (process_all_spec _ _ Hcall) as (He & _ & _ & Hproc).
  destruct (Hproc j n Hj) as (r1 & Hr1 & Hj1).
  pose proof (Node_process_output _ _ _ Hr1) as Hout. rewrite Ht in Hout.
  assert (Hsole1 : forall j' n', j' <> j ->
            m_nodes (rData w1) !! j' = Some (Some n') -> ~ drives (N.to_nat (m_id t)) n').
  { intros j' n' Hne Hj' (t' & Ht' & Hi).
    destruct (process_all_slot _ _ _ _ Hcall Hj') as (n0 & r0 & Hn0 & Hr0 & <-).
    rewrite (Node_process_output _ _ _ Hr0) in Ht'.
    apply (Hsole j' n0 Hne Hn0). by exists t'. }
  destruct (propagate_all_sole_driver w1 w' (N.to_nat (m_id t)) j r1.1 Htick Hj1
              (ex_intro _ t (conj Hout eq_refl)) Hsole1) as (c & Hc & HT & Hc').
  rewrite He in Hc.
  assert (Hkind : output_type r1.1 = output_type n).
  { pose proof (Node_process_Ok _ _ _ Hr1) as [_ Hk].
    destruct n, (r1.1); simpl in Hk; try discriminate Hk; done. }
  rewrite Hkind in HT.
  destruct (propagate_all_calls _ _ Htick j _ Hj1) as (wj & r2 & _ & Hr2).
  destruct (Node_propagate_resolves _ _ _ _ Hr2 Hout) as [_ Hrom].
  by exists c, r1.
Qed.

(** X3. After a tick, a wire with a single driver carries the driver's
    value, between the endpoints it had: the state of a constant; for an
    AND gate the conjunction of the values its two input wires had before
    the tick (its own output wire may be one of them); for a ROM the table
    entry at the position it had before the tick. *)
Theorem tick_sole_driver (w w' : World) (j : nat) (n : Node) (t : NodeTerminal)
    (Htick : tick w = Ok w')
    (Hj : m_nodes (rData w) !! j = Some (Some n))
    (Ht : output_terminal n = Some t)
    (Hsole : forall j' n', j' <> j -> m_nodes (rData w) !! j' = Some (Some n') ->
               ~ drives (N.to_nat (m_id t)) n') :
  exists x,
    NodeTerminal_get (output_type n) t (rData w) = Ok x /\
    (forall c, n = Node_Constant c ->
       NodeTerminal_get T_bool t (rData w')
         = Ok (mkWireNode (Constant.m_state c) (m_in x) (m_out x))) /\
    (forall g a b, n = Node_ANDGate g ->
       NodeTerminal_get T_bool (ANDGate.m_inA g) (rData w) = Ok a ->
       NodeTerminal_get T_bool (ANDGate.m_inB g) (rData w) = Ok b ->
       NodeTerminal_get T_bool t (rData w')
         = Ok (mkWireNode (m_value a && m_value b) (m_in x) (m_out x))) /\
    (forall r, n = Node_ROM r ->
       exists v, ROM.m_data r !! N.to_nat (ROM.m_pc r) = Some v /\
         NodeTerminal_get T_uint32 t (rData w') = Ok (mkWireNode v (m_in x) (m_out x))).
Proof.
  destruct (tick_sole_driver_wire w w' j n t Htick Hj Ht Hsole)
    as (c & r1 & Hc & HT & Hr1 & Hc' & Hrom).
  destruct n as [c0|g|r|p]; simpl in HT; destruct c as [x|x]; try discriminate HT;
    try discriminate Ht; exists x.
  - split; [by apply NodeTerminal_get_Ok|].
    split; [|split; [intros; discriminate|intros; discriminate]].
    intros ? [= <-]. injection Hr1 as <-. apply NodeTerminal_get_Ok. exact Hc'.
  - split; [by apply NodeTerminal_get_Ok|].
    split; [intros; discriminate|]. split; [|intros; discriminate].
    intros ? a b [= <-] Ha Hb. rewrite (ANDGate_process_value _ _ _ _ Ha Hb) in Hr1.
    injection Hr1 as <-. apply NodeTerminal_get_Ok. exact Hc'.
  - split; [by apply NodeTerminal_get_Ok|].
    split; [intros; discriminate|]. split; [intros; discriminate|].
    intros ? [= <-]. injection Hr1 as <-.
    destruct (Hrom r eq_refl) as (v & Hv). exists v. split; [done|].
    apply NodeTerminal_get_Ok. rewrite Hc'.
    change (driven _ _) with (driven (Node_ROM r) (Wire_uint32 x)).
    unfold driven, upcast_wire. do 2 f_equal.
    exact (f_equal (fun o => Wire_uint32 (mkWireNode (default 0 o) (m_in x) (m_out x))) Hv).
Qed.

(** The gate fed back onto itself is the only driver of wire 1: after the
    tick the wire carries true, the conjunction of the two input wires
    before the tick. *)
Lemma tick_sole_driver_witness :
  exists w',
    tick feedback_world = Ok w' /\
    NodeTerminal_get T_bool (mkNodeTerminal 1 1) (rData w') = Ok (mkWireNode true 1 1).
Proof.
  destruct (tick feedback_world) as [w'| |] eqn:E; [|discriminate E..].
  exists w'. split; [reflexivity|].
  assert (Hsole : forall j' n', j' <> 1%nat ->
            m_nodes (rData feedback_world) !! j' = Some (Some n') ->
            ~ drives (N.to_nat (m_id (mkNodeTerminal 1 1))) n').
  { intros j' n' Hne Hj' (t' & Ht' & Hi).
    destruct j' as [|[|[|j']]]; [discriminate Hj'|done| |destruct j'; discriminate Hj'].
    injection Hj' as <-. injection Ht' as <-. discriminate Hi. }
  destruct (tick_sole_driver feedback_world w' 1%nat (Node_ANDGate feedback_gate)
              (mkNodeTerminal 1 1) E eq_refl eq_refl Hsole) as (x & Hx & _ & Hgate & _).
  injection Hx as <-.
  exact (Hgate feedback_gate (mkWireNode true 1 1) (mkWireNode true 2 1)
           eq_refl eq_refl eq_refl).
Defined.

(** ** Circuits that never fault *)

Lemma Node_ready_frames es es' n :
  wire_frames es = wire_frames es' -> Node_ready es n -> Node_ready es' n.
Proof.
  intros Hf. destruct n as [c|g|r|p]; simpl.
  - by apply resolves_frames.
  - intros (Ha & Hb & Ho). repeat split; by eapply resolves_frames.
  - intros (Ho & Hpc). split; [by eapply resolves_frames|done].
  - by apply resolves_frames.
Qed.

Lemma NodeTerminal_assign_total T t v d :
  resolves T t (m_edges d) ->
  exists d', NodeTerminal_assign T t v d = Ok d' /\
             m_nodes d' = m_nodes d /\
             wire_frames (m_edges d') = wire_frames (m_edges d).
Proof.
  intros Hres. apply resolves_get in Hres as (x & Hx).
  unfold NodeTerminal_assign. rewrite Hx. simpl. eexists. split; [reflexivity|].
  split; [done|]. simpl. apply NodeTerminal_get_Ok in Hx.
  eapply wire_frames_insert; [exact Hx|]. by destruct T.
Qed.

Lemma Node_process_total n w :
  Node_ready (m_edges (rData w)) n ->
  exists r, Node_process n w = Ok r /\
            m_nodes (rData r.2) = m_nodes (rData w) /\
            wire_frames (m_edges (rData r.2)) = wire_frames (m_edges (rData w)) /\
            Node_ready (m_edges (rData r.2)) r.1.
Proof.
  destruct n as [c|g|r0|p]; intros Hr; simpl in Hr.
  - eexists. split; [reflexivity|]. done.
  - destruct Hr as (Ha & Hb & Ho).
    pose proof Ha as Ha'. pose proof Hb as Hb'.
    apply resolves_get in Ha' as (a & Ha'). apply resolves_get in Hb' as (b & Hb').
    rewrite (ANDGate_process_value g w a b Ha' Hb').
    eexists. split; [reflexivity|]. done.
  - eexists. split; [reflexivity|]. done.
  - pose proof Hr as Hr'. apply resolves_get in Hr' as (x & Hx).
    unfold Node_process, Printer_process, dispatched. rewrite Hx. simpl.
    eexists. split; [reflexivity|]. done.
Qed.

Lemma ROM_next_in_table (pc size : N) :
  size <> 0 -> to_uint32 (to_uint32 (pc + 1) mod size) < size.
Proof.
  intros Hne. unfold to_uint32 at 1.
  pose proof (N.mod_upper_bound (to_uint32 (pc + 1)) size Hne) as H1.
  pose proof (N.Div0.mod_le (to_uint32 (pc + 1) mod size) (2 ^ 32)) as H2. lia.
Qed.

Lemma Node_propagate_total n w :
  Node_ready (m_edges (rData w)) n ->
  exists r, Node_propagate n w = Ok r /\
            m_nodes (rData r.2) = m_nodes (rData w) /\
            wire_frames (m_edges (rData r.2)) = wire_frames (m_edges (rData w)) /\
            Node_ready (m_edges (rData r.2)) r.1.
Proof.
  destruct n as [c|g|r0|p]; intros Hr; simpl in Hr.
  - destruct (NodeTerminal_assign_total T_bool _ (Constant.m_state c) _ Hr)
      as (d' & Hd & Hn & Hf).
    unfold Node_propagate, Constant_propagate, dispatched. rewrite Hd. simpl.
    eexists. split; [reflexivity|]. simpl. split; [done|]. split; [done|].
    by eapply resolves_frames.
  - destruct Hr as (Ha & Hb & Ho).
    destruct (NodeTerminal_assign_total T_bool _ (ANDGate.m_outVal g) _ Ho)
      as (d' & Hd & Hn & Hf).
    unfold Node_propagate, ANDGate_propagate, dispatched. rewrite Hd. simpl.
    eexists. split; [reflexivity|]. simpl. split; [done|]. split; [done|].
    repeat split; by eapply resolves_frames.
  - destruct Hr as (Ho & Hpc).
    assert (Hv : exists v, ROM.m_data r0 !! N.to_nat (ROM.m_pc r0) = Some v).
    { apply lookup_lt_is_Some_2. unfold ROM.SIZE in Hpc. unfold uint32_t in *. lia. }
    destruct Hv as (v & Hv).
    destruct (NodeTerminal_assign_total T_uint32 _ v _ Ho) as (d' & Hd & Hn & Hf).
    unfold Node_propagate, ROM_propagate, dispatched, array_index. rewrite Hv. simpl.
    rewrite Hd. simpl.
    destruct (N.eqb_spec (ROM.SIZE r0) 0) as [E0|Hne]; [lia|]. simpl.
    eexists. split; [reflexivity|]. simpl. split; [done|]. split; [done|].
    split; [by eapply resolves_frames|].
    by apply ROM_next_in_table.
  - eexists. split; [reflexivity|]. done.
Qed.

Section phase_total.
Variable method : Node -> World -> outcome (Node * World).

Hypothesis method_total : forall n w,
  Node_ready (m_edges (rData w)) n ->
  exists r, method n w = Ok r /\
            m_nodes (rData r.2) = m_nodes (rData w) /\
            wire_frames (m_edges (rData r.2)) = wire_frames (m_edges (rData w)) /\
            Node_ready (m_edges (rData r.2)) r.1.

Lemma for_each_total slots : forall w,
  ready (rData w) ->
  exists w', for_each (visit method) slots w = Ok w' /\ ready (rData w').
Proof.
  induction slots as [|i rest IH]; intros w Hw; simpl.
  - by exists w.
  - unfold visit. destruct (m_nodes (rData w) !! i) as [[n|]|] eqn:E; simpl.
    + destruct (method_total n w (Hw i n E)) as (r & Hr & Hn & Hf & Hready).
      rewrite Hr. simpl. apply IH.
      intros j n' Hj. rewrite store_node_nodes, Hn in Hj. rewrite store_node_edges.
      destruct (decide (i = j)) as [<-|Hne].
      * rewrite list_lookup_insert_eq in Hj by (by apply lookup_lt_Some in E).
        by injection Hj as <-.
      * rewrite list_lookup_insert_ne in Hj by done.
        eapply Node_ready_frames; [symmetry; exact Hf|]. by apply (Hw j).
    + by apply IH.
    + by apply IH.
Qed.
End phase_total.

Lemma tick_total w :
  ready (rData w) -> exists w', tick w = Ok w' /\ ready (rData w').
Proof.
  intros Hw. unfold tick, process_all, propagate_all.
  destruct (for_each_total Node_process Node_process_total (all_slots w) w Hw)
    as (w1 & H1 & Hw1).
  rewrite H1. simpl.
  by apply (for_each_total Node_propagate Node_propagate_total).
Qed.

(** X4. A circuit in which every terminal of every node resolves to a
    wire of its value type, and every ROM's position is inside its table,
    can be ticked any number of times: no tick throws or runs into
    undefined behaviour, and the circuit is in the same condition
    afterwards. *)
Theorem ready_circuit_never_faults (w : World) (clk : nat) (Hready : ready (rData w)) :
  exists w', run_ticks clk w = Ok w' /\ ready (rData w').
Proof.
  revert w Hready. induction clk as [|clk IH]; intros w Hready; simpl.
  - by exists w.
  - destruct (tick_total w Hready) as (w1 & H1 & Hw1). rewrite H1. simpl. by apply IH.
Qed.

Lemma main_data_ready : ready main_data.
Proof.
  intros j n Hj. destruct j as [|[|[|j]]]; simpl in Hj; try discriminate Hj.
  - injection Hj as <-. simpl. eexists. split; reflexivity.
  - injection Hj as <-. simpl. split; [|reflexivity]. eexists. split; reflexivity.
Qed.

(** The circuit of [main], a thousand ticks. *)
Lemma ready_circuit_never_faults_witness :
  exists w', run_ticks 1000 main_world = Ok w' /\ ready (rData w').
Proof. exact (ready_circuit_never_faults main_world 1000 main_data_ready). Defined.

(** ** Arenas built through the interface *)

Lemma data_t_eqb_eq T1 T2 : data_t_eqb T1 T2 = true <-> T1 = T2.
Proof. destruct T1, T2; simpl; split; congruence. Qed.

Lemma deref_Ok T r d t :
  deref T r d = Ok t <->
  exists n, m_nodes d !! owner r = Some (Some n) /\
            Node_terminal n (member_of r) = Some (T, t).
Proof.
  unfold deref. destruct (m_nodes d !! owner r) as [[n|]|] eqn:En.
  - destruct (Node_terminal n (member_of r)) as [[T' t']|] eqn:Et.
    + destruct (data_t_eqb T' T) eqn:E.
      * apply data_t_eqb_eq in E as ->. split.
        -- intros [= ->]. eauto.
        -- intros (n' & [= <-] & Ht). rewrite Et in Ht. by injection Ht as ->.
      * split; [discriminate|]. intros (n' & [= <-] & Ht). rewrite Et in Ht.
        injection Ht as -> ->.
        assert (data_t_eqb T T = true) by (by apply data_t_eqb_eq). congruence.
    + split; [discriminate|]. intros (n' & [= <-] & Ht). congruence.
  - split; [discriminate|]. intros (n' & ? & _). discriminate.
  - split; [discriminate|]. intros (n' & ? & _). discriminate.
Qed.

Lemma Node_process_terminal n w r f :
  Node_process n w = Ok r -> Node_terminal r.1 f = Node_terminal n f.
Proof.
  destruct n as [c|g|r0|p]; intros H;
    apply dispatched_Ok in H as (k & w' & H & ->); simpl.
  - by injection H as <- <-.
  - unfold ANDGate_process in H. inv_bind H.
    destruct (m_value a); [inv_bind H|]; by injection H as <- <-.
  - by injection H as <- <-.
  - unfold Printer_process in H. inv_bind H. by injection H as <- <-.
Qed.

Lemma stepped_terminal n f : Node_terminal (stepped n) f = Node_terminal n f.
Proof. by destruct n. Qed.

Lemma resolves_prefix T t es es' :
  es `prefix_of` es' -> resolves T t es -> resolves T t es'.
Proof.
  intros Hp (c & Hc & HT). exists c. split; [|done].
  by eapply prefix_lookup_Some.
Qed.

Lemma step_terminals_ok o w w' :
  step o w = Ok w' ->
  (forall node, o = Op_add node -> fresh_node node) ->
  N.of_nat (length (m_edges (rData w'))) <= 2 ^ 32 ->
  terminals_ok (rData w) -> terminals_ok (rData w').
Proof.
  intros Hstep Hfresh Hfit Hok T r t Hr.
  destruct o as [node|T0 a b|slot addr| |]; simpl in Hstep.
  - injection Hstep as <-. simpl in *.
    apply deref_Ok in Hr as (n & Hn & Ht). simpl in Hn.
    apply lookup_app_Some in Hn as [Hn|[_ Hn]].
    + apply (Hok T r t). apply deref_Ok. eauto.
    + left. apply list_lookup_singleton_Some in Hn as [_ [= <-]].
      by apply (Hfresh node eq_refl (member_of r) T t).
  - inv_bind Hstep. rename a0 into d'. injection Hstep as <-. simpl in *.
    destruct (connect_Ok _ _ _ _ _ Hcall) as (ta & tb & Ha & Hb).
    destruct (connect_spec T0 a b _ ta tb Ha Hb) as (d'' & Hc & He & Ha' & Hb' & _ & _ & Hoth).
    rewrite Hcall in Hc. injection Hc as <-.
    assert (Hlen : N.of_nat (length (m_edges (rData w))) < 2 ^ 32).
    { rewrite He, length_app in Hfit. simpl in Hfit. lia. }
    rewrite (to_uint32_small _ Hlen) in Ha', Hb'.
    assert (Hnew : forall t0, m_id t0 = N.of_nat (length (m_edges (rData w))) ->
                     resolves T0 t0 (m_edges d')).
    { intros t0 Hid. eexists. split.
      - rewrite Hid, Nat2N.id, He. by apply list_lookup_middle.
      - by destruct T0. }
    destruct (decide (r = a)) as [->|Hra].
    { destruct (deref_Ok T a d' t) as [Hd _]. destruct (Hd Hr) as (n & Hn & Ht).
      destruct (deref_Ok T0 a d' (set_m_id (N.of_nat (length (m_edges (rData w)))) ta))
        as [Hd0 _]. destruct (Hd0 Ha') as (n0 & Hn0 & Ht0).
      rewrite Hn in Hn0. injection Hn0 as <-. rewrite Ht in Ht0. injection Ht0 as -> ->.
      right. by apply Hnew. }
    destruct (decide (r = b)) as [->|Hrb].
    { destruct (deref_Ok T b d' t) as [Hd _]. destruct (Hd Hr) as (n & Hn & Ht).
      destruct (deref_Ok T0 b d' (set_m_id (N.of_nat (length (m_edges (rData w)))) tb))
        as [Hd0 _]. destruct (Hd0 Hb') as (n0 & Hn0 & Ht0).
      rewrite Hn in Hn0. injection Hn0 as <-. rewrite Ht in Ht0. injection Ht0 as -> ->.
      right. by apply Hnew. }
    rewrite (Hoth T r Hra Hrb) in Hr.
    destruct (Hok T r t Hr) as [?|Hres]; [by left|]. right.
    eapply resolves_prefix; [|exact Hres]. rewrite He. by eexists.
  - inv_bind Hstep. rename a into d'. injection Hstep as <-. simpl in *.
    pose proof (jmp_at_Ok _ _ _ _ Hcall) as (He & _). rewrite He.
    apply (Hok T r t). apply deref_Ok in Hr as (n & Hn & Ht). apply deref_Ok.
    unfold jmp_at in Hcall.
    destruct (m_nodes (rData w) !! slot) as [[[c|g|r0|p]|]|] eqn:E; try discriminate.
    injection Hcall as <-. simpl in Hn.
    destruct (decide (slot = owner r)) as [->|Hne].
    + rewrite list_lookup_insert_eq in Hn by (by apply lookup_lt_Some in E).
      injection Hn as <-. exists (Node_ROM r0). split; [done|]. by destruct (member_of r).
    + rewrite list_lookup_insert_ne in Hn by done. eauto.
  - pose proof (process_all_spec _ _ Hstep) as (He & _). rewrite He.
    apply (Hok T r t). apply deref_Ok in Hr as (n1 & Hn1 & Ht). apply deref_Ok.
    destruct (process_all_slot _ _ _ _ Hstep Hn1) as (n & r1 & Hn & Hr1 & <-).
    exists n. split; [done|]. by rewrite <- (Node_process_terminal _ _ _ _ Hr1).
  - pose proof (propagate_all_spec _ _ Hstep) as (Hf & _).
    pose proof (propagate_all_nodes _ _ Hstep) as Hns.
    apply deref_Ok in Hr as (n1 & Hn1 & Ht). rewrite Hns, list_lookup_fmap in Hn1.
    destruct (m_nodes (rData w) !! owner r) as [[n|]|] eqn:E; try discriminate Hn1.
    injection Hn1 as <-. rewrite stepped_terminal in Ht.
    destruct (Hok T r t) as [?|Hres]; [apply deref_Ok; eauto|by left|].
    right. eapply resolves_frames; [symmetry; exact Hf|exact Hres].
Qed.

Lemma run_terminals_ok ops : forall w w',
  run ops w = Ok w' ->
  fresh_adds ops ->
  N.of_nat (length (m_edges (rData w'))) <= 2 ^ 32 ->
  terminals_ok (rData w) -> terminals_ok (rData w').
Proof.
  induction ops as [|o ops IH]; intros w w' Hrun Hfresh Hfit Hok; simpl in Hrun.
  - by injection Hrun as <-.
  - inv_bind Hrun. rename a into w1.
    apply (IH w1 w' Hrun); [intros node Hin; apply Hfresh; by right|done|].
    apply (step_terminals_ok o w w1 Hcall); [|..|done].
    + intros node ->. apply Hfresh. by left.
    + pose proof (run_grows _ _ _ Hrun) as [_ He]. apply prefix_length in He.
      rewrite !wire_frames_length in He. lia.
Qed.

Lemma terminals_ok_init : terminals_ok (rData World_init).
Proof.
  intros T r t Hr. apply deref_Ok in Hr as (n & Hn & _). simpl in Hn.
  destruct (owner r) as [|k]; simpl in Hn; discriminate Hn.
Qed.

Lemma reachable_null_wire ops w :
  run ops World_init = Ok w -> m_edges (rData w) !! 0%nat = Some None.
Proof.
  intros Hrun. pose proof (run_grows _ _ _ Hrun) as [_ He0].
  destruct (prefix_of_fmap_lookup (fmap (M:=option) wire_frame) _ _ 0%nat None He0 eq_refl)
    as ([c|] & Hy & Hf); [simpl in Hf; discriminate Hf|done].
Qed.

Lemma main_ops_fresh : fresh_adds main_ops.
Proof.
  intros node [[= <-]|[[= <-]|[H|[]]]]; [| |discriminate H];
    intros f T t Ht; destruct f; simpl in Ht; try discriminate Ht;
    by injection Ht as <- <-.
Qed.

(** X5. In an arena built from the fresh one by allocating freshly
    constructed nodes, connecting terminals, jumping ROMs and running
    phases (with at most 2^32 wire slots, so that wire identities do not
    wrap), every terminal of every node is either unattached or attached
    to an existing wire of its own value type.  Resolving a terminal of
    such an arena therefore never throws and never casts to the wrong
    type: it returns the wire, or, for an unattached terminal,
    dereferences the null pointer. *)
Theorem built_arena_terminals (ops : list op) (w : World)
    (Hrun : run ops World_init = Ok w)
    (Hfresh : fresh_adds ops)
    (Hfit : N.of_nat (length (m_edges (rData w))) <= 2 ^ 32) :
  forall T r t, deref T r (rData w) = Ok t ->
    (m_id t = nullEdge_t /\ NodeTerminal_get T t (rData w) = Undefined NullDeref) \/
    (m_id t <> nullEdge_t /\ exists x, NodeTerminal_get T t (rData w) = Ok x).
Proof.
  intros T r t Hr.
  pose proof (reachable_null_wire _ _ Hrun) as Hnull.
  destruct (run_terminals_ok ops World_init w Hrun Hfresh Hfit terminals_ok_init T r t Hr)
    as [Hid|Hres].
  - left. split; [done|]. by apply NodeTerminal_get_null.
  - right. split; [|by apply resolves_get].
    intros Hid. destruct Hres as (c & Hc & _). rewrite Hid in Hc.
    change (N.to_nat nullEdge_t) with 0%nat in Hc. congruence.
Qed.

(** The arena of [main]: the ROM's output terminal is attached and
    resolves. *)
Lemma built_arena_terminals_witness :
  exists x, NodeTerminal_get T_uint32 (mkNodeTerminal 0 1) (rData main_world) = Ok x.
Proof.
  pose proof main_ops_fresh as Hfresh.
  assert (Hfit : N.of_nat (length (m_edges (rData main_world))) <= 2 ^ 32)
    by (vm_compute; discriminate).
  destruct (built_arena_terminals main_ops main_world eq_refl Hfresh Hfit
              T_uint32 (mkTermRef 2 F_m_output) (mkNodeTerminal 0 1) eq_refl)
    as [[Hid _]|[_ Hx]]; [discriminate Hid|exact Hx].
Defined.

Lemma terminals_ok_ready d :
  terminals_ok d ->
  (forall T r t, deref T r d = Ok t -> m_id t <> nullEdge_t) ->
  (forall j r, m_nodes d !! j = Some (Some (Node_ROM r)) -> ROM.m_pc r < ROM.SIZE r) ->
  ready d.
Proof.
  intros Hok Hatt Hrom j n Hj.
  assert (Hres : forall f T t, Node_terminal n f = Some (T, t) -> resolves T t (m_edges d)).
  { intros f T t Ht.
    assert (Hd : deref T (mkTermRef j f) d = Ok t) by (apply deref_Ok; eauto).
    destruct (Hok _ _ _ Hd) as [Hid|?]; [|done]. by destruct (Hatt _ _ _ Hd). }
  destruct n as [c|g|r|p]; simpl.
  - by apply (Hres F_m_output).
  - split; [by apply (Hres F_m_inA)|]. split; [by apply (Hres F_m_inB)|].
    by apply (Hres F_m_output).
  - split; [by apply (Hres F_m_output)|]. by apply (Hrom j).
  - by apply (Hres F_m_input).
Qed.

(** X6. A circuit built through the interface (fresh nodes allocated,
    terminals connected, ROMs jumped, phases run; at most 2^32 wire
    slots) in which no terminal is left unattached and every ROM's
    position is inside its table runs any number of ticks without
    fault. *)
Theorem attached_circuit_never_faults (ops : list op) (w : World) (clk : nat)
    (Hrun : run ops World_init = Ok w)
    (Hfresh : fresh_adds ops)
    (Hfit : N.of_nat (length (m_edges (rData w))) <= 2 ^ 32)
    (Hattached : forall T r t, deref T r (rData w) = Ok t -> m_id t <> nullEdge_t)
    (Hrom : forall j r, m_nodes (rData w) !! j = Some (Some (Node_ROM r)) ->
              ROM.m_pc r < ROM.SIZE r) :
  exists w', run_ticks clk w = Ok w'.
Proof.
  assert (Hready : ready (rData w)).
  { apply terminals_ok_ready; [|done..].
    by apply (run_terminals_ok ops World_init w Hrun Hfresh Hfit terminals_ok_init). }
  clear - Hready. revert w Hready.
  induction clk as [|clk IH]; intros w Hready; simpl.
  - by exists w.
  - destruct (tick_total w Hready) as (w1 & H1 & Hw1). rewrite H1. simpl. by apply IH.
Qed.

(** The program of [main], run for 36 ticks. *)
Lemma attached_circuit_never_faults_witness :
  exists w', run_ticks 36 main_world = Ok w'.
Proof.
  pose proof main_ops_fresh as Hfresh.
  assert (Hfit : N.of_nat (length (m_edges (rData main_world))) <= 2 ^ 32)
    by (vm_compute; discriminate).
  apply (attached_circuit_never_faults main_ops main_world 36 eq_refl Hfresh Hfit).
  - intros T [[|[|[|j]]] f] t Ht; destruct f, T; simpl in Ht;
      try discriminate Ht; by injection Ht as <-.
  - intros [|[|[|j]]] r Hj; simpl in Hj; try discriminate Hj.
    by injection Hj as <-.
Defined.

(** ** A ROM sent past its table *)

Lemma ROM_propagate_past_table r w :
  ROM.SIZE r <= ROM.m_pc r -> ROM_propagate r w = Undefined ArrayOOB.
Proof.
  intros Hpc. unfold ROM_propagate, array_index.
  rewrite (lookup_ge_None_2 (ROM.m_data r)); [done|].
  unfold ROM.SIZE in Hpc. unfold uint32_t in *. lia.
Qed.

Lemma for_each_app (body : nat -> World -> outcome World) (l1 l2 : list nat) : forall w,
  for_each body (l1 ++ l2) w = (w1 <- for_each body l1 w ;; for_each body l2 w1).
Proof.
  induction l1 as [|i rest IH]; intros w; simpl; [done|].
  destruct (body i w) as [w1| |]; simpl; [apply IH|done..].
Qed.

Lemma seq_split (slot len : nat) :
  (slot < len)%nat ->
  seq 0 len = seq 0 slot ++ slot :: seq (S slot) (len - S slot).
Proof.
  intros Hlt. replace len with (slot + S (len - S slot))%nat at 1 by lia.
  by rewrite seq_app.
Qed.

Section phase_around.
Variable method : Node -> World -> outcome (Node * World).
Variable skip : nat.

Hypothesis method_total : forall n w,
  Node_ready (m_edges (rData w)) n ->
  exists r, method n w = Ok r /\
            m_nodes (rData r.2) = m_nodes (rData w) /\
            wire_frames (m_edges (rData r.2)) = wire_frames (m_edges (rData w)) /\
            Node_ready (m_edges (rData r.2)) r.1.

(** The loop over slots other than [skip] returns when every node outside
    [skip] is ready, and leaves slot [skip] as it was. *)
Lemma for_each_around slots : forall w,
  skip ∉ slots ->
  (forall j n, j <> skip -> m_nodes (rData w) !! j = Some (Some n) ->
               Node_ready (m_edges (rData w)) n) ->
  exists w',
    for_each (visit method) slots w = Ok w' /\
    (forall j n, j <> skip -> m_nodes (rData w') !! j = Some (Some n) ->
                 Node_ready (m_edges (rData w')) n) /\
    m_nodes (rData w') !! skip = m_nodes (rData w) !! skip.
Proof.
  induction slots as [|i rest IH]; intros w Hskip Hw; simpl.
  - by exists w.
  - apply not_elem_of_cons in Hskip as [Hne Hskip].
    unfold visit. destruct (m_nodes (rData w) !! i) as [[n|]|] eqn:E; simpl.
    + destruct (method_total n w (Hw i n (not_eq_sym Hne) E)) as (r & Hr & Hn & Hf & Hready).
      rewrite Hr. simpl.
      destruct (IH (store_node i r.1 r.2) Hskip) as (w' & Hloop & Hw' & Hs).
      { intros j n' Hj Hl. rewrite store_node_nodes, Hn in Hl. rewrite store_node_edges.
        destruct (decide (i = j)) as [<-|Hij].
        - rewrite list_lookup_insert_eq in Hl by (by apply lookup_lt_Some in E).
          by injection Hl as <-.
        - rewrite list_lookup_insert_ne in Hl by done.
          eapply Node_ready_frames; [symmetry; exact Hf|]. by apply (Hw j). }
      exists w'. split; [done|]. split; [done|].
      rewrite Hs, store_node_nodes, Hn. by apply list_lookup_insert_ne.
    + by apply IH.
    + by apply IH.
Qed.
End phase_around.

(** The process phase of an arena whose nodes are ready, one ROM apart:
    the ROM's process does nothing, so the phase returns and leaves the
    ROM as it was. *)
Lemma process_all_around_ROM w slot r :
  m_nodes (rData w) !! slot = Some (Some (Node_ROM r)) ->
  (forall j n, j <> slot -> m_nodes (rData w) !! j = Some (Some n) ->
               Node_ready (m_edges (rData w)) n) ->
  exists w1,
    process_all w = Ok w1 /\
    (forall j n, j <> slot -> m_nodes (rData w1) !! j = Some (Some n) ->
                 Node_ready (m_edges (rData w1)) n) /\
    m_nodes (rData w1) !! slot = Some (Some (Node_ROM r)).
Proof.
  intros Hrom Hw. unfold process_all, all_slots.
  rewrite (seq_split slot) by (by apply lookup_lt_Some in Hrom).
  rewrite for_each_app.
  destruct (for_each_around Node_process slot Node_process_total (seq 0 slot) w)
    as (wa & Ha & Hwa & Hsa); [|done|].
  { intros Hin. apply elem_of_seq in Hin. lia. }
  rewrite Ha. simpl. unfold visit at 1. rewrite Hsa, Hrom. simpl.
  destruct (for_each_around Node_process slot Node_process_total
              (seq (S slot) (length (m_nodes (rData w)) - S slot))
              (store_node slot (Node_ROM r) wa))
    as (w1 & H1 & Hw1 & Hs1).
  { intros Hin. apply elem_of_seq in Hin. lia. }
  { intros j n Hj Hl. rewrite store_node_nodes in Hl. rewrite store_node_edges.
    rewrite list_lookup_insert_ne in Hl by done. by apply (Hwa j). }
  exists w1. split; [done|]. split; [done|].
  rewrite Hs1, store_node_nodes. apply list_lookup_insert_eq.
  rewrite Hrom in Hsa. by apply lookup_lt_Some in Hsa.
Qed.

(** The propagate phase of such an arena, when the ROM's position is not
    inside its table: every call before the ROM's returns, and the ROM's
    indexes the table out of bounds. *)
Lemma propagate_all_past_table w slot r :
  m_nodes (rData w) !! slot = Some (Some (Node_ROM r)) ->
  ROM.SIZE r <= ROM.m_pc r ->
  (forall j n, j <> slot -> m_nodes (rData w) !! j = Some (Some n) ->
               Node_ready (m_edges (rData w)) n) ->
  propagate_all w = Undefined ArrayOOB.
Proof.
  intros Hrom Hpc Hw. unfold propagate_all, all_slots.
  rewrite (seq_split slot) by (by apply lookup_lt_Some in Hrom).
  rewrite for_each_app.
  destruct (for_each_around Node_propagate slot Node_propagate_total (seq 0 slot) w)
    as (wa & Ha & Hwa & Hsa); [|done|].
  { intros Hin. apply elem_of_seq in Hin. lia. }
  rewrite Ha. simpl. unfold visit at 1. rewrite Hsa, Hrom. simpl.
  unfold dispatched. by rewrite (ROM_propagate_past_table r wa Hpc).
Qed.

(** X7. [jmp] accepts any address.  After a jump to an address that is
    not below the table length (any address, for an empty table) the
    ROM's next propagate indexes the table out of bounds, which is
    undefined behaviour, whatever its output is wired to.  In an arena
    whose other nodes are all ready, the first tick after the jump
    reaches that call: the process phase returns, the propagate calls
    before the ROM's return, and the tick has undefined behaviour. *)
Theorem jmp_past_table_undefined (w : World) (slot : nat) (addr : uint32_t) (r : ROM.t)
    (Hrom : m_nodes (rData w) !! slot = Some (Some (Node_ROM r)))
    (Haddr : ROM.SIZE r <= addr)
    (Hothers : forall j n, j <> slot -> m_nodes (rData w) !! j = Some (Some n) ->
                           Node_ready (m_edges (rData w)) n) :
  exists d',
    jmp_at slot addr (rData w) = Ok d' /\
    m_nodes d' !! slot = Some (Some (Node_ROM (ROM.jmp addr r))) /\
    (forall w0, ROM_propagate (ROM.jmp addr r) w0 = Undefined ArrayOOB) /\
    tick (set_rData d' w) = Undefined ArrayOOB.
Proof.
  unfold jmp_at. rewrite Hrom. eexists. split; [reflexivity|].
  set (d' := set_m_nodes _ (rData w)).
  assert (Hslot : m_nodes d' !! slot = Some (Some (Node_ROM (ROM.jmp addr r)))).
  { simpl. apply list_lookup_insert_eq. by apply lookup_lt_Some in Hrom. }
  split; [exact Hslot|].
  split; [intros w0; by apply ROM_propagate_past_table|].
  destruct (process_all_around_ROM (set_rData d' w) slot (ROM.jmp addr r) Hslot)
    as (w1 & H1 & Hw1 & Hs1).
  { intros j n Hj Hl. simpl in *. rewrite list_lookup_insert_ne in Hl by done.
    by apply (Hothers j). }
  unfold tick. rewrite H1. simpl.
  by apply (propagate_all_past_table w1 slot (ROM.jmp addr r)).
Qed.

(** The ROM of [main], sent to address 16 of its sixteen entries: the
    printer, the only other node, is ready. *)
Lemma jmp_past_table_undefined_witness :
  exists d',
    jmp_at 2 16 main_data = Ok d' /\
    tick (set_rData d' main_world) = Undefined ArrayOOB.
Proof.
  assert (Haddr : ROM.SIZE (ROM.mk romData 0 (mkNodeTerminal 0 1)) <= 16)
    by (vm_compute; discriminate).
  assert (Hothers : forall j n, j <> 2%nat -> m_nodes (rData main_world) !! j = Some (Some n) ->
                                Node_ready (m_edges (rData main_world)) n).
  { intros [|[|[|[|j]]]] n Hj Hl; try discriminate Hl; [|by destruct Hj].
    injection Hl as <-. simpl. eexists. split; [reflexivity|reflexivity]. }
  destruct (jmp_past_table_undefined main_world 2 16
              (ROM.mk romData 0 (mkNodeTerminal 0 1)) eq_refl Haddr Hothers)
    as (d' & Hd & _ & _ & Hub).
  by exists d'.
Defined.

(** ** Allocation and lookup *)

(** X8. While the node count fits the 32-bit identity, the identity [add]
    returns, looked up with the node's own type, yields a well-typed
    pointer to the slot holding exactly the node that was passed; and
    [add] changes no earlier lookup and no terminal resolution. *)
Theorem add_then_get (node : Node) (d : CircuitData)
    (Hfit : N.of_nat (length (m_nodes d)) < 2 ^ 32) :
  exists p,
    get (kind_of node) (add node d).1 (add node d).2 = Ok p /\
    target p = Some (length (m_nodes d)) /\
    m_nodes (add node d).2 !! length (m_nodes d) = Some (Some node) /\
    well_typed_ptr p (add node d).2 /\
    (forall K id, id < N.of_nat (length (m_nodes d)) ->
       get K id (add node d).2 = get K id d) /\
    (forall T t, NodeTerminal_get T t (add node d).2 = NodeTerminal_get T t d).
Proof.
  unfold add. simpl. rewrite (to_uint32_small _ Hfit).
  assert (Hslot : (m_nodes d ++ [Some node]) !! length (m_nodes d) = Some (Some node))
    by (by apply list_lookup_middle).
  eexists. split.
  { apply (get_Ok_slot _ _ _ node). apply at_Ok. simpl. by rewrite Nat2N.id. }
  simpl. rewrite Nat2N.id. split; [done|]. split; [done|]. split.
  { unfold well_typed_ptr. simpl. by rewrite Hslot. }
  split; [|done].
  intros K id Hid. unfold get, at_. simpl.
  rewrite lookup_app_l by lia. done.
Qed.

(** The printer of [main], allocated into the fresh arena. *)
Lemma add_then_get_witness :
  exists p,
    get (K_Printer T_uint32) 1 (add (Node_Printer (Printer.init T_uint32)) CircuitData_init).2
      = Ok p /\
    target p = Some 1%nat.
Proof.
  assert (Hfit : N.of_nat (length (m_nodes CircuitData_init)) < 2 ^ 32) by reflexivity.
  destruct (add_then_get (Node_Printer (Printer.init T_uint32)) CircuitData_init Hfit)
    as (p & Hp & Ht & _).
  exists p. split; [exact Hp|exact Ht].
Defined.

(** ** What connect leaves alone *)

Lemma connect_nodes T a b d d' :
  connect T a b d = Ok d' ->
  exists fa fb,
    m_nodes d' = alter fb (owner b) (alter fa (owner a) (m_nodes d)).
Proof.
  destruct d as [es ns].
  unfold connect, assign_m_id, set_m_edges, set_m_nodes. simpl. intros H.
  inv_bind H. inv_bind Hcall. injection Hcall as <-.
  inv_bind H. inv_bind Hcall. injection Hcall as <-. simpl in *.
  inv_bind H. inv_bind H. injection H as <-. simpl. eauto.
Qed.

(** Assigning the wire identity of a terminal changes nothing else of
    the node that holds it. *)
Lemma unwired_set_m_id n f T t id :
  Node_terminal n f = Some (T, t) ->
  unwired (Node_set_terminal f (set_m_id id t) n) = unwired n.
Proof.
  destruct n as [c|g|r|p], f; simpl; intros Ht; try discriminate Ht;
    injection Ht as <- <-; reflexivity.
Qed.

Lemma assign_m_id_unwired T r id d d' :
  assign_m_id T r id d = Ok d' ->
  m_edges d' = m_edges d /\
  fmap (M:=list) (fmap (M:=option) unwired) (m_nodes d')
    = fmap (M:=list) (fmap (M:=option) unwired) (m_nodes d).
Proof.
  unfold assign_m_id. intros H. inv_bind H. rename a into t. injection H as <-.
  split; [done|]. simpl.
  apply deref_Ok in Hcall as (n & Hn & Ht).
  apply list_eq. intros j. rewrite !list_lookup_fmap.
  destruct (decide (j = owner r)) as [->|Hne].
  - rewrite list_lookup_alter_eq, Hn. simpl.
    by rewrite (unwired_set_m_id _ _ _ _ _ Ht).
  - by rewrite list_lookup_alter_ne.
Qed.

Lemma connect_unwired T a b d d' :
  connect T a b d = Ok d' ->
  fmap (M:=list) (fmap (M:=option) unwired) (m_nodes d')
    = fmap (M:=list) (fmap (M:=option) unwired) (m_nodes d).
Proof.
  unfold connect. intros H.
  inv_bind H. rename a0 into d1, Hcall into H1.
  inv_bind H. rename a0 into d2, Hcall into H2.
  inv_bind H. inv_bind H. injection H as <-. simpl.
  apply assign_m_id_unwired in H1 as [_ H1], H2 as [_ H2].
  by rewrite H2, H1.
Qed.

(** X9. A connect that returns has changed the wire identity held by the
    two terminals it was given, and nothing else in the nodes: with the
    wire identities of all terminals set aside, every node object is what
    it was (its state, its table and position, its output value, the
    owner identities of its terminals); the two terminals hold the new
    identity and the owner identity they held; every other terminal
    reads as before, wire identity included; every node slot other than
    the two owners holds what it held; the number and the dynamic types of
    the nodes are the same; and every wire that existed is still in its
    slot, unchanged, with one wire added. *)
Theorem connect_frame (T : data_t) (a b : TermRef) (d d' : CircuitData)
    (Hconnect : connect T a b d = Ok d') :
  (forall T' r, r <> a -> r <> b -> deref T' r d' = deref T' r d) /\
  (forall j, j <> owner a -> j <> owner b -> m_nodes d' !! j = m_nodes d !! j) /\
  length (m_nodes d') = length (m_nodes d) /\
  node_kinds d' = node_kinds d /\
  m_edges d `prefix_of` m_edges d' /\
  length (m_edges d') = S (length (m_edges d)) /\
  fmap (M:=list) (fmap (M:=option) unwired) (m_nodes d')
    = fmap (M:=list) (fmap (M:=option) unwired) (m_nodes d) /\
  (exists ta tb,
     deref T a d = Ok ta /\ deref T b d = Ok tb /\
     deref T a d' = Ok (set_m_id (to_uint32 (N.of_nat (length (m_edges d)))) ta) /\
     deref T b d' = Ok (set_m_id (to_uint32 (N.of_nat (length (m_edges d)))) tb)).
Proof.
  destruct (connect_Ok _ _ _ _ _ Hconnect) as (ta & tb & Ha & Hb).
  destruct (connect_spec T a b d ta tb Ha Hb)
    as (d'' & Hc & He & Ha' & Hb' & Hk & Hlen & Hoth).
  rewrite Hconnect in Hc. injection Hc as <-.
  split; [exact Hoth|]. split.
  { destruct (connect_nodes _ _ _ _ _ Hconnect) as (fa & fb & ->).
    intros j Hja Hjb. by rewrite !list_lookup_alter_ne. }
  split; [done|]. split; [done|]. split.
  { rewrite He. by eexists. }
  split.
  { rewrite He, length_app. simpl. lia. }
  split; [by apply (connect_unwired T a b)|].
  by exists ta, tb.
Qed.

(** The connect of [main] leaves the terminals of a third node alone,
    and the ROM with its table and its position at 0. *)
Lemma connect_frame_witness :
  let d := (add (Node_Constant Constant.init) main_nodes).2 in
  exists d',
    connect T_uint32 (mkTermRef 2 F_m_output) (mkTermRef 1 F_m_input) d = Ok d' /\
    deref T_bool (mkTermRef 3 F_m_output) d' = Ok NodeTerminal_init /\
    m_nodes d' !! 3%nat = Some (Some (Node_Constant Constant.init)) /\
    fmap (M:=option) unwired <$> m_nodes d' !! 2%nat
      = Some (Some (Node_ROM (ROM.mk romData 0 NodeTerminal_init))).
Proof.
  intros d.
  destruct (connect T_uint32 (mkTermRef 2 F_m_output) (mkTermRef 1 F_m_input) d)
    as [d'| |] eqn:E; [|discriminate E..].
  exists d'. split; [reflexivity|].
  destruct (connect_frame _ _ _ _ _ E) as (Hoth & Hslots & _ & _ & _ & _ & Hun & _).
  split; [|split].
  - rewrite Hoth; [reflexivity|discriminate|discriminate].
  - rewrite Hslots; [reflexivity|discriminate|discriminate].
  - rewrite <- list_lookup_fmap, Hun. reflexivity.
Defined.

(** ** Wires as shared cells *)

(** X10. A write through a terminal that returns is seen by every
    terminal holding the same wire identity, is seen by no terminal
    holding another identity, keeps the wire's endpoints and value type,
    and changes no node. *)
Theorem terminal_write_read (T : data_t) (t : NodeTerminal) (v : cpp_type T)
    (d d' : CircuitData)
    (Hwrite : NodeTerminal_assign T t v d = Ok d') :
  (exists x, NodeTerminal_get T t d = Ok x /\
     forall t', m_id t' = m_id t ->
       NodeTerminal_get T t' d' = Ok (mkWireNode v (m_in x) (m_out x))) /\
  (forall T' t', m_id t' <> m_id t ->
     NodeTerminal_get T' t' d' = NodeTerminal_get T' t' d) /\
  wire_frames (m_edges d') = wire_frames (m_edges d) /\
  m_nodes d' = m_nodes d.
Proof.
  pose proof (NodeTerminal_assign_frames _ _ _ _ _ Hwrite) as [Hn Hf].
  pose proof (NodeTerminal_assign_get _ _ _ _ _ Hwrite) as (x & Hx & Hx').
  apply NodeTerminal_assign_Ok in Hwrite as (x0 & Hx0 & _ & He).
  split.
  { exists x. split; [done|]. intros t' Hid.
    apply NodeTerminal_get_Ok. rewrite Hid. by apply NodeTerminal_get_Ok. }
  split; [|done].
  intros T' t' Hid. unfold NodeTerminal_get, at_. rewrite He.
  rewrite list_lookup_insert_ne; [done|].
  intros Heq. apply Hid. by apply N2Nat.inj.
Qed.

(** The ROM of [main] writes 7 through its output terminal; the printer's
    input terminal, attached to the same wire, reads 7. *)
Lemma terminal_write_read_witness :
  exists d',
    NodeTerminal_assign T_uint32 (mkNodeTerminal 0 1) 7 main_data = Ok d' /\
    NodeTerminal_get T_uint32 (mkNodeTerminal 5 1) d' = Ok (mkWireNode 7 0 0).
Proof.
  destruct (NodeTerminal_assign T_uint32 (mkNodeTerminal 0 1) 7 main_data)
    as [d'| |] eqn:E; [|discriminate E..].
  exists d'. split; [reflexivity|].
  destruct (terminal_write_read _ _ _ _ _ E) as ((x & Hx & Hsame) & _).
  injection Hx as <-. exact (Hsame (mkNodeTerminal 5 1) eq_refl).
Defined.

(** ** The output channel *)

Lemma step_cout o w w' :
  step o w = Ok w' ->
  cout w `prefix_of` cout w' /\ (o <> Op_process_all -> cout w' = cout w).
Proof.
  destruct o as [node|T a b|slot addr| |]; simpl; intros H.
  - by injection H as <-.
  - inv_bind H. by injection H as <-.
  - inv_bind H. by injection H as <-.
  - apply process_all_cout in H. rewrite H. split; [by eexists|done].
  - apply propagate_all_spec in H as (_ & -> & _). done.
Qed.

(** X11. Nothing written to [cout] is ever taken back or altered: across
    any sequence of allocations, connects, jumps and phases the lines
    written before are a prefix of the lines written after; and only the
    process phase writes, so a sequence without one leaves [cout] as it
    is. *)
Theorem output_only_grows (ops : list op) (w w' : World)
    (Hrun : run ops w = Ok w') :
  cout w `prefix_of` cout w' /\
  (~ In Op_process_all ops -> cout w' = cout w).
Proof.
  revert w Hrun. induction ops as [|o ops IH]; intros w Hrun; simpl in Hrun.
  - by injection Hrun as <-.
  - inv_bind Hrun. rename a into w1.
    destruct (step_cout _ _ _ Hcall) as [Hp Hsame].
    destruct (IH w1 Hrun) as [Hp' Hsame'].
    split; [by etrans|].
    intros Hno. rewrite Hsame', Hsame; [done| |].
    + intros ->. apply Hno. by left.
    + intros Hin. apply Hno. by right.
Qed.

(** The second tick of [main]: the line of the first tick is still
    first. *)
Lemma output_only_grows_witness :
  run [Op_process_all; Op_propagate_all] (main_after 1) = Ok (main_after 2) /\
  cout (main_after 1) `prefix_of` cout (main_after 2).
Proof.
  assert (E : run [Op_process_all; Op_propagate_all] (main_after 1) = Ok (main_after 2))
    by reflexivity.
  split; [exact E|]. exact (proj1 (output_only_grows _ _ _ E)).
Defined.

(** ** Independence of the arena order *)

Lemma drive_not_driver i content slot :
  is_driver i slot <> true -> drive i content slot = content.
Proof.
  destruct slot as [n|]; simpl; [|done].
  destruct (output_terminal n) as [t|]; [|done].
  intros H. destruct (decide _) as [Hi|]; [|done].
  destruct H. by apply bool_decide_eq_true.
Qed.

Lemma foldl_drive_drivers i (slots : list (option Node)) : forall content,
  foldl (drive i) content slots = foldl (drive i) content (drivers i slots).
Proof.
  unfold drivers. induction slots as [|slot slots IH]; intros content; [done|].
  rewrite filter_cons. destruct (decide (is_driver i slot = true)) as [Hd|Hd]; simpl.
  - apply IH.
  - rewrite (drive_not_driver _ _ _ Hd). apply IH.
Qed.

Lemma foldl_drive_permutation i (l1 l2 : list (option Node)) content :
  l1 ≡ₚ l2 ->
  (length (drivers i l1) <= 1)%nat ->
  foldl (drive i) content l1 = foldl (drive i) content l2.
Proof.
  intros Hp Hlen. rewrite (foldl_drive_drivers i l1), (foldl_drive_drivers i l2).
  assert (Hd : drivers i l1 ≡ₚ drivers i l2) by (unfold drivers; by rewrite Hp).
  destruct (drivers i l1) as [|s [|s' rest]].
  - apply Permutation_nil_l in Hd as <-. done.
  - apply Permutation_singleton_l in Hd as <-. done.
  - simpl in Hlen. lia.
Qed.

Lemma Node_process_processed n w r :
  Node_process n w = Ok r -> r.1 = processed (rData w) n.
Proof.
  destruct n as [c|g|r0|p]; intros H;
    apply dispatched_Ok in H as (k & w' & H & ->); simpl.
  - by injection H as <- <-.
  - unfold ANDGate_process in H.
    destruct (NodeTerminal_get T_bool (ANDGate.m_inA g) (rData w)) as [a| |];
      simpl in H; [|discriminate..].
    destruct a as [[|] ia oa]; simpl in *.
    + destruct (NodeTerminal_get T_bool (ANDGate.m_inB g) (rData w)) as [b| |];
        simpl in H; [|discriminate..]. by injection H as <- <-.
    + by injection H as <- <-.
  - by injection H as <- <-.
  - unfold Printer_process in H. inv_bind H. by injection H as <- <-.
Qed.

Lemma process_all_nodes w w' :
  process_all w = Ok w' ->
  m_nodes (rData w')
    = fmap (M:=list) (fmap (M:=option) (processed (rData w))) (m_nodes (rData w)).
Proof.
  intros H. apply process_all_spec in H as (_ & Hlen & Hnull & Hin).
  apply list_eq. intros j. rewrite list_lookup_fmap.
  destruct (m_nodes (rData w) !! j) as [[n|]|] eqn:E; simpl.
  - destruct (Hin j n E) as (r & Hr & ->).
    by rewrite (Node_process_processed _ _ _ Hr).
  - by apply Hnull.
  - apply lookup_ge_None. rewrite Hlen. by apply lookup_ge_None.
Qed.

Lemma processed_edges d1 d2 n :
  m_edges d1 = m_edges d2 -> processed d1 n = processed d2 n.
Proof.
  intros He. destruct n as [c|g|r|p]; simpl; try done.
  by rewrite (NodeTerminal_get_edges _ (ANDGate.m_inA g) _ _ He),
             (NodeTerminal_get_edges _ (ANDGate.m_inB g) _ _ He).
Qed.

Lemma processed_output d n : output_terminal (processed d n) = output_terminal n.
Proof.
  destruct n as [c|g|r|p]; simpl; try done.
  destruct (NodeTerminal_get T_bool (ANDGate.m_inA g) d) as [a| |]; try done.
  destruct a as [[|] ia oa]; simpl; [|done].
  by destruct (NodeTerminal_get T_bool (ANDGate.m_inB g) d).
Qed.

Lemma drivers_processed i d (slots : list (option Node)) :
  drivers i (fmap (M:=list) (fmap (M:=option) (processed d)) slots)
  = fmap (M:=list) (fmap (M:=option) (processed d)) (drivers i slots).
Proof.
  unfold drivers. induction slots as [|slot slots IH]; [done|].
  rewrite fmap_cons, !filter_cons, IH.
  assert (Hsame : is_driver i (processed d <$> slot) = is_driver i slot).
  { destruct slot as [n|]; simpl; [|done]. by rewrite processed_output. }
  rewrite Hsame. by destruct (decide (is_driver i slot = true)).
Qed.

(** X12. The order of the nodes in the arena does not matter to the
    wires, as long as no wire has two drivers: if two arenas hold the
    same wires and the same nodes in different orders, and both are
    ticked, the wires are the same afterwards. *)
Theorem tick_order_independent (w v w' v' : World)
    (Hedges : m_edges (rData v) = m_edges (rData w))
    (Hnodes : m_nodes (rData v) ≡ₚ m_nodes (rData w))
    (Hsingle : forall i, (length (drivers i (m_nodes (rData w))) <= 1)%nat)
    (Hw : tick w = Ok w') (Hv : tick v = Ok v') :
  m_edges (rData v') = m_edges (rData w').
Proof.
  unfold tick in Hw, Hv. inv_bind Hw. rename a into w1. inv_bind Hv. rename a into v1.
  pose proof (process_all_spec _ _ Hcall) as (Hew & _).
  pose proof (process_all_spec _ _ Hcall0) as (Hev & _).
  pose proof (process_all_nodes _ _ Hcall) as Hnw.
  pose proof (process_all_nodes _ _ Hcall0) as Hnv.
  assert (Hnv' : m_nodes (rData v1)
            = fmap (M:=list) (fmap (M:=option) (processed (rData w))) (m_nodes (rData v))).
  { rewrite Hnv. apply list_fmap_ext. intros j [n|] _; simpl; [|done].
    f_equal. by apply processed_edges. }
  assert (Hperm : m_nodes (rData v1) ≡ₚ m_nodes (rData w1)) by (by rewrite Hnv', Hnw, Hnodes).
  apply list_eq. intros i.
  rewrite (propagate_all_wires_fold _ _ i Hv), (propagate_all_wires_fold _ _ i Hw).
  rewrite Hev, Hew, Hedges. symmetry. apply foldl_drive_permutation; [by symmetry|].
  rewrite Hnw, drivers_processed, length_fmap. apply Hsingle.
Qed.

(** The fed-back gate and its constant, in two orders. *)
Lemma tick_order_independent_witness :
  exists w' v',
    tick feedback_world = Ok w' /\
    tick feedback_world_rotated = Ok v' /\
    m_edges (rData v') = m_edges (rData w').
Proof.
  destruct (tick feedback_world) as [w'| |] eqn:Ew; [|discriminate Ew..].
  destruct (tick feedback_world_rotated) as [v'| |] eqn:Ev; [|discriminate Ev..].
  exists w', v'. split; [reflexivity|]. split; [reflexivity|].
  apply (tick_order_independent feedback_world feedback_world_rotated w' v');
    [reflexivity| | |exact Ew|exact Ev].
  - simpl. apply Permutation_cons_append.
  - intros [|[|[|i]]]; vm_compute; lia.
Defined.

(** ** One line per printer and tick *)

Lemma line_of_length n w r :
  Node_process n w = Ok r ->
  length (line_of (rData w) (Some n)) = if is_Printer (Some n) then 1%nat else 0%nat.
Proof.
  destruct n as [c|g|r0|p]; intros H; simpl; try done.
  apply dispatched_Ok in H as (k & w' & H & _).
  unfold Printer_process in H. inv_bind H. by rewrite Hcall.
Qed.

Lemma lines_length w (slots : list (option Node)) :
  (forall n, Some n ∈ slots -> exists r, Node_process n w = Ok r) ->
  length (flat_map (line_of (rData w)) slots)
  = length (filter (fun slot => is_Printer slot = true) slots).
Proof.
  induction slots as [|slot slots IH]; intros Hall; [done|].
  simpl. rewrite length_app, filter_cons, IH by (intros n Hn; apply Hall; by right).
  destruct slot as [n|].
  - destruct (Hall n) as (r & Hr); [by left|].
    rewrite (line_of_length _ _ _ Hr).
    destruct (decide (is_Printer (Some n) = true)) as [->|Hne]; [done|].
    by destruct (is_Printer (Some n)).
  - destruct (decide (is_Printer None = true)) as [H|_]; [discriminate H|done].
Qed.

Lemma printers_fmap (g : Node -> Node) (slots : list (option Node)) :
  (forall n, is_Printer (Some (g n)) = is_Printer (Some n)) ->
  length (filter (fun slot => is_Printer slot = true)
            (fmap (M:=list) (fmap (M:=option) g) slots))
  = length (filter (fun slot => is_Printer slot = true) slots).
Proof.
  intros Hg. induction slots as [|slot slots IH]; [done|].
  rewrite fmap_cons, !filter_cons.
  assert (Hsame : is_Printer (g <$> slot) = is_Printer slot).
  { destruct slot as [n|]; [apply Hg|done]. }
  rewrite Hsame. destruct (decide (is_Printer slot = true)); simpl; by rewrite IH.
Qed.

Lemma processed_is_Printer d n :
  is_Printer (Some (processed d n)) = is_Printer (Some n).
Proof.
  destruct n as [c|g|r|p]; simpl; try done.
  destruct (NodeTerminal_get T_bool (ANDGate.m_inA g) d) as [a| |]; try done.
  destruct a as [[|] ia oa]; simpl; [|done].
  by destruct (NodeTerminal_get T_bool (ANDGate.m_inB g) d).
Qed.

Lemma tick_lines w w' :
  tick w = Ok w' ->
  length (cout w') = (length (cout w) + printers (rData w))%nat /\
  printers (rData w') = printers (rData w).
Proof.
  intros H. unfold tick in H. inv_bind H. rename a into w1.
  pose proof (process_all_cout _ _ Hcall) as Hc.
  pose proof (process_all_spec _ _ Hcall) as (_ & _ & _ & Hproc).
  pose proof (process_all_nodes _ _ Hcall) as Hn1.
  pose proof (propagate_all_nodes _ _ H) as Hn2.
  apply propagate_all_spec in H as (_ & Hc2 & _).
  split.
  - rewrite Hc2, Hc, length_app. f_equal. unfold lines_of, printers.
    apply lines_length. intros n Hn. apply list_elem_of_lookup in Hn as (j & Hj).
    destruct (Hproc j n Hj) as (r & Hr & _). eauto.
  - unfold printers. rewrite Hn2, Hn1.
    rewrite printers_fmap by (by intros []).
    apply printers_fmap. apply processed_is_Printer.
Qed.

(** X13. Every printer writes exactly one line in every tick: after
    [clk] ticks that return, [cout] is longer by [clk] times the number of
    printers in the arena, a number the ticks do not change. *)
Theorem one_line_per_printer_and_tick (w w' : World) (clk : nat)
    (Hrun : run_ticks clk w = Ok w') :
  length (cout w') = (length (cout w) + clk * printers (rData w))%nat /\
  printers (rData w') = printers (rData w).
Proof.
  revert w Hrun. induction clk as [|clk IH]; intros w Hrun; simpl in Hrun.
  - injection Hrun as <-. split; [lia|done].
  - inv_bind Hrun. rename a into w1.
    destruct (tick_lines _ _ Hcall) as [Hlen Hp].
    destruct (IH w1 Hrun) as [Hlen' Hp'].
    rewrite Hlen', Hlen, Hp', Hp. split; [lia|done].
Qed.

(** [main]: one printer, 36 ticks, 36 lines. *)
Lemma one_line_per_printer_and_tick_witness :
  run_ticks 36 main_world = Ok (main_after 36) /\
  length (cout (main_after 36)) = 36%nat.
Proof.
  assert (E : run_ticks 36 main_world = Ok (main_after 36)) by (vm_compute; reflexivity).
  split; [exact E|].
  exact (proj1 (one_line_per_printer_and_tick main_world (main_after 36) 36 E)).
Defined.

(** ** From two constants to a gate's output *)

Lemma is_driver_drives i n : is_driver i (Some n) = true <-> drives i n.
Proof.
  unfold drives. simpl. destruct (output_terminal n) as [t|].
  - rewrite bool_decide_eq_true. split.
    + intros Hi. by exists t.
    + intros (t' & [= <-] & Hi). done.
  - split; [discriminate|]. intros (t' & Ht & _). discriminate.
Qed.

(** With at most one driver per wire, two node slots driving the same
    wire are the same slot. *)
Lemma drivers_single i (slots : list (option Node)) j1 j2 n1 n2 :
  (length (drivers i slots) <= 1)%nat ->
  slots !! j1 = Some (Some n1) -> slots !! j2 = Some (Some n2) ->
  drives i n1 -> drives i n2 -> j1 = j2.
Proof.
  assert (Hlt : forall j1 j2 n1 n2, (j1 < j2)%nat ->
            slots !! j1 = Some (Some n1) -> slots !! j2 = Some (Some n2) ->
            drives i n1 -> drives i n2 -> (2 <= length (drivers i slots))%nat).
  { clear. intros j1 j2 n1 n2 Hlt H1 H2 Hd1 Hd2.
    apply is_driver_drives in Hd1, Hd2.
    rewrite <- (take_drop_middle _ _ _ H1). unfold drivers.
    rewrite filter_app, filter_cons_True by done. rewrite length_app. simpl.
    assert (Hin : Some n2 ∈ filter (fun slot => is_driver i slot = true) (drop (S j1) slots)).
    { apply list_elem_of_filter. split; [done|]. apply list_elem_of_lookup.
      exists (j2 - S j1)%nat. rewrite lookup_drop. rewrite <- H2. f_equal. lia. }
    destruct (filter _ (drop (S j1) slots)) as [|s rest]; [by apply elem_of_nil in Hin|].
    simpl. lia. }
  intros Hlen H1 H2 Hd1 Hd2.
  destruct (lt_eq_lt_dec j1 j2) as [[Hl|Heq]|Hl]; [|done|].
  - pose proof (Hlt j1 j2 n1 n2 Hl H1 H2 Hd1 Hd2). lia.
  - pose proof (Hlt j2 j1 n2 n1 Hl H2 H1 Hd2 Hd1). lia.
Qed.

Lemma drivers_fmap i (g : Node -> Node) (slots : list (option Node)) :
  (forall n, output_terminal (g n) = output_terminal n) ->
  length (drivers i (fmap (M:=list) (fmap (M:=option) g) slots))
  = length (drivers i slots).
Proof.
  intros Hg. unfold drivers. induction slots as [|slot slots IH]; [done|].
  rewrite fmap_cons, !filter_cons.
  assert (Hsame : is_driver i (g <$> slot) = is_driver i slot).
  { destruct slot as [n|]; simpl; [|done]. by rewrite Hg. }
  rewrite Hsame. destruct (decide (is_driver i slot = true)); simpl; by rewrite IH.
Qed.

Lemma stepped_output n : output_terminal (stepped n) = output_terminal n.
Proof. by destruct n. Qed.

(** The nodes after a whole tick. *)
Lemma tick_nodes w w' :
  tick w = Ok w' ->
  m_nodes (rData w')
  = fmap (M:=list) (fmap (M:=option) (fun n => stepped (processed (rData w) n)))
      (m_nodes (rData w)).
Proof.
  intros H. unfold tick in H. inv_bind H.
  rewrite (propagate_all_nodes _ _ H), (process_all_nodes _ _ Hcall).
  rewrite <- list_fmap_compose. apply list_fmap_ext. by intros j [n|] _.
Qed.

Lemma NodeTerminal_get_id T t t' d :
  m_id t = m_id t' -> NodeTerminal_get T t d = NodeTerminal_get T t' d.
Proof. unfold NodeTerminal_get. by intros ->. Qed.

(** X14. Two ticks carry the states of two constants through an AND
    gate: if the gate's inputs are attached to the wires the constants
    drive, and no wire has two drivers, then after two ticks the gate's
    output wire carries the conjunction of the two constants' states. *)
Theorem constants_reach_gate_output (w w2 : World) (jg j1 j2 : nat)
    (g : ANDGate.t) (c1 c2 : Constant.t)
    (Hg : m_nodes (rData w) !! jg = Some (Some (Node_ANDGate g)))
    (H1 : m_nodes (rData w) !! j1 = Some (Some (Node_Constant c1)))
    (H2 : m_nodes (rData w) !! j2 = Some (Some (Node_Constant c2)))
    (HA : m_id (Constant.m_output c1) = m_id (ANDGate.m_inA g))
    (HB : m_id (Constant.m_output c2) = m_id (ANDGate.m_inB g))
    (Hsingle : forall i, (length (drivers i (m_nodes (rData w))) <= 1)%nat)
    (Hrun : run_ticks 2 w = Ok w2) :
  exists x,
    NodeTerminal_get T_bool (ANDGate.m_output g) (rData w2) = Ok x /\
    m_value x = Constant.m_state c1 && Constant.m_state c2.
Proof.
  simpl in Hrun. inv_bind Hrun. rename a into w1. inv_bind Hrun. injection Hrun as ->.
  rename Hcall into Ht1, Hcall0 into Ht2.
  (* the first tick brings the constants onto the gate's input wires *)
  assert (Hconst : forall j c, m_nodes (rData w) !! j = Some (Some (Node_Constant c)) ->
            exists x, NodeTerminal_get T_bool (Constant.m_output c) (rData w1) = Ok x /\
                      m_value x = Constant.m_state c).
  { intros j c Hj.
    destruct (tick_sole_driver_wire w w1 j (Node_Constant c) (Constant.m_output c)
                Ht1 Hj eq_refl) as (c0 & r1 & Hc0 & HT & Hr1 & Hc1 & _).
    { intros j' n' Hne Hj' Hd. apply Hne.
      eapply (drivers_single _ _ j' j n' (Node_Constant c) (Hsingle _) Hj' Hj Hd).
      by exists (Constant.m_output c). }
    injection Hr1 as <-. destruct c0 as [x|x]; [|discriminate HT].
    eexists. split; [apply NodeTerminal_get_Ok; exact Hc1|done]. }
  destruct (Hconst j1 c1 H1) as (a & Ha & Hva).
  destruct (Hconst j2 c2 H2) as (b & Hb & Hvb).
  rewrite (NodeTerminal_get_id _ _ _ _ HA) in Ha.
  rewrite (NodeTerminal_get_id _ _ _ _ HB) in Hb.
  (* the gate after the first tick: the same terminals *)
  pose proof (tick_nodes _ _ Ht1) as Hn1.
  assert (Hg1 : exists v, m_nodes (rData w1) !! jg
                          = Some (Some (Node_ANDGate (ANDGate.set_m_outVal v g)))).
  { rewrite Hn1, list_lookup_fmap, Hg. simpl.
    destruct (NodeTerminal_get T_bool (ANDGate.m_inA g) (rData w)) as [a0| |];
      [|exists (ANDGate.m_outVal g); by destruct g..].
    destruct a0 as [[|] ia oa]; simpl; [|by eexists].
    destruct (NodeTerminal_get T_bool (ANDGate.m_inB g) (rData w)) as [b0| |];
      [by eexists|exists (ANDGate.m_outVal g); by destruct g..]. }
  destruct Hg1 as (v & Hg1).
  assert (Hsingle1 : forall i, (length (drivers i (m_nodes (rData w1))) <= 1)%nat).
  { intros i. rewrite Hn1, drivers_fmap; [apply Hsingle|].
    intros n. by rewrite stepped_output, processed_output. }
  (* the second tick brings their conjunction onto the gate's output wire *)
  destruct (tick_sole_driver_wire w1 w2 jg _ (ANDGate.m_output g) Ht2 Hg1 eq_refl)
    as (c0 & r1 & Hc0 & HT & Hr1 & Hc1 & _).
  { intros j' n' Hne Hj' Hd. apply Hne.
    eapply (drivers_single _ _ j' jg n' _ (Hsingle1 _) Hj' Hg1 Hd).
    by exists (ANDGate.m_output g). }
  rewrite (ANDGate_process_value (ANDGate.set_m_outVal v g) w1 a b Ha Hb) in Hr1.
  injection Hr1 as <-. destruct c0 as [x|x]; [|discriminate HT].
  eexists. split; [apply NodeTerminal_get_Ok; exact Hc1|].
  exact (f_equal2 andb Hva Hvb).
Qed.

(** Two true constants: the gate's output wire, false at the start,
    carries true after two ticks. *)
Lemma constants_reach_gate_output_witness :
  exists w2 x,
    run_ticks 2 and_world = Ok w2 /\
    NodeTerminal_get T_bool (mkNodeTerminal 0 3) (rData w2) = Ok x /\
    m_value x = true.
Proof.
  assert (E : exists w2, run_ticks 2 and_world = Ok w2)
    by (vm_compute; eexists; reflexivity).
  destruct E as [w2 E].
  assert (Hsingle : forall i, (length (drivers i (m_nodes (rData and_world))) <= 1)%nat).
  { intros [|[|[|[|i]]]]; vm_compute; lia. }
  destruct (constants_reach_gate_output and_world w2 3 1 2
              (ANDGate.mk (mkNodeTerminal 0 1) (mkNodeTerminal 0 2) (mkNodeTerminal 0 3) false)
              (Constant.mk true (mkNodeTerminal 0 1))
              (Constant.mk true (mkNodeTerminal 0 2))
              eq_refl eq_refl eq_refl eq_refl eq_refl Hsingle E) as (x & Hx & Hv).
  exists w2, x. split; [exact E|]. split; [exact Hx|exact Hv].
Defined.

(** ** A ROM inside a running circuit *)

(** X15. In any circuit, a ROM whose table has N <= 2^32 entries and
    whose position p is below N stands at position (p + clk) mod N after
    [clk] ticks that return, whatever else the arena holds; its table and
    its output terminal are as they were.  In particular it is back at p
    after every multiple of N ticks. *)
Theorem ROM_position_after_ticks (w w' : World) (clk : nat) (j : nat) (r : ROM.t)
    (Hj : m_nodes (rData w) !! j = Some (Some (Node_ROM r)))
    (Hsize : ROM.SIZE r <= 2 ^ 32)
    (Hpc : ROM.m_pc r < ROM.SIZE r)
    (Hrun : run_ticks clk w = Ok w') :
  m_nodes (rData w') !! j
  = Some (Some (Node_ROM (ROM.set_m_pc ((ROM.m_pc r + N.of_nat clk) mod ROM.SIZE r) r))) /\
  (forall k, clk = (k * length (ROM.m_data r))%nat ->
     m_nodes (rData w') !! j = Some (Some (Node_ROM r))).
Proof.
  assert (Hpos : m_nodes (rData w') !! j
    = Some (Some (Node_ROM (ROM.set_m_pc ((ROM.m_pc r + N.of_nat clk) mod ROM.SIZE r) r)))).
  { revert w r Hj Hsize Hpc Hrun.
    induction clk as [|clk IH]; intros w r Hj Hsize Hpc Hrun; simpl in Hrun.
    - injection Hrun as <-. rewrite Hj, N.add_0_r, N.mod_small by done. by destruct r.
    - inv_bind Hrun. rename a into w1.
      assert (Hne : ROM.SIZE r <> 0) by lia.
      assert (Hj1 : m_nodes (rData w1) !! j
                = Some (Some (Node_ROM (ROM.set_m_pc ((ROM.m_pc r + 1) mod ROM.SIZE r) r)))).
      { rewrite (tick_nodes _ _ Hcall), list_lookup_fmap, Hj. simpl.
        by rewrite ROM_next_pc. }
      rewrite (IH w1 _ Hj1); [|done|by apply N.mod_upper_bound|done].
      simpl. change (ROM.SIZE (ROM.mk (ROM.m_data r) _ (ROM.m_output r))) with (ROM.SIZE r).
      rewrite N.Div0.add_mod_idemp_l. do 3 f_equal. unfold ROM.set_m_pc. simpl.
      f_equal. f_equal. lia. }
  split; [exact Hpos|].
  intros k ->. rewrite Hpos. do 3 f_equal.
  rewrite Nat2N.inj_mul. fold (ROM.SIZE r). rewrite N.Div0.mod_add.
  rewrite N.mod_small by done. by destruct r.
Qed.

(** The ROM of [main] after 36 ticks: position 4. *)
Lemma ROM_position_after_ticks_witness :
  run_ticks 36 main_world = Ok (main_after 36) /\
  m_nodes (rData (main_after 36)) !! 2%nat
  = Some (Some (Node_ROM (ROM.mk romData 4 (mkNodeTerminal 0 1)))).
Proof.
  assert (E : run_ticks 36 main_world = Ok (main_after 36)) by (vm_compute; reflexivity).
  assert (Hsize : ROM.SIZE (ROM.mk romData 0 (mkNodeTerminal 0 1)) <= 2 ^ 32)
    by (vm_compute; discriminate).
  split; [exact E|].
  exact (proj1 (ROM_position_after_ticks main_world (main_after 36) 36 2
                  (ROM.mk romData 0 (mkNodeTerminal 0 1)) eq_refl Hsize eq_refl E)).
Defined.

(** ** The owner identities connect records *)

Lemma wire_in_connected T p q :
  wire_in (set_wire_out q (set_wire_in p (make_shared_wire T))) = p.
Proof. by destruct T. Qed.

Lemma wire_out_connected T p q :
  wire_out (set_wire_out q (set_wire_in p (make_shared_wire T))) = q.
Proof. by destruct T. Qed.

Lemma parents_null_init : parents_null (rData World_init).
Proof.
  intros T r t Hr. apply deref_Ok in Hr as (n & Hn & _). simpl in Hn.
  destruct (owner r) as [|[|j]]; discriminate Hn.
Qed.

(** No operation of the interface assigns [m_parentID]. *)
Lemma step_parents_null o w w' :
  step o w = Ok w' ->
  (forall node, o = Op_add node -> default_parent node) ->
  parents_null (rData w) -> parents_null (rData w').
Proof.
  intros Hstep Hnew Hok T r t Hr.
  destruct o as [node|T0 a b|slot addr| |]; simpl in Hstep.
  - injection Hstep as <-. simpl in *.
    apply deref_Ok in Hr as (n & Hn & Ht). simpl in Hn.
    apply lookup_app_Some in Hn as [Hn|[_ Hn]].
    + apply (Hok T r t). apply deref_Ok. eauto.
    + apply list_lookup_singleton_Some in Hn as [_ [= <-]].
      by apply (Hnew node eq_refl (member_of r) T t).
  - inv_bind Hstep. rename a0 into d'. injection Hstep as <-. simpl in *.
    destruct (connect_Ok _ _ _ _ _ Hcall) as (ta & tb & Ha & Hb).
    destruct (connect_spec T0 a b _ ta tb Ha Hb) as (d'' & Hc & _ & Ha' & Hb' & _ & _ & Hoth).
    rewrite Hcall in Hc. injection Hc as <-.
    destruct (decide (r = a)) as [->|Hra].
    { destruct (deref_Ok T a d' t) as [Hd _]. destruct (Hd Hr) as (n & Hn & Ht).
      destruct (deref_Ok T0 a d' (set_m_id (to_uint32 (N.of_nat (length (m_edges (rData w))))) ta))
        as [Hd0 _]. destruct (Hd0 Ha') as (n0 & Hn0 & Ht0).
      rewrite Hn in Hn0. injection Hn0 as <-. rewrite Ht in Ht0. injection Ht0 as -> ->.
      simpl. by apply (Hok T0 a ta). }
    destruct (decide (r = b)) as [->|Hrb].
    { destruct (deref_Ok T b d' t) as [Hd _]. destruct (Hd Hr) as (n & Hn & Ht).
      destruct (deref_Ok T0 b d' (set_m_id (to_uint32 (N.of_nat (length (m_edges (rData w))))) tb))
        as [Hd0 _]. destruct (Hd0 Hb') as (n0 & Hn0 & Ht0).
      rewrite Hn in Hn0. injection Hn0 as <-. rewrite Ht in Ht0. injection Ht0 as -> ->.
      simpl. by apply (Hok T0 b tb). }
    rewrite (Hoth T r Hra Hrb) in Hr. by apply (Hok T r t).
  - inv_bind Hstep. rename a into d'. injection Hstep as <-. simpl in *.
    apply (Hok T r t). apply deref_Ok in Hr as (n & Hn & Ht). apply deref_Ok.
    unfold jmp_at in Hcall.
    destruct (m_nodes (rData w) !! slot) as [[[c|g|r0|p]|]|] eqn:E; try discriminate.
    injection Hcall as <-. simpl in Hn.
    destruct (decide (slot = owner r)) as [->|Hne].
    + rewrite list_lookup_insert_eq in Hn by (by apply lookup_lt_Some in E).
      injection Hn as <-. exists (Node_ROM r0). split; [done|]. by destruct (member_of r).
    + rewrite list_lookup_insert_ne in Hn by done. eauto.
  - apply (Hok T r t). apply deref_Ok in Hr as (n1 & Hn1 & Ht). apply deref_Ok.
    destruct (process_all_slot _ _ _ _ Hstep Hn1) as (n & r1 & Hn & Hr1 & <-).
    exists n. split; [done|]. by rewrite <- (Node_process_terminal _ _ _ _ Hr1).
  - pose proof (propagate_all_nodes _ _ Hstep) as Hns.
    apply deref_Ok in Hr as (n1 & Hn1 & Ht). rewrite Hns, list_lookup_fmap in Hn1.
    destruct (m_nodes (rData w) !! owner r) as [[n|]|] eqn:E; try discriminate Hn1.
    injection Hn1 as <-. rewrite stepped_terminal in Ht.
    apply (Hok T r t). apply deref_Ok. eauto.
Qed.

Lemma run_parents_null ops : forall w w',
  run ops w = Ok w' ->
  (forall node, In (Op_add node) ops -> default_parent node) ->
  parents_null (rData w) -> parents_null (rData w').
Proof.
  induction ops as [|o ops IH]; intros w w' Hrun Hnew Hok; simpl in Hrun.
  - by injection Hrun as <-.
  - inv_bind Hrun. rename a into w1.
    apply (IH w1 w' Hrun); [intros node Hin; apply Hnew; by right|].
    apply (step_parents_null o w w1 Hcall); [|done].
    intros node ->. apply Hnew. by left.
Qed.

Lemma reachable_null_node ops w :
  run ops World_init = Ok w -> m_nodes (rData w) !! 0%nat = Some None.
Proof.
  intros Hrun. pose proof (run_grows _ _ _ Hrun) as [Hn0 _].
  destruct (prefix_of_fmap_lookup (fmap (M:=option) kind_of) _ _ 0%nat None Hn0 eq_refl)
    as ([n|] & Hy & Hf); [simpl in Hf; discriminate Hf|done].
Qed.

(** C6, where the code departs from it.  The connect of [main] joins the
    output of the ROM, the node of identity 2, to the input of the
    printer, the node of identity 1; the wire it creates records 0, the
    null node identity, as its producer and as its consumer.  So it is
    in every arena built through the interface from nodes as their
    constructors make them: no operation assigns a terminal's
    [m_parentID], which connect copies into the wire, so every wire a
    connect creates records the null identity twice, while the two
    owning nodes have identities other than null. *)
Theorem connect_records_null_owners :
  (exists d' c,
     m_nodes main_nodes !! 2%nat = Some (Some (Node_ROM (ROM.init romData))) /\
     m_nodes main_nodes !! 1%nat = Some (Some (Node_Printer (Printer.init T_uint32))) /\
     connect T_uint32 (mkTermRef 2 F_m_output) (mkTermRef 1 F_m_input) main_nodes = Ok d' /\
     m_edges d' = [None; Some c] /\
     wire_in c = 0 /\ wire_out c = 0) /\
  (forall ops w T a b d',
     run ops World_init = Ok w ->
     (forall node, In (Op_add node) ops -> default_parent node) ->
     connect T a b (rData w) = Ok d' ->
     exists c,
       m_edges d' = m_edges (rData w) ++ [Some c] /\
       wire_in c = nullNode_t /\ wire_out c = nullNode_t /\
       owner a <> 0%nat /\ owner b <> 0%nat).
Proof.
  split.
  - eexists _, _. repeat split; reflexivity.
  - intros ops w T a b d' Hrun Hnew Hconnect.
    pose proof (run_parents_null _ _ _ Hrun Hnew parents_null_init) as Hnull.
    pose proof (reachable_null_node _ _ Hrun) as H0.
    destruct (connect_Ok _ _ _ _ _ Hconnect) as (ta & tb & Ha & Hb).
    destruct (connect_spec T a b _ ta tb Ha Hb) as (d'' & Hc & He & _).
    rewrite Hconnect in Hc. injection Hc as <-.
    eexists. split; [exact He|].
    rewrite wire_in_connected, wire_out_connected.
    split; [by apply (Hnull T a)|]. split; [by apply (Hnull T b)|].
    apply deref_Ok in Ha as (na & Hna & _), Hb as (nb & Hnb & _).
    split; intros Heq; rewrite Heq in *; congruence.
Qed.

(** The arena of [main] as its two adds build it. *)
Lemma connect_records_null_owners_witness :
  exists d' c,
    run [Op_add (Node_Printer (Printer.init T_uint32)); Op_add (Node_ROM (ROM.init romData))]
        World_init = Ok (mkWorld main_nodes []) /\
    connect T_uint32 (mkTermRef 2 F_m_output) (mkTermRef 1 F_m_input) main_nodes = Ok d' /\
    m_edges d' = [None; Some c] /\
    wire_in c = nullNode_t /\ wire_out c = nullNode_t.
Proof.
  destruct (connect T_uint32 (mkTermRef 2 F_m_output) (mkTermRef 1 F_m_input) main_nodes)
    as [d'| |] eqn:E; [|discriminate E..].
  assert (Hnew : forall node,
            In (Op_add node)
               [Op_add (Node_Printer (Printer.init T_uint32));
                Op_add (Node_ROM (ROM.init romData))] ->
            default_parent node).
  { intros node [[= <-]|[[= <-]|[]]] f T t Ht; destruct f; try discriminate Ht;
      by injection Ht as <- <-. }
  destruct (proj2 connect_records_null_owners
              [Op_add (Node_Printer (Printer.init T_uint32));
               Op_add (Node_ROM (ROM.init romData))]
              (mkWorld main_nodes []) T_uint32
              (mkTermRef 2 F_m_output) (mkTermRef 1 F_m_input) d' eq_refl Hnew E)
    as (c & He & Hin & Hout & _).
  exists d', c. repeat split; assumption.
Defined.
